(** * node-crawler: the admission, execution and response pipeline

    A shallow embedding of the class [Crawler] and of [getCharset] and
    [getValidOptions] of [src/options.ts]. The class is in [src/logger.ts],
    which holds the options of the logger and, from its line 26 on, the
    crawler module; the line numbers below are those of that file.

    One descriptor is followed through its life: a timer or a promise
    continuation is recorded in the crawler's history and then run in place.
    What the collaborators answer (transport, pre-request hook, dedup store,
    decoder, parsers) is read from an environment [Env]; what the crawler asks
    of them, what it logs and what it emits is appended to its history. *)

From Stdlib Require Import ZArith String Ascii List Bool Lia.
From stdpp Require Import base option list strings gmap.
Import ListNotations.

Local Open Scope Z_scope.
Local Set Warnings "-register-all".

(** ** Values *)

(** An array index held in a JavaScript number: [x % 0] is [NaN], and [NaN]
    stays [NaN] under [%] and [++]. *)
Inductive JsIndex :=
  | Num (n : nat)
  | NaN.

Record JsError := mkError { errName : string; errMessage : string }.

(** [options.encoding]: absent, [null] (no decoding wanted) or a charset. *)
Inductive Encoding :=
  | EncUndefined
  | EncNull
  | EncName (charset : string).

(** [userAgents] is one string or an array of strings. *)
Inductive UserAgents :=
  | UaSingle (ua : string)
  | UaList (uas : list string).

(** [url] is a string, or a function that hands the string to its argument
    (or never does). *)
Inductive Url :=
  | UrlString (s : string)
  | UrlFunction (yields : option string).

(** The capability built in [_schedule]: [() => { done(); emit("_release") }],
    with the limiter id the task was started under. *)
Inductive Release :=
  | mkRelease (limiter : option Z).

(** A completion callback is the caller's function, known here by how many
    times it calls the [done] it is handed, or it is the release capability
    itself ([options.callback || options.release]). *)
Inductive Callback :=
  | UserCallback (doneCalls : nat)
  | ReleaseCallback (r : Release).

(** [a ?? b] on a property that is absent or [undefined]. A property that
    is present with the value [undefined] is not told apart from an absent
    one. *)
Definition orDefault {A} (a b : option A) : option A :=
  match a with
  | Some _ => a
  | None => b
  end.

Definition orEncoding (a b : Encoding) : Encoding :=
  match a with
  | EncUndefined => b
  | _ => a
  end.

(** ** The option object

    [CrawlerOptions] of [types/crawler.ts], restricted to the properties that
    the class reads or writes. [preRequest] names the hook; its behaviour
    is in the environment. *)
Record CrawlerOptions := {
  maxConnections : option Z;
  rateLimit : option Z;
  priorityLevels : option Z;
  skipDuplicates : option bool;
  homogeneous : option bool;
  userAgents : option UserAgents;
  silence : option bool;
  method : option string;
  forceUTF8 : option bool;
  jQuery : option bool;
  priority : option Z;
  retries : option Z;
  retryInterval : option Z;
  timeout : option Z;
  isJson : option bool;
  rejectUnauthorized : option bool;
  url : option Url;
  uri : option string;
  html : option string;
  headers : option (gmap string string);
  encoding : Encoding;
  proxy : option string;
  proxies : option (list string);
  preRequest : option nat;
  callback : option Callback;
  release : option Release;
  skipEventRequest : option bool;
  rateLimiterId : option Z;
}.

Definition set_maxConnections (v : option Z) (o : CrawlerOptions) : CrawlerOptions :=
  {| maxConnections := v; rateLimit := rateLimit o;
     priorityLevels := priorityLevels o; skipDuplicates := skipDuplicates o;
     homogeneous := homogeneous o; userAgents := userAgents o;
     silence := silence o; method := method o; forceUTF8 := forceUTF8 o;
     jQuery := jQuery o; priority := priority o; retries := retries o;
     retryInterval := retryInterval o; timeout := timeout o;
     isJson := isJson o; rejectUnauthorized := rejectUnauthorized o;
     url := url o; uri := uri o; html := html o; headers := headers o;
     encoding := encoding o; proxy := proxy o; proxies := proxies o;
     preRequest := preRequest o; callback := callback o;
     release := release o; skipEventRequest := skipEventRequest o;
     rateLimiterId := rateLimiterId o |}.

Definition set_url (v : option Url) (o : CrawlerOptions) : CrawlerOptions :=
  {| maxConnections := maxConnections o; rateLimit := rateLimit o;
     priorityLevels := priorityLevels o; skipDuplicates := skipDuplicates o;
     homogeneous := homogeneous o; userAgents := userAgents o;
     silence := silence o; method := method o; forceUTF8 := forceUTF8 o;
     jQuery := jQuery o; priority := priority o; retries := retries o;
     retryInterval := retryInterval o; timeout := timeout o;
     isJson := isJson o; rejectUnauthorized := rejectUnauthorized o;
     url := v; uri := uri o; html := html o; headers := headers o;
     encoding := encoding o; proxy := proxy o; proxies := proxies o;
     preRequest := preRequest o; callback := callback o;
     release := release o; skipEventRequest := skipEventRequest o;
     rateLimiterId := rateLimiterId o |}.

Definition set_uri (v : option string) (o : CrawlerOptions) : CrawlerOptions :=
  {| maxConnections := maxConnections o; rateLimit := rateLimit o;
     priorityLevels := priorityLevels o; skipDuplicates := skipDuplicates o;
     homogeneous := homogeneous o; userAgents := userAgents o;
     silence := silence o; method := method o; forceUTF8 := forceUTF8 o;
     jQuery := jQuery o; priority := priority o; retries := retries o;
     retryInterval := retryInterval o; timeout := timeout o;
     isJson := isJson o; rejectUnauthorized := rejectUnauthorized o;
     url := url o; uri := v; html := html o; headers := headers o;
     encoding := encoding o; proxy := proxy o; proxies := proxies o;
     preRequest := preRequest o; callback := callback o;
     release := release o; skipEventRequest := skipEventRequest o;
     rateLimiterId := rateLimiterId o |}.

Definition set_headers (v : option (gmap string string)) (o : CrawlerOptions) : CrawlerOptions :=
  {| maxConnections := maxConnections o; rateLimit := rateLimit o;
     priorityLevels := priorityLevels o; skipDuplicates := skipDuplicates o;
     homogeneous := homogeneous o; userAgents := userAgents o;
     silence := silence o; method := method o; forceUTF8 := forceUTF8 o;
     jQuery := jQuery o; priority := priority o; retries := retries o;
     retryInterval := retryInterval o; timeout := timeout o;
     isJson := isJson o; rejectUnauthorized := rejectUnauthorized o;
     url := url o; uri := uri o; html := html o; headers := v;
     encoding := encoding o; proxy := proxy o; proxies := proxies o;
     preRequest := preRequest o; callback := callback o;
     release := release o; skipEventRequest := skipEventRequest o;
     rateLimiterId := rateLimiterId o |}.

Definition set_encoding (v : Encoding) (o : CrawlerOptions) : CrawlerOptions :=
  {| maxConnections := maxConnections o; rateLimit := rateLimit o;
     priorityLevels := priorityLevels o; skipDuplicates := skipDuplicates o;
     homogeneous := homogeneous o; userAgents := userAgents o;
     silence := silence o; method := method o; forceUTF8 := forceUTF8 o;
     jQuery := jQuery o; priority := priority o; retries := retries o;
     retryInterval := retryInterval o; timeout := timeout o;
     isJson := isJson o; rejectUnauthorized := rejectUnauthorized o;
     url := url o; uri := uri o; html := html o; headers := headers o;
     encoding := v; proxy := proxy o; proxies := proxies o;
     preRequest := preRequest o; callback := callback o;
     release := release o; skipEventRequest := skipEventRequest o;
     rateLimiterId := rateLimiterId o |}.

Definition set_proxy (v : option string) (o : CrawlerOptions) : CrawlerOptions :=
  {| maxConnections := maxConnections o; rateLimit := rateLimit o;
     priorityLevels := priorityLevels o; skipDuplicates := skipDuplicates o;
     homogeneous := homogeneous o; userAgents := userAgents o;
     silence := silence o; method := method o; forceUTF8 := forceUTF8 o;
     jQuery := jQuery o; priority := priority o; retries := retries o;
     retryInterval := retryInterval o; timeout := timeout o;
     isJson := isJson o; rejectUnauthorized := rejectUnauthorized o;
     url := url o; uri := uri o; html := html o; headers := headers o;
     encoding := encoding o; proxy := v; proxies := proxies o;
     preRequest := preRequest o; callback := callback o;
     release := release o; skipEventRequest := skipEventRequest o;
     rateLimiterId := rateLimiterId o |}.

Definition set_retries (v : option Z) (o : CrawlerOptions) : CrawlerOptions :=
  {| maxConnections := maxConnections o; rateLimit := rateLimit o;
     priorityLevels := priorityLevels o; skipDuplicates := skipDuplicates o;
     homogeneous := homogeneous o; userAgents := userAgents o;
     silence := silence o; method := method o; forceUTF8 := forceUTF8 o;
     jQuery := jQuery o; priority := priority o; retries := v;
     retryInterval := retryInterval o; timeout := timeout o;
     isJson := isJson o; rejectUnauthorized := rejectUnauthorized o;
     url := url o; uri := uri o; html := html o; headers := headers o;
     encoding := encoding o; proxy := proxy o; proxies := proxies o;
     preRequest := preRequest o; callback := callback o;
     release := release o; skipEventRequest := skipEventRequest o;
     rateLimiterId := rateLimiterId o |}.

Definition set_preRequest (v : option nat) (o : CrawlerOptions) : CrawlerOptions :=
  {| maxConnections := maxConnections o; rateLimit := rateLimit o;
     priorityLevels := priorityLevels o; skipDuplicates := skipDuplicates o;
     homogeneous := homogeneous o; userAgents := userAgents o;
     silence := silence o; method := method o; forceUTF8 := forceUTF8 o;
     jQuery := jQuery o; priority := priority o; retries := retries o;
     retryInterval := retryInterval o; timeout := timeout o;
     isJson := isJson o; rejectUnauthorized := rejectUnauthorized o;
     url := url o; uri := uri o; html := html o; headers := headers o;
     encoding := encoding o; proxy := proxy o; proxies := proxies o;
     preRequest := v; callback := callback o; release := release o;
     skipEventRequest := skipEventRequest o;
     rateLimiterId := rateLimiterId o |}.

Definition set_callback (v : option Callback) (o : CrawlerOptions) : CrawlerOptions :=
  {| maxConnections := maxConnections o; rateLimit := rateLimit o;
     priorityLevels := priorityLevels o; skipDuplicates := skipDuplicates o;
     homogeneous := homogeneous o; userAgents := userAgents o;
     silence := silence o; method := method o; forceUTF8 := forceUTF8 o;
     jQuery := jQuery o; priority := priority o; retries := retries o;
     retryInterval := retryInterval o; timeout := timeout o;
     isJson := isJson o; rejectUnauthorized := rejectUnauthorized o;
     url := url o; uri := uri o; html := html o; headers := headers o;
     encoding := encoding o; proxy := proxy o; proxies := proxies o;
     preRequest := preRequest o; callback := v; release := release o;
     skipEventRequest := skipEventRequest o;
     rateLimiterId := rateLimiterId o |}.

Definition set_release (v : option Release) (o : CrawlerOptions) : CrawlerOptions :=
  {| maxConnections := maxConnections o; rateLimit := rateLimit o;
     priorityLevels := priorityLevels o; skipDuplicates := skipDuplicates o;
     homogeneous := homogeneous o; userAgents := userAgents o;
     silence := silence o; method := method o; forceUTF8 := forceUTF8 o;
     jQuery := jQuery o; priority := priority o; retries := retries o;
     retryInterval := retryInterval o; timeout := timeout o;
     isJson := isJson o; rejectUnauthorized := rejectUnauthorized o;
     url := url o; uri := uri o; html := html o; headers := headers o;
     encoding := encoding o; proxy := proxy o; proxies := proxies o;
     preRequest := preRequest o; callback := callback o; release := v;
     skipEventRequest := skipEventRequest o;
     rateLimiterId := rateLimiterId o |}.

Definition set_skipEventRequest (v : option bool) (o : CrawlerOptions) : CrawlerOptions :=
  {| maxConnections := maxConnections o; rateLimit := rateLimit o;
     priorityLevels := priorityLevels o; skipDuplicates := skipDuplicates o;
     homogeneous := homogeneous o; userAgents := userAgents o;
     silence := silence o; method := method o; forceUTF8 := forceUTF8 o;
     jQuery := jQuery o; priority := priority o; retries := retries o;
     retryInterval := retryInterval o; timeout := timeout o;
     isJson := isJson o; rejectUnauthorized := rejectUnauthorized o;
     url := url o; uri := uri o; html := html o; headers := headers o;
     encoding := encoding o; proxy := proxy o; proxies := proxies o;
     preRequest := preRequest o; callback := callback o;
     release := release o; skipEventRequest := v;
     rateLimiterId := rateLimiterId o |}.

Definition set_rateLimit (v : option Z) (o : CrawlerOptions) : CrawlerOptions :=
  {| maxConnections := maxConnections o; rateLimit := v;
     priorityLevels := priorityLevels o; skipDuplicates := skipDuplicates o;
     homogeneous := homogeneous o; userAgents := userAgents o;
     silence := silence o; method := method o; forceUTF8 := forceUTF8 o;
     jQuery := jQuery o; priority := priority o; retries := retries o;
     retryInterval := retryInterval o; timeout := timeout o;
     isJson := isJson o; rejectUnauthorized := rejectUnauthorized o;
     url := url o; uri := uri o; html := html o; headers := headers o;
     encoding := encoding o; proxy := proxy o; proxies := proxies o;
     preRequest := preRequest o; callback := callback o;
     release := release o; skipEventRequest := skipEventRequest o;
     rateLimiterId := rateLimiterId o |}.

Definition set_userAgents (v : option UserAgents) (o : CrawlerOptions) : CrawlerOptions :=
  {| maxConnections := maxConnections o; rateLimit := rateLimit o;
     priorityLevels := priorityLevels o; skipDuplicates := skipDuplicates o;
     homogeneous := homogeneous o; userAgents := v; silence := silence o;
     method := method o; forceUTF8 := forceUTF8 o; jQuery := jQuery o;
     priority := priority o; retries := retries o;
     retryInterval := retryInterval o; timeout := timeout o;
     isJson := isJson o; rejectUnauthorized := rejectUnauthorized o;
     url := url o; uri := uri o; html := html o; headers := headers o;
     encoding := encoding o; proxy := proxy o; proxies := proxies o;
     preRequest := preRequest o; callback := callback o;
     release := release o; skipEventRequest := skipEventRequest o;
     rateLimiterId := rateLimiterId o |}.

Definition set_proxies (v : option (list string)) (o : CrawlerOptions) : CrawlerOptions :=
  {| maxConnections := maxConnections o; rateLimit := rateLimit o;
     priorityLevels := priorityLevels o; skipDuplicates := skipDuplicates o;
     homogeneous := homogeneous o; userAgents := userAgents o;
     silence := silence o; method := method o; forceUTF8 := forceUTF8 o;
     jQuery := jQuery o; priority := priority o; retries := retries o;
     retryInterval := retryInterval o; timeout := timeout o;
     isJson := isJson o; rejectUnauthorized := rejectUnauthorized o;
     url := url o; uri := uri o; html := html o; headers := headers o;
     encoding := encoding o; proxy := proxy o; proxies := v;
     preRequest := preRequest o; callback := callback o;
     release := release o; skipEventRequest := skipEventRequest o;
     rateLimiterId := rateLimiterId o |}.

Definition set_html (v : option string) (o : CrawlerOptions) : CrawlerOptions :=
  {| maxConnections := maxConnections o; rateLimit := rateLimit o;
     priorityLevels := priorityLevels o; skipDuplicates := skipDuplicates o;
     homogeneous := homogeneous o; userAgents := userAgents o;
     silence := silence o; method := method o; forceUTF8 := forceUTF8 o;
     jQuery := jQuery o; priority := priority o; retries := retries o;
     retryInterval := retryInterval o; timeout := timeout o;
     isJson := isJson o; rejectUnauthorized := rejectUnauthorized o;
     url := url o; uri := uri o; html := v; headers := headers o;
     encoding := encoding o; proxy := proxy o; proxies := proxies o;
     preRequest := preRequest o; callback := callback o;
     release := release o; skipEventRequest := skipEventRequest o;
     rateLimiterId := rateLimiterId o |}.

Definition set_skipDuplicates (v : option bool) (o : CrawlerOptions) : CrawlerOptions :=
  {| maxConnections := maxConnections o; rateLimit := rateLimit o;
     priorityLevels := priorityLevels o; skipDuplicates := v;
     homogeneous := homogeneous o; userAgents := userAgents o;
     silence := silence o; method := method o; forceUTF8 := forceUTF8 o;
     jQuery := jQuery o; priority := priority o; retries := retries o;
     retryInterval := retryInterval o; timeout := timeout o;
     isJson := isJson o; rejectUnauthorized := rejectUnauthorized o;
     url := url o; uri := uri o; html := html o; headers := headers o;
     encoding := encoding o; proxy := proxy o; proxies := proxies o;
     preRequest := preRequest o; callback := callback o;
     release := release o; skipEventRequest := skipEventRequest o;
     rateLimiterId := rateLimiterId o |}.

(** [{}] *)
Definition emptyOptions : CrawlerOptions :=
  {| maxConnections := None; rateLimit := None; priorityLevels := None;
     skipDuplicates := None; homogeneous := None; userAgents := None;
     silence := None; method := None; forceUTF8 := None; jQuery := None;
     priority := None; retries := None; retryInterval := None;
     timeout := None; isJson := None; rejectUnauthorized := None;
     url := None; uri := None; html := None; headers := None;
     encoding := EncUndefined; proxy := None; proxies := None;
     preRequest := None; callback := None; release := None;
     skipEventRequest := None; rateLimiterId := None |}.

(** Modelled from the spec: [setDefaults] of [lib/utils.ts] is not among the
    sources. Spec 4.3: "Applies caller-supplied defaults": every property
    that is [undefined] in [target] is taken from [source]. *)
Definition setDefaults (target source : CrawlerOptions) : CrawlerOptions :=
  {| maxConnections := orDefault (maxConnections target) (maxConnections source);
     rateLimit := orDefault (rateLimit target) (rateLimit source);
     priorityLevels := orDefault (priorityLevels target) (priorityLevels source);
     skipDuplicates := orDefault (skipDuplicates target) (skipDuplicates source);
     homogeneous := orDefault (homogeneous target) (homogeneous source);
     userAgents := orDefault (userAgents target) (userAgents source);
     silence := orDefault (silence target) (silence source);
     method := orDefault (method target) (method source);
     forceUTF8 := orDefault (forceUTF8 target) (forceUTF8 source);
     jQuery := orDefault (jQuery target) (jQuery source);
     priority := orDefault (priority target) (priority source);
     retries := orDefault (retries target) (retries source);
     retryInterval := orDefault (retryInterval target) (retryInterval source);
     timeout := orDefault (timeout target) (timeout source);
     isJson := orDefault (isJson target) (isJson source);
     rejectUnauthorized := orDefault (rejectUnauthorized target) (rejectUnauthorized source);
     url := orDefault (url target) (url source);
     uri := orDefault (uri target) (uri source);
     html := orDefault (html target) (html source);
     headers := orDefault (headers target) (headers source);
     encoding := orEncoding (encoding target) (encoding source);
     proxy := orDefault (proxy target) (proxy source);
     proxies := orDefault (proxies target) (proxies source);
     preRequest := orDefault (preRequest target) (preRequest source);
     callback := orDefault (callback target) (callback source);
     release := orDefault (release target) (release source);
     skipEventRequest := orDefault (skipEventRequest target) (skipEventRequest source);
     rateLimiterId := orDefault (rateLimiterId target) (rateLimiterId source) |}.

(** [{ ...a, ...b }]: the properties of [b] win. *)
Definition spread (a b : CrawlerOptions) : CrawlerOptions := setDefaults b a.

(** ** Caller input, responses, the limiter cluster *)

Inductive Prototype :=
  | ObjectPrototype
  | NullPrototype
  | ClassPrototype.

(** What a caller can hand to [add] and [send], and what [JSON.parse] can
    return. *)
Inductive JsValue :=
  | VUndefined
  | VNull
  | VBoolean (b : bool)
  | VNumber (n : Z)
  | VString (s : string)
  | VFunction
  | VArray (items : list JsValue)
  | VObject (proto : Prototype) (o : CrawlerOptions).

(** A body as the transport or the caller supplies it. Bytes and text are
    both strings here; [Buffer.from] and [toString] are the identity. *)
Inductive RawBody :=
  | RawBuffer (bytes : string)
  | RawText (text : string).

Record RawResponse := {
  raw_body : option RawBody;
  raw_headers : gmap string string;
}.

Inductive Document :=
  | mkDocument (markup : string).

Inductive Body :=
  | BBuffer (bytes : string)
  | BString (text : string)
  | BParsed (json : JsValue).

Record CrawlerResponse := {
  res_body : option Body;
  res_headers : gmap string string;
  res_charset : option string;
  res_options : option CrawlerOptions;
  res_dollar : option Document;
}.

Record ClusterOptions := {
  cl_maxConnections : option Z;
  cl_rateLimit : option Z;
  cl_priorityLevels : option Z;
  cl_defaultPriority : option Z;
  cl_homogeneous : option bool;
}.

Inductive ClusterCall :=
  | Submit (limiter : option Z) (prio : option Z) (task : CrawlerOptions)
  | Done (limiter : option Z).

(** Modelled from the spec: [rateLimiter/index.ts] is not among the sources.
    Spec 3 and 4.2: a Cluster is built from its limiter configuration and
    owns the limiters, each with its active count and its queue; these change
    only through [submit] and [done] (spec 5: "never mutated from outside
    submit/done"). The cluster is kept as its configuration and the calls
    made on it, oldest first. *)
Record Cluster := {
  clusterOptions : ClusterOptions;
  calls : list ClusterCall;
}.

Inductive LogLevel :=
  | LDebug
  | LWarn
  | LError.

(** What the crawler did, as seen from outside. *)
Inductive Event :=
  | Emit (event : string)
  | Log (level : LogLevel)
  | PreRequestCall (hook : nat)
  | GotCall (o : CrawlerOptions)
  | SetTimeout (ms : option Z)
  | CallbackCall (error : option JsError) (res : CrawlerResponse)
  | IconvDecode (charset : string)
  | Unhandled (e : JsError).

Record Crawler := {
  options : CrawlerOptions;
  _UAIndex : JsIndex;
  _proxyIndex : JsIndex;
  _limiters : Cluster;
  history : list Event;
}.

Inductive Completion (A : Type) :=
  | Normal (a : A)
  | Throw (e : JsError).
Arguments Normal {A} a.
Arguments Throw {A} e.

(** What a pre-request hook does with [(options, done)]: it calls [done]
    once, with or without an error, after possibly changing the options; it
    throws; or it never calls [done]. *)
Inductive HookOutcome :=
  | HookNext (o' : CrawlerOptions) (err : option JsError)
  | HookThrows (e : JsError)
  | HookSilent.

(** The collaborators. [got n o] is the outcome of the [n]-th pass (from 0)
    through the [try] block of [request], that is of
    [got(alignOptions(options))]: whatever either call throws lands in the
    same [catch]. *)
Record Env := {
  isValidUrl : string -> bool;
  JSON_parse : string -> option JsValue;
  JSON_stringify : JsValue -> string;
  lowerObjectKeys : gmap string string -> gmap string string;
  got : nat -> CrawlerOptions -> JsError + RawResponse;
  preRequestFn : nat -> CrawlerOptions -> HookOutcome;
  iconv_decode : string -> string -> option string;
  cheerio_load : string -> option Document;
  seen_initialize : option JsError;
  seen_exists : CrawlerOptions -> JsError + bool;
  cluster_empty : Cluster -> bool;
}.

(** ** [options.ts] *)

Module Regex.

Definition code (a : ascii) : nat := nat_of_ascii a.

Definition between (lo hi n : nat) : bool := (lo <=? n)%nat && (n <=? hi)%nat.

(** Lower case of the letters [A] to [Z]; every other code unit is left. *)
Definition toLowerCase (a : ascii) : ascii :=
  if between 65 90 (code a) then ascii_of_nat (code a + 32) else a.

(** The letters [A] to [Z] of [s] in lower case. This is
    [String.prototype.toLowerCase] on a string of [[\w.-]], such as the
    captured group, and the case folding of the [i] flag (without [u]) on
    a literal of such letters; it is not [toLowerCase] on a string with
    letters outside that range. *)
Definition lowerString (s : string) : string :=
  string_of_list_ascii (map toLowerCase (list_ascii_of_string s)).

(** [\w] *)
Definition isWord (a : ascii) : bool :=
  between 48 57 (code a) || between 65 90 (code a)
  || between 97 122 (code a) || (code a =? 95)%nat.

(** [[\w.-]] *)
Definition isCharsetChar (a : ascii) : bool :=
  isWord a || (code a =? 46)%nat || (code a =? 45)%nat.

(** a single or a double quote *)
Definition isQuote (a : ascii) : bool :=
  (code a =? 39)%nat || (code a =? 34)%nat.

(** The literal [p] at the head of [s] under the [i] flag; the rest of [s]
    when it is there. *)
Fixpoint stripPrefixCI (p s : string) : option string :=
  match p, s with
  | EmptyString, _ => Some s
  | String _ _, EmptyString => None
  | String a p', String b s' =>
      if Ascii.eqb (toLowerCase a) (toLowerCase b) then stripPrefixCI p' s'
      else None
  end.

(** [[\w.-]+], greedy; the empty string when no character is in the class. *)
Fixpoint takeCharset (s : string) : string :=
  match s with
  | EmptyString => EmptyString
  | String a s' => if isCharsetChar a then String a (takeCharset s') else EmptyString
  end.

(** The expression of [getCharset] and [_handler], anchored at the head of
    [s]: [charset=] under the [i] flag, an optional single or double quote,
    then the captured group [([\w.-]+)]. A quote is not in the class, so
    when the run after a consumed quote is empty, giving the quote back
    cannot save the match. *)
Definition charsetAt (s : string) : option string :=
  match stripPrefixCI "charset=" s with
  | None => None
  | Some rest =>
      let afterQuote :=
        match rest with
        | String q r => if isQuote q then r else rest
        | EmptyString => rest
        end in
      match takeCharset afterQuote with
      | EmptyString => None
      | run => Some run
      end
  end.

(** [s.match] of that expression: the capture of the leftmost match. *)
Fixpoint matchCharset (s : string) : option string :=
  match charsetAt s with
  | Some m => Some m
  | None =>
      match s with
      | EmptyString => None
      | String _ s' => matchCharset s'
      end
  end.

(** [/p/i.test(s)] for a literal [p]. *)
Fixpoint testCI (p s : string) : bool :=
  match stripPrefixCI p s with
  | Some _ => true
  | None =>
      match s with
      | EmptyString => false
      | String _ s' => testCI p s'
      end
  end.

End Regex.

(** [match[1].trim().toLowerCase()]: the capture holds no white space, so
    [trim] leaves it as it is. *)
Definition declaredCharset (s : string) : option string :=
  Regex.lowerString <$> Regex.matchCharset s.

(** options.ts, [getCharset]. An empty content type is falsy. *)
Definition getCharset (headers : gmap string string) : option string :=
  match headers !! "content-type"%string with
  | Some contentType =>
      if String.eqb contentType "" then None else declaredCharset contentType
  | None => None
  end.

(** Modelled from the spec: [getType] of [lib/utils.ts] is not among the
    sources. Spec 4.3 and 9 name the shapes it tells apart: a string, a
    structured object, anything else. It is the lower-case class tag of the
    value. *)
Definition getType (v : JsValue) : string :=
  match v with
  | VUndefined => "undefined"
  | VNull => "null"
  | VBoolean _ => "boolean"
  | VNumber _ => "number"
  | VString _ => "string"
  | VFunction => "function"
  | VArray _ => "array"
  | VObject _ _ => "object"
  end.

Definition asString (v : JsValue) : string :=
  match v with
  | VString s => s
  | _ => ""
  end.

Definition getPrototypeOf (v : JsValue) : option Prototype :=
  match v with
  | VObject p _ => Some p
  | _ => None
  end.

Section WithEnv.

Variable env : Env.

Definition invalidOptions (options : JsValue) : JsError :=
  mkError "TypeError" ("Invalid options: " +:+ JSON_stringify env options).

(** options.ts, [getValidOptions]. [{ url: options }] is a fresh plain
    object. *)
Definition getValidOptions (options : JsValue) : Completion JsValue :=
  let type := getType options in
  if String.eqb type "string" then
    if isValidUrl env (asString options) then
      Normal (VObject ObjectPrototype
                (set_url (Some (UrlString (asString options))) emptyOptions))
    else
      match JSON_parse env (asString options) with
      | Some parsed => Normal parsed
      | None => Throw (invalidOptions options)
      end
  else if String.eqb type "object" then
    match getPrototypeOf options with
    | Some ObjectPrototype | Some NullPrototype => Normal options
    | _ => Throw (invalidOptions options)
    end
  else Throw (invalidOptions options).

(** ** [Crawler]: bookkeeping *)

Definition record (e : Event) (c : Crawler) : Crawler :=
  {| options := options c; _UAIndex := _UAIndex c; _proxyIndex := _proxyIndex c;
     _limiters := _limiters c; history := history c ++ [e] |}.

Definition emit (event : string) (c : Crawler) : Crawler := record (Emit event) c.

(** A call on the logger, shown or not. *)
Definition log (level : LogLevel) (c : Crawler) : Crawler := record (Log level) c.

(** A call on the cluster: [getRateLimiter(id).submit(...)] or [done()]. *)
Definition call (k : ClusterCall) (c : Crawler) : Crawler :=
  {| options := options c; _UAIndex := _UAIndex c; _proxyIndex := _proxyIndex c;
     _limiters := {| clusterOptions := clusterOptions (_limiters c);
                     calls := calls (_limiters c) ++ [k] |};
     history := history c |}.

Definition set_UAIndex (i : JsIndex) (c : Crawler) : Crawler :=
  {| options := options c; _UAIndex := i; _proxyIndex := _proxyIndex c;
     _limiters := _limiters c; history := history c |}.

Definition set_proxyIndex (i : JsIndex) (c : Crawler) : Crawler :=
  {| options := options c; _UAIndex := _UAIndex c; _proxyIndex := i;
     _limiters := _limiters c; history := history c |}.

(** [i % length] *)
Definition jsRem (i : JsIndex) (len : nat) : JsIndex :=
  match i with
  | Num n => if (len =? 0)%nat then NaN else Num (n mod len)%nat
  | NaN => NaN
  end.

(** [i++] *)
Definition jsIncr (i : JsIndex) : JsIndex :=
  match i with
  | Num n => Num (S n)
  | NaN => NaN
  end.

(** [array[i]]; [undefined] out of range and at [NaN]. *)
Definition jsNth {A} (array : list A) (i : JsIndex) : option A :=
  match i with
  | Num n => array !! n
  | NaN => None
  end.

(** [headers[key] = value]; a property set to [undefined] reads back as
    [undefined]. *)
Definition setHeader (key : string) (value : option string)
    (h : gmap string string) : gmap string string :=
  match value with
  | Some v => <[key := v]> h
  | None => delete key h
  end.

(** Truthiness of a string or boolean property. *)
Definition truthyString (s : option string) : bool :=
  match s with
  | Some s => negb (String.eqb s "")
  | None => false
  end.

Definition isTrue (b : option bool) : bool :=
  match b with
  | Some true => true
  | _ => false
  end.

Definition truthyNumber (n : option Z) : bool :=
  match n with
  | Some n => negb (n =? 0)
  | None => false
  end.

(** [options.retries && options.retries > 0] *)
Definition retriesLeft (o : CrawlerOptions) : bool :=
  match retries o with
  | Some n => 0 <? n
  | None => false
  end.

(** *** What the history shows *)

(** The retries left on the descriptor at each call of the transport. *)
Definition seesGot (e : Event) : list (option Z) :=
  match e with GotCall o => [retries o] | _ => [] end.

Definition seesHook (e : Event) : list nat :=
  match e with PreRequestCall hook => [hook] | _ => [] end.

Definition seesTimer (e : Event) : list (option Z) :=
  match e with SetTimeout ms => [ms] | _ => [] end.

Definition seesCallback (e : Event) : list (option JsError * CrawlerResponse) :=
  match e with CallbackCall error res => [(error, res)] | _ => [] end.

Definition seesDecode (e : Event) : list string :=
  match e with IconvDecode charset => [charset] | _ => [] end.

Definition seesEmit (name : string) (e : Event) : list string :=
  match e with
  | Emit event => if String.eqb event name then [event] else []
  | _ => []
  end.

Definition seesLog (e : Event) : list LogLevel :=
  match e with Log level => [level] | _ => [] end.

Definition attempts (l : list Event) : list (option Z) := List.flat_map seesGot l.
Definition hookCalls (l : list Event) : list nat := List.flat_map seesHook l.
Definition timers (l : list Event) : list (option Z) := List.flat_map seesTimer l.
Definition callbackCalls (l : list Event) := List.flat_map seesCallback l.
Definition decodeCalls (l : list Event) : list string := List.flat_map seesDecode l.
Definition notifications (name : string) (l : list Event) : list string :=
  List.flat_map (seesEmit name) l.
Definition logged (l : list Event) : list LogLevel := List.flat_map seesLog l.

Definition isDone (k : ClusterCall) : bool :=
  match k with Done _ => true | Submit _ _ _ => false end.

Definition isSubmit (k : ClusterCall) : bool :=
  match k with Submit _ _ _ => true | Done _ => false end.

(** ** [Crawler]: release and callback *)

(** The listener the constructor puts on ["_release"] (lines 102-105). *)
Definition onRelease (c : Crawler) : Crawler :=
  let c := log LDebug c in
  if cluster_empty env (_limiters c) then emit "drain" c else c.

(** [options.release()], as built at lines 119-122. *)
Definition invokeRelease (r : Release) (c : Crawler) : Crawler :=
  match r with
  | mkRelease limiter =>
      let c := call (Done limiter) c in
      let c := emit "_release" c in
      onRelease c
  end.

(** [options.callback(error, response, options.release)]. A caller's
    callback that calls a [done] that is [undefined] fails on its own
    account; that failure is not followed. *)
Definition invokeCallback (cb : Callback) (error : option JsError)
    (res : CrawlerResponse) (rel : option Release) (c : Crawler) : Crawler :=
  match cb with
  | ReleaseCallback r => invokeRelease r c
  | UserCallback doneCalls =>
      let c := record (CallbackCall error res) c in
      match rel with
      | Some r => Nat.iter doneCalls (invokeRelease r) c
      | None => c
      end
  end.

(** An exception that leaves a timer or a promise nobody awaits. *)
Definition unhandled {A} (out : Completion A) (c : Crawler) : Crawler :=
  match out with
  | Throw e => record (Unhandled e) c
  | Normal _ => c
  end.

(** ** [Crawler]: [_handler] *)

(** [_detectHtmlOnHeaders] (lines 108-112). A missing content type is
    tested as the text [undefined], which holds neither word. *)
Definition _detectHtmlOnHeaders (headers : gmap string string) : bool :=
  match headers !! "content-type"%string with
  | Some contentType => Regex.testCI "xml" contentType || Regex.testCI "html" contentType
  | None => false
  end.

Definition rawText (b : RawBody) : string :=
  match b with
  | RawBuffer bytes => bytes
  | RawText text => text
  end.

Definition ofRaw (b : RawBody) : Body :=
  match b with
  | RawBuffer bytes => BBuffer bytes
  | RawText text => BString text
  end.

(** [{ options }] *)
Definition errorResponse (o : CrawlerOptions) : CrawlerResponse :=
  {| res_body := None; res_headers := ∅; res_charset := None;
     res_options := Some o; res_dollar := None |}.

(** Lines 225-229: the charset of the response. *)
Definition responseCharset (headers : gmap string string) (body : RawBody) : option string :=
  match getCharset headers with
  | Some charset => Some charset
  | None => declaredCharset (rawText body)
  end.

(** Lines 232-241. *)
Definition decodeBody (o : CrawlerOptions) (charset : option string)
    (body : RawBody) (c : Crawler) : CrawlerOptions * RawBody * Crawler :=
  match encoding o with
  | EncNull => (o, body, c)
  | enc =>
      let name :=
        match enc with
        | EncName forced => forced
        | _ => default "utf8"%string charset
        end in
      let o := set_encoding (EncName name) o in
      let c := record (IconvDecode name) c in
      match iconv_decode env (rawText body) name with
      | Some text => (o, RawText text, c)
      | None => (o, RawBuffer (rawText body), log LError c)
      end
  end.

(** Lines 221-266, the path without an error. [response.options] is the
    options object itself, so it shows the encoding written at line 233. *)
Definition handleResponse (o : CrawlerOptions) (response : RawResponse)
    (c : Crawler) : Completion (option CrawlerResponse) * Crawler :=
  let body := default (RawText "") (raw_body response) in
  let c := log LDebug c in
  let charset := responseCharset (raw_headers response) body in
  let c := log LDebug c in
  let '(o, body, c) := decodeBody o charset body c in
  let '(parsed, c) :=
    if isTrue (isJson o) then
      match JSON_parse env (rawText body) with
      | Some json => (BParsed json, c)
      | None => (ofRaw body, log LWarn c)
      end
    else (ofRaw body, c) in
  let '(dollar, c) :=
    if isTrue (jQuery o) && negb (isTrue (isJson o)) then
      if match body with RawText "" => true | _ => false end
         || negb (_detectHtmlOnHeaders (raw_headers response))
      then (None, log LWarn c)
      else
        match cheerio_load env (rawText body) with
        | Some doc => (Some doc, c)
        | None => (None, log LWarn c)
        end
    else (None, c) in
  let res :=
    {| res_body := Some parsed; res_headers := raw_headers response;
       res_charset := charset; res_options := Some o; res_dollar := dollar |} in
  match callback o with
  | Some cb => (Normal None, invokeCallback cb None res (release o) c)
  | None => (Normal (Some res), c)
  end.

(** [_handler] (lines 203-267). [exec] is [this._execute]; [None] when the
    fuel of [exec] runs out. The timer of line 207 is recorded and its
    body run in place; what it throws is nobody's to catch.
    [options.retries] is taken as an integer and [options.retries--] as its
    exact predecessor: this is the code on integers up to [2^53]. A
    fraction, [Infinity], [NaN] or a larger number is outside the model
    (there the count need not go down, or reach zero); the statements about
    counting and termination say so by [exactRetries]. *)
Definition _handler
    (exec : CrawlerOptions -> Crawler -> option (Completion (option CrawlerResponse) * Crawler))
    (error : option JsError) (o : CrawlerOptions) (response : option RawResponse)
    (c : Crawler) : option (Completion (option CrawlerResponse) * Crawler) :=
  match error with
  | Some err =>
      if retriesLeft o then
        let c := log LWarn c in
        let c := record (SetTimeout (retryInterval o)) c in
        let o := set_retries (Z.pred <$> retries o) o in
        match exec o c with
        | Some (out, c) => Some (Normal None, unhandled out c)
        | None => None
        end
      else
        let c := log LError c in
        match callback o with
        | Some cb =>
            Some (Normal None,
                  invokeCallback cb (Some err) (errorResponse o) (release o) c)
        | None => Some (Throw err, c)
        end
  | None =>
      match response with
      | Some r => Some (handleResponse o r c)
      | None => Some (Throw (mkError "TypeError" "response is undefined"), c)
      end
  end.

(** ** [Crawler]: [_execute] *)

Abbreviation Outcome := (Completion (option CrawlerResponse)).

(** Lines 156-162. *)
Definition assignUserAgent (o : CrawlerOptions) (c : Crawler) : CrawlerOptions * Crawler :=
  let h := default ∅ (headers o) in
  match userAgents o with
  | Some (UaList uas) =>
      let i := jsRem (_UAIndex c) (length uas) in
      (set_headers (Some (setHeader "user-agent" (jsNth uas i) h)) o,
       set_UAIndex (jsIncr i) c)
  | Some (UaSingle ua) =>
      (set_headers
         (Some (setHeader "user-agent" (orDefault (h !! "user-agent"%string) (Some ua)) h)) o,
       c)
  | None =>
      (set_headers (Some (setHeader "user-agent" (h !! "user-agent"%string) h)) o, c)
  end.

(** Lines 164-168. *)
Definition assignProxy (o : CrawlerOptions) (c : Crawler) : CrawlerOptions * Crawler :=
  match proxies o with
  | Some ps =>
      if truthyString (proxy o) then (o, c)
      else
        let i := jsRem (_proxyIndex c) (length ps) in
        (set_proxy (jsNth ps i) o, set_proxyIndex (jsIncr i) c)
  | None => (o, c)
  end.

(** How many times the transport was called so far. *)
Definition gotCalls (c : Crawler) : nat := length (attempts (history c)).

(** Lines 171-173. *)
Definition announce (o : CrawlerOptions) (c : Crawler) : Crawler :=
  if isTrue (skipEventRequest o) then c else emit "request" c.

(** The closure [request] (lines 170-183). [alignOptions] copies the
    options one level deep, so the headers object it cleans and writes the
    referer into is the descriptor's own. That write is not followed: the
    descriptor goes on to [_handler] with the headers it had before the
    call. Nothing below is stated about the headers of a descriptor after
    the transport was called. *)
Definition request (exec : CrawlerOptions -> Crawler -> option (Outcome * Crawler))
    (o : CrawlerOptions) (c : Crawler) : option (Outcome * Crawler) :=
  let c := announce o c in
  let attempt := gotCalls c in
  let c := record (GotCall o) c in
  match got env attempt o with
  | inl error => _handler exec (Some error) o None (log LDebug c)
  | inr response => _handler exec None o (Some response) c
  end.

(** Lines 148-168 of [_execute]: everything before the hook and the
    request. *)
Definition prepare (o : CrawlerOptions) (c : Crawler) : CrawlerOptions * Crawler :=
  let c :=
    if truthyString (proxy o) then log LDebug c
    else match proxies o with Some _ => log LDebug c | None => c end in
  let o := set_headers (Some (lowerObjectKeys env (default ∅ (headers o)))) o in
  let o :=
    if isTrue (forceUTF8 o) || isTrue (isJson o)
    then set_encoding (EncName "utf8") o else o in
  let '(o, c) := assignUserAgent o c in
  assignProxy o c.

(** [_execute] (lines 147-201). With a hook the function returns right
    after calling it; what the hook's continuation returns or throws goes
    to nobody. *)
Fixpoint _execute (fuel : nat) (o : CrawlerOptions) (c : Crawler)
    : option (Outcome * Crawler) :=
  match fuel with
  | O => None
  | S fuel =>
      let '(o, c) := prepare o c in
      match preRequest o with
      | Some hook =>
          let c := record (PreRequestCall hook) c in
          match preRequestFn env hook o with
          | HookNext o' (Some err) =>
              match _handler (_execute fuel) (Some err) o' None (log LDebug c) with
              | Some (out, c) => Some (Normal None, unhandled out c)
              | None => None
              end
          | HookNext o' None =>
              match request (_execute fuel) o' c with
              | Some (out, c) => Some (Normal None, unhandled out c)
              | None => None
              end
          | HookThrows e => Some (Throw e, log LError c)
          | HookSilent => Some (Normal None, c)
          end
      | None => request (_execute fuel) o c
      end
  end.

(** ** [Crawler]: [_schedule], [add], [send], the constructor *)

(** The task that [_schedule] hands to the limiter (lines 118-144), run
    when the limiter starts it with [(done, limiterId)]. [done] belongs
    to the limiter the task was submitted to. *)
Definition task (fuel : nat) (o : CrawlerOptions) (limiterId : option Z)
    (c : Crawler) : option Crawler :=
  let o := set_release (Some (mkRelease (rateLimiterId o))) o in
  let o := set_callback (orDefault (callback o) (ReleaseCallback <$> release o)) o in
  let c := if truthyNumber limiterId then emit "limiterChange" c else c in
  if truthyString (html o) then
    let o := set_url (orDefault (url o) (Some (UrlString ""))) o in
    let synthetic :=
      {| raw_body := RawText <$> html o;
         raw_headers := {[ "content-type"%string := "text/html"%string ]} |} in
    match _handler (_execute fuel) None o (Some synthetic) c with
    | Some (out, c) => Some (unhandled out c)
    | None => None
    end
  else
    let o := set_url (orDefault (url o) (UrlString <$> uri o)) o in
    match url o with
    | Some (UrlFunction yields) =>
        match yields with
        | Some u =>
            match _execute fuel (set_url (Some (UrlString u)) o) c with
            | Some (out, c) => Some (unhandled out c)
            | None => None
            end
        | None => Some c
        end
    | _ =>
        match _execute fuel (set_uri None o) c with
        | Some (out, c) => Some (unhandled out c)
        | None => None
        end
    end.

(** [_schedule] (lines 114-145): the notification, then the submission. *)
Definition _schedule (o : CrawlerOptions) (c : Crawler) : Crawler :=
  let c := emit "schedule" c in
  call (Submit (rateLimiterId o) (priority o) o) c.

(** Modelled from the spec: [flattenDeep] of [lib/utils.ts] is not among
    the sources; arrays nested to any depth become one flat list. *)
Fixpoint flattenDeep (v : JsValue) : list JsValue :=
  match v with
  | VArray items => List.flat_map flattenDeep items
  | _ => [v]
  end.

(** The value as the object whose properties are read and written next.
    The module is strict: writing a property of a primitive, or reading one
    of [null] or [undefined], throws. An array or a function is an object
    that has none of the option properties. *)
Definition asOptions (v : JsValue) : Completion CrawlerOptions :=
  match v with
  | VObject _ o => Normal o
  | VArray _ | VFunction => Normal emptyOptions
  | _ => Throw (mkError "TypeError" "not an object")
  end.

(** [{ ...base, ...own }] on header maps. *)
Definition spreadHeaders (base own : option (gmap string string)) : gmap string string :=
  default ∅ own ∪ default ∅ base.

(** Lines 307-308: the defaults of the crawler, then the merged headers. *)
Definition descriptor (o : CrawlerOptions) (c : Crawler) : CrawlerOptions :=
  let o := setDefaults o (options c) in
  set_headers (Some (spreadHeaders (headers (options c)) (headers o))) o.

(** The body of the [forEach] of [add] (lines 300-322). [seen.exists] is
    taken to return a promise, which is settled in place: the real one
    settles after the [forEach] is through, so with duplicate detection the
    order of the submissions of a batch among each other is not followed,
    and a [seen.exists] that throws instead of returning a promise is not
    covered. *)
Definition addOne (input : JsValue) (c : Crawler) : Completion unit * Crawler :=
  match getValidOptions input with
  | Throw err => (Normal tt, log LWarn c)
  | Normal valid =>
      match asOptions valid with
      | Throw e => (Throw e, c)
      | Normal o =>
          let o := descriptor o c in
          if negb (isTrue (skipDuplicates (options c))) then (Normal tt, _schedule o c)
          else
            match seen_exists env o with
            | inr rst => if negb rst then (Normal tt, _schedule o c) else (Normal tt, c)
            | inl error => (Normal tt, log LError c)
            end
      end
  end.

Fixpoint forEach (inputs : list JsValue) (c : Crawler) : Completion unit * Crawler :=
  match inputs with
  | [] => (Normal tt, c)
  | input :: rest =>
      match addOne input c with
      | (Normal _, c) => forEach rest c
      | (Throw e, c) => (Throw e, c)
      end
  end.

(** [add] (lines 297-323) and [queue]. *)
Definition add (input : JsValue) (c : Crawler) : Completion unit * Crawler :=
  let optionsArray := match input with VArray items => items | _ => [input] end in
  forEach (List.flat_map flattenDeep optionsArray) c.

Definition queue := add.

(** The descriptor that [send] builds (lines 285-289). *)
Definition sendOptions (input : JsValue) (c : Crawler) : Completion CrawlerOptions :=
  match getValidOptions input with
  | Throw e => Throw e
  | Normal valid =>
      match asOptions valid with
      | Throw e => Throw e
      | Normal o =>
          let o := set_retries (orDefault (retries o) (Some 0)) o in
          let o := setDefaults o (options c) in
          let o := set_skipEventRequest (Some (default true (skipEventRequest o))) o in
          Normal (set_preRequest None o)
      end
  end.

(** [send] (lines 284-291) and [direct]; a [Throw] is the rejection of
    the promise. *)
Definition send (fuel : nat) (input : JsValue) (c : Crawler) : option (Outcome * Crawler) :=
  match sendOptions input c with
  | Throw e => Some (Throw e, c)
  | Normal o => _execute fuel o c
  end.

Definition direct := send.

Definition defaultOptions : CrawlerOptions :=
  {| maxConnections := Some 10; rateLimit := Some 0; priorityLevels := Some 10;
     skipDuplicates := Some false; homogeneous := Some false;
     userAgents := Some (UaSingle "Mozilla/5.0 (Windows NT 10.0; Win64; x64) AppleWebKit/537.36 (KHTML, like Gecko) Chrome/135.0.0.0 Safari/537.36");
     silence := Some false; method := Some "GET"%string; forceUTF8 := Some false;
     jQuery := Some true; priority := Some 5; retries := Some 2;
     retryInterval := Some 3000; timeout := Some 20000; isJson := Some false;
     rejectUnauthorized := Some false; url := None; uri := None; html := None;
     headers := None; encoding := EncUndefined; proxy := None; proxies := None;
     preRequest := None; callback := None; release := None;
     skipEventRequest := None; rateLimiterId := None |}.

(** The constructor (lines 57-106). [silence] only sets the level from
    which the logger shows its calls. *)
Definition constructor (userOptions : option CrawlerOptions) : Crawler :=
  let opts := spread defaultOptions (default emptyOptions userOptions) in
  let opts :=
    if match rateLimit opts with Some r => 0 <? r | None => false end
    then set_maxConnections (Some 1) opts else opts in
  {| options := opts;
     _UAIndex := Num 0;
     _proxyIndex := Num 0;
     _limiters :=
       {| clusterOptions :=
            {| cl_maxConnections := maxConnections opts;
               cl_rateLimit := rateLimit opts;
               cl_priorityLevels := priorityLevels opts;
               cl_defaultPriority := priority opts;
               cl_homogeneous := homogeneous opts |};
          calls := [] |};
     history :=
       match seen_initialize env with
       | None => [Log LDebug]
       | Some _ => [Log LError]
       end |}.

(** ** Observations used by the statements *)

(** The [user-agent] header of a descriptor. *)
Definition userAgentHeader (o : CrawlerOptions) : option string :=
  default ∅ (headers o) !! "user-agent"%string.

(** The crawler after the descriptors [os] went through lines 148-168 one
    after the other. *)
Fixpoint dispatchAll (os : list CrawlerOptions) (c : Crawler) : Crawler :=
  match os with
  | [] => c
  | o :: os => dispatchAll os (snd (prepare o c))
  end.

Definition doneCount (c : Crawler) : nat :=
  length (List.filter isDone (calls (_limiters c))).

Definition submitCount (c : Crawler) : nat :=
  length (List.filter isSubmit (calls (_limiters c))).

(** Spec 4.5, in the spec's words: "caller-forced encoding, else a
    content-type header declaration, else a body-embedded charset
    declaration, else a default of UTF-8". *)
Definition charsetByPriority (forced headerDeclared bodyDeclared : option string) : string :=
  match forced with
  | Some charset => charset
  | None =>
      match headerDeclared with
      | Some charset => charset
      | None =>
          match bodyDeclared with
          | Some charset => charset
          | None => "utf8"
          end
      end
  end.

Definition forcedEncoding (o : CrawlerOptions) : option string :=
  match encoding o with
  | EncName charset => Some charset
  | _ => None
  end.

(** The inputs that [getValidOptions] lets through, read off its code: a
    string that [isValidUrl] accepts, a string that [JSON.parse] accepts
    (whatever it parses to), an object whose prototype is
    [Object.prototype] or [null]. *)
Definition passesValidation (v : JsValue) : bool :=
  match v with
  | VString s => isValidUrl env s || bool_decide (is_Some (JSON_parse env s))
  | VObject ObjectPrototype _ | VObject NullPrototype _ => true
  | _ => false
  end.

(** Spec 4.3, in the spec's words: "a plain URL, a serialized structured
    form, or a structured object". A serialized structured form is a string
    that parses to a structured object. *)
Definition specShape (v : JsValue) : bool :=
  match v with
  | VString s =>
      isValidUrl env s
      || match JSON_parse env s with
         | Some (VObject ObjectPrototype _) | Some (VObject NullPrototype _) => true
         | _ => false
         end
  | VObject ObjectPrototype _ | VObject NullPrototype _ => true
  | _ => false
  end.

(** A descriptor that holds no release capability of a slot. *)
Definition capabilityFree (o : CrawlerOptions) : Prop :=
  release o = None /\ forall r, callback o <> Some (ReleaseCallback r).

(** What invoking the callback [cb] with the capability [rel] asks of the
    cluster. *)
Definition releasesOf (cb : Callback) (rel : option Release) : list ClusterCall :=
  match cb with
  | ReleaseCallback (mkRelease limiter) => [Done limiter]
  | UserCallback doneCalls =>
      match rel with
      | Some (mkRelease limiter) => repeat (Done limiter) doneCalls
      | None => []
      end
  end.

(** An observation is quiet when it sees neither the logger nor what a
    release emits nor an unhandled rejection. *)
Definition quiet {A} (f : Event -> list A) : Prop :=
  (forall level, f (Log level) = []) /\
  f (Emit "_release") = [] /\
  f (Emit "drain") = [] /\
  (forall e, f (Unhandled e) = []).

(** The properties of a descriptor that steer its life. *)
Definition sameControl (o o' : CrawlerOptions) : Prop :=
  preRequest o' = preRequest o /\ callback o' = callback o /\
  release o' = release o /\ skipEventRequest o' = skipEventRequest o /\
  retries o' = retries o /\ retryInterval o' = retryInterval o /\
  url o' = url o.

(** A step that leaves the history and the cluster as they are. *)
Definition sameRecord (c c' : Crawler) : Prop :=
  history c' = history c /\ _limiters c' = _limiters c /\ options c' = options c.

(** The crawler right after a failed call of the transport in [request]. *)
Definition afterFailure (o1 : CrawlerOptions) (c1 : Crawler) : Crawler :=
  log LDebug (record (GotCall o1) (announce o1 c1)).

(** *** The life of a dispatched descriptor, as a relation

    The three places a descriptor can be at: entering [_execute], entering
    [request], and in the error branch of [_handler]. [Runs] relates the
    descriptor and the crawler at such a place to the outcome and the
    crawler once the descriptor has come to rest; it has one rule for each
    path of the three functions. *)
Inductive Phase :=
  | AtExecute
  | AtRequest
  | AtFailure (error : JsError).

Inductive Runs : Phase -> CrawlerOptions -> Crawler -> Outcome -> Crawler -> Prop :=
  | Runs_plain o c o1 c1 out c' :
      prepare o c = (o1, c1) ->
      preRequest o1 = None ->
      Runs AtRequest o1 c1 out c' ->
      Runs AtExecute o c out c'
  | Runs_hook_next o c o1 c1 hook o' out c' :
      prepare o c = (o1, c1) ->
      preRequest o1 = Some hook ->
      preRequestFn env hook o1 = HookNext o' None ->
      Runs AtRequest o' (record (PreRequestCall hook) c1) out c' ->
      Runs AtExecute o c (Normal None) (unhandled out c')
  | Runs_hook_error o c o1 c1 hook o' err out c' :
      prepare o c = (o1, c1) ->
      preRequest o1 = Some hook ->
      preRequestFn env hook o1 = HookNext o' (Some err) ->
      Runs (AtFailure err) o' (log LDebug (record (PreRequestCall hook) c1)) out c' ->
      Runs AtExecute o c (Normal None) (unhandled out c')
  | Runs_hook_throws o c o1 c1 hook e :
      prepare o c = (o1, c1) ->
      preRequest o1 = Some hook ->
      preRequestFn env hook o1 = HookThrows e ->
      Runs AtExecute o c (Throw e) (log LError (record (PreRequestCall hook) c1))
  | Runs_hook_silent o c o1 c1 hook :
      prepare o c = (o1, c1) ->
      preRequest o1 = Some hook ->
      preRequestFn env hook o1 = HookSilent ->
      Runs AtExecute o c (Normal None) (record (PreRequestCall hook) c1)
  | Runs_response o c response :
      got env (gotCalls (announce o c)) o = inr response ->
      Runs AtRequest o c
        (fst (handleResponse o response (record (GotCall o) (announce o c))))
        (snd (handleResponse o response (record (GotCall o) (announce o c))))
  | Runs_error o c error out c' :
      got env (gotCalls (announce o c)) o = inl error ->
      Runs (AtFailure error) o (log LDebug (record (GotCall o) (announce o c))) out c' ->
      Runs AtRequest o c out c'
  | Runs_retry error o c out c' :
      retriesLeft o = true ->
      Runs AtExecute (set_retries (Z.pred <$> retries o) o)
        (record (SetTimeout (retryInterval o)) (log LWarn c)) out c' ->
      Runs (AtFailure error) o c (Normal None) (unhandled out c')
  | Runs_callback error o c cb :
      retriesLeft o = false ->
      callback o = Some cb ->
      Runs (AtFailure error) o c (Normal None)
        (invokeCallback cb (Some error) (errorResponse o) (release o) (log LError c))
  | Runs_throw error o c :
      retriesLeft o = false ->
      callback o = None ->
      Runs (AtFailure error) o c (Throw error) (log LError c).

End WithEnv.

(** * Concrete collaborators and inputs *)

Module Example.

Definition refused : JsError := mkError "RequestError" "connect ECONNREFUSED".
Definition hookFailure : JsError := mkError "Error" "pre-request check failed".
Definition storeDown : JsError := mkError "Error" "dedup store unreachable".

(** A page without a content-type header whose markup declares its
    charset. *)
Definition page : RawResponse :=
  {| raw_body := Some (RawBuffer "<html><head><meta charset=ISO-8859-1></head></html>");
     raw_headers := ∅ |}.

Definition collaborators
    (transport : nat -> CrawlerOptions -> JsError + RawResponse)
    (hook : nat -> CrawlerOptions -> HookOutcome)
    (exists_ : CrawlerOptions -> JsError + bool) : Env :=
  {| isValidUrl :=
       fun s => match Regex.stripPrefixCI "http://" s with Some _ => true | None => false end;
     JSON_parse :=
       fun s => if String.eqb s "{}" then Some (VObject ObjectPrototype emptyOptions)
                else None;
     JSON_stringify := fun _ => "[input]"%string;
     lowerObjectKeys := fun h => h;
     got := transport;
     preRequestFn := hook;
     iconv_decode := fun bytes _ => Some bytes;
     cheerio_load := fun markup => Some (mkDocument markup);
     seen_initialize := None;
     seen_exists := exists_;
     cluster_empty :=
       fun cluster =>
         (length (List.filter isSubmit (calls cluster))
          =? length (List.filter isDone (calls cluster)))%nat |}.

(** Everything answers. *)
Definition online : Env :=
  collaborators (fun _ _ => inr page) (fun _ o => HookNext o None) (fun _ => inr false).

(** The transport fails every time. *)
Definition offline : Env :=
  collaborators (fun _ _ => inl refused) (fun _ o => HookNext o None) (fun _ => inr false).

(** The pre-request hook calls back with an error every time. *)
Definition hookFails : Env :=
  collaborators (fun _ _ => inr page) (fun _ o => HookNext o (Some hookFailure))
    (fun _ => inr false).

(** The existence check of the dedup collaborator rejects. *)
Definition dedupDown : Env :=
  collaborators (fun _ _ => inr page) (fun _ o => HookNext o None) (fun _ => inl storeDown).

Definition target : CrawlerOptions :=
  set_url (Some (UrlString "http://example.com/")) emptyOptions.

(** The limiter starts the first task submitted to it, from its own
    queue: it hands the task no limiter id. *)
Definition dispatchFirst (env : Env) (fuel : nat) (c : Crawler) : option Crawler :=
  match calls (_limiters c) with
  | Submit _ _ d :: _ => task env fuel d None c
  | _ => None
  end.

(** [new Crawler().add({ url, callback })] with a callback that never
    calls [done], on a transport that always fails. *)
Definition forgetful : option Crawler :=
  dispatchFirst offline 3
    (snd (add offline
            (VObject ObjectPrototype (set_callback (Some (UserCallback 0)) target))
            (constructor offline None))).

(** [new Crawler().add({ url, preRequest })] with a hook that always
    fails; the retries are the default 2. *)
Definition hooked : option Crawler :=
  dispatchFirst hookFails 3
    (snd (add hookFails
            (VObject ObjectPrototype (set_preRequest (Some 0%nat) target))
            (constructor hookFails None))).

(** [new Crawler({ skipDuplicates: true }).add(url)] while the dedup
    store is down. *)
Definition unchecked : Crawler :=
  snd (add dedupDown (VString "http://example.com/")
         (constructor dedupDown (Some (set_skipDuplicates (Some true) emptyOptions)))).

Definition rotating : CrawlerOptions :=
  set_userAgents (Some (UaList ["agent-a"; "agent-b"; "agent-c"]%string))
    (set_proxies (Some ["http://proxy-1"; "http://proxy-2"]%string) target).

Definition inline : CrawlerOptions :=
  set_html (Some "<p>charset=iso-8859-1</p>"%string) emptyOptions.

End Example.

(** * Further observations *)

(** How many retries the descriptor has left: [retries] when it is a
    positive number, else none. *)
Definition retryBudget (o : CrawlerOptions) : nat := Z.to_nat (default 0 (retries o)).

(** [options.retries] is a JavaScript number. The model has the integers
    among them, and [options.retries--] is the exact predecessor on the
    integers up to [2^53]; above that the decrement of a double changes
    nothing. A descriptor is within the model when its [retries] is absent
    or such an integer. *)
Definition exactRetries (o : CrawlerOptions) : Prop :=
  forall n, retries o = Some n -> n <= 2 ^ 53.

(** The retries left at the attempts [0], ..., [k] of a descriptor that
    started with [retries]. *)
Definition countdown (retries : option Z) (first count : nat) : list (option Z) :=
  map (fun i => (fun n => n - Z.of_nat i) <$> retries) (seq first count).

(** The proxy and the user agent at each call of the transport. *)
Definition seesProxy (e : Event) : list (option string) :=
  match e with GotCall o => [proxy o] | _ => [] end.


Definition proxiesUsed (l : list Event) : list (option string) := List.flat_map seesProxy l.

(** What [add] asks of the cluster for one entry of its input, on the
    crawler [c]: the submission of the descriptor when the entry is a valid
    option object, nothing when it is rejected. *)
Definition submitted (env : Env) (c : Crawler) (v : JsValue) : list ClusterCall :=
  match getValidOptions env v with
  | Normal (VObject _ o) =>
      [Submit (rateLimiterId (descriptor o c)) (priority (descriptor o c)) (descriptor o c)]
  | _ => []
  end.

(** The entries of the input of [add] that validation lets through as
    option objects or rejects; what is left are strings that parse to
    something that is no object. *)
Definition objectOrRejected (env : Env) (v : JsValue) : bool :=
  match getValidOptions env v with
  | Normal (VObject _ _) => true
  | Normal _ => false
  | Throw _ => true
  end.

Definition isRejected (env : Env) (v : JsValue) : bool :=
  match getValidOptions env v with
  | Normal _ => false
  | Throw _ => true
  end.

(** The response that [handleResponse] builds from a body that the
    decoder turned into [text]. *)
Definition decodedResponse (env : Env) (o : CrawlerOptions) (r : RawResponse) (name text : string)
    : CrawlerResponse :=
  {| res_body :=
       Some (if isTrue (isJson o)
             then match JSON_parse env text with
                  | Some json => BParsed json
                  | None => BString text
                  end
             else BString text);
     res_headers := raw_headers r;
     res_charset := responseCharset (raw_headers r) (default (RawText "") (raw_body r));
     res_options := Some (set_encoding (EncName name) o);
     res_dollar :=
       if isTrue (jQuery o) && negb (isTrue (isJson o))
       then if match text with EmptyString => true | _ => false end
               || negb (_detectHtmlOnHeaders (raw_headers r))
            then None
            else cheerio_load env text
       else None |}.

(** What [handleResponse] hands to the callback. *)
Definition delivered (env : Env) (o : CrawlerOptions) (r : RawResponse) (res : CrawlerResponse) : Prop :=
  res_headers res = raw_headers r /\
  res_charset res = responseCharset (raw_headers r) (default (RawText "") (raw_body r)) /\
  (forall doc,
      res_dollar res = Some doc ->
      isTrue (jQuery o) = true /\ isTrue (isJson o) = false /\
      _detectHtmlOnHeaders (raw_headers r) = true /\
      exists text, cheerio_load env text = Some doc) /\
  match res_body res with
  | Some (BParsed json) => isTrue (isJson o) = true
  | Some (BBuffer bytes) => bytes = rawText (default (RawText "") (raw_body r))
  | Some (BString text) => True
  | None => False
  end.




(** [a-z0-9_.-] *)
Definition isLowerCharsetChar (a : ascii) : bool :=
  Regex.isCharsetChar a && Ascii.eqb (Regex.toLowerCase a) a.

(** * [options.ts]: the option object as got receives it

    [renameOptionParams] (lines 80-99) and [alignOptions] (lines 101-167)
    work on the option object key by key, so here the object is a map from
    property names to values. *)

(** A property value. An [JInstance] is an object built by a constructor of
    a collaborator (an agent, a URL); its own properties are not followed. *)
Inductive Value :=
  | JUndefined
  | JNull
  | JBool (b : bool)
  | JNum (n : Z)
  | JStr (s : string)
  | JInstance (class : string) (arg : Value)
  | JObject (fields : gmap string Value).

(** [o[key]]; an absent property reads as [undefined]. *)
Definition get (o : gmap string Value) (key : string) : Value :=
  default JUndefined (o !! key).

(** [a ?? b] *)
Definition nullish (a b : Value) : Value :=
  match a with
  | JUndefined | JNull => b
  | _ => a
  end.

Definition truthy (v : Value) : bool :=
  match v with
  | JUndefined | JNull => false
  | JBool b => b
  | JNum n => negb (n =? 0)
  | JStr s => negb (String.eqb s "")
  | JInstance _ _ | JObject _ => true
  end.

(** Lines 7-15. *)
Definition globalOnlyOptions : list string :=
  ["maxConnections"; "rateLimit"; "priorityLevels"; "skipDuplicates"; "homogeneous";
   "userAgents"; "silence"]%string.

(** Lines 16-31. *)
Definition crawlerOnlyOptions : list string :=
  (["rateLimiterId"; "forceUTF8"; "jQuery"; "retryInterval"; "priority"; "proxy";
    "retries"; "preRequest"; "callback"; "release"; "isJson"; "referer";
    "rejectUnauthorized"; "userParams"]%string ++ globalOnlyOptions)%list.

(** Lines 32-49. *)
Definition deprecatedOptions : list string :=
  ["uri"; "qs"; "strictSSL"; "incomingEncoding"; "gzip"; "jar"; "jsonReviver";
   "jsonReplacer"; "skipEventRequest"; "logger"; "debug"; "time"; "limiter"; "gene";
   "jquery"; "userAgent"]%string.

(** [renameOptionParams] (lines 80-99). Every new name is written, with
    [undefined] when neither name was given; the old names stay. *)
Definition renameOptionParams (options : option (gmap string Value))
    : option (gmap string Value) :=
  match options with
  | None => None
  | Some options =>
      Some
        (<["url" := nullish (get options "uri") (get options "url")]>
        (<["searchParams" := nullish (get options "qs") (get options "searchParams")]>
        (<["rejectUnauthorized" :=
             nullish (get options "strictSSL") (get options "rejectUnauthorized")]>
        (<["encoding" := nullish (get options "incomingEncoding") (get options "encoding")]>
        (<["decompress" := nullish (get options "gzip") (get options "decompress")]>
        (<["cookieJar" := nullish (get options "jar") (get options "cookieJar")]>
        (<["parseJson" := nullish (get options "jsonReviver") (get options "parseJson")]>
        (<["stringifyJson" :=
             nullish (get options "jsonReplacer") (get options "stringifyJson")]>
        (<["rateLimit" := nullish (get options "limiter") (get options "rateLimit")]>
        (<["userParams" := nullish (get options "gene") (get options "userParams")]>
        (<["jQuery" :=
             nullish (get options "jquery")
               (nullish (get options "JQuery") (get options "jQuery"))]>
           options)))))))))))
  end.

(** The names that [renameOptionParams] writes. *)
Definition renamedNames : list string :=
  ["url"; "searchParams"; "rejectUnauthorized"; "encoding"; "decompress"; "cookieJar";
   "parseJson"; "stringifyJson"; "rateLimit"; "userParams"; "jQuery"]%string.

(** The names that it reads first. *)
Definition oldNames : list string :=
  ["uri"; "qs"; "strictSSL"; "incomingEncoding"; "gzip"; "jar"; "jsonReviver";
   "jsonReplacer"; "limiter"; "gene"; "jquery"; "JQuery"]%string.

(** The deprecated names with the names that replace them. *)
Definition renames : list (string * string) :=
  [("uri", "url"); ("qs", "searchParams"); ("strictSSL", "rejectUnauthorized");
   ("incomingEncoding", "encoding"); ("gzip", "decompress"); ("jar", "cookieJar");
   ("jsonReviver", "parseJson"); ("jsonReplacer", "stringifyJson");
   ("limiter", "rateLimit"); ("gene", "userParams"); ("jquery", "jQuery")]%string.

(** [v == undefined] *)
Definition isNullish (v : Value) : bool :=
  match v with
  | JUndefined | JNull => true
  | _ => false
  end.

(** What [alignOptions] calls that is not in the sources: [cleanObject] of
    [lib/utils.ts] and the constructors of the proxy agents, which may
    throw. [cleanObject] works in place: [cleanObject] gives the object it
    was called on as the call leaves it, and [cleanedInPlace] an object that
    was held in one of its properties, which the caller can still reach
    through a reference taken before the call. *)
Record Helpers := {
  cleanObject : gmap string Value -> gmap string Value;
  cleanedInPlace : gmap string Value -> gmap string Value;
  HttpsProxyAgent : Value -> Completion Value;
  HttpProxyAgent : Value -> Completion Value;
  Http2OverHttps : Value -> Completion Value;
  Http2OverHttp : Value -> Completion Value;
}.

Definition andThen {A B} (c : Completion A) (k : A -> Completion B) : Completion B :=
  match c with
  | Normal a => k a
  | Throw e => Throw e
  end.

Definition typeError (message : string) : JsError := mkError "TypeError" message.

(** [target[key] = value] on a property value. The module is strict: the
    write throws on [null], [undefined] and on a primitive. *)
Definition setProperty (target : Value) (key : string) (value : Value) : Completion Value :=
  match target with
  | JObject fields => Normal (JObject (<[key := value]> fields))
  | JInstance class arg => Normal (JInstance class arg)
  | JUndefined | JNull => Throw (typeError "Cannot set properties of undefined")
  | _ => Throw (typeError "Cannot create property")
  end.

(** [target[key]] on a property value; throws on [null] and [undefined]. *)
Definition getProperty (target : Value) (key : string) : Completion Value :=
  match target with
  | JObject fields => Normal (get fields key)
  | JUndefined | JNull => Throw (typeError "Cannot read properties of undefined")
  | _ => Normal JUndefined
  end.

Module Origin.

Fixpoint stripPrefix (p s : string) : option string :=
  match p, s with
  | EmptyString, _ => Some s
  | String _ _, EmptyString => None
  | String a p', String b s' => if Ascii.eqb a b then stripPrefix p' s' else None
  end.

(** [\w+] at the head of [s] and what follows it. *)
Fixpoint word (s : string) : string * string :=
  match s with
  | EmptyString => (EmptyString, EmptyString)
  | String a s' =>
      if Regex.isWord a then let '(w, rest) := word s' in (String a w, rest)
      else (EmptyString, s)
  end.

(** [[^/]+] at the head of [s]. *)
Fixpoint untilSlash (s : string) : string :=
  match s with
  | EmptyString => EmptyString
  | String a s' =>
      if (Regex.code a =? 47)%nat then EmptyString else String a (untilSlash s')
  end.

(** [url.match(/^(\w+):\/\/([^/]+)/)]: the whole match, [domain[0]]. Both
    runs are greedy and what follows each cannot be matched by a shorter
    run, so there is nothing to backtrack into. *)
Definition matchOrigin (url : string) : option string :=
  match word url with
  | (EmptyString, _) => None
  | (scheme, rest) =>
      match stripPrefix "://" rest with
      | None => None
      | Some rest =>
          match untilSlash rest with
          | EmptyString => None
          | host => Some (scheme +:+ "://" +:+ host)
          end
      end
  end.

End Origin.

Section WithHelpers.

Variable helpers : Helpers.

(** Lines 107-115. *)
Definition alignHttps (options gotOptions : gmap string Value)
    : Completion (gmap string Value) :=
  match get options "rejectUnauthorized" with
  | JUndefined => Normal gotOptions
  | sslConfig =>
      match get gotOptions "https" with
      | JUndefined =>
          Normal (<["https" := JObject {[ "rejectUnauthorized"%string := sslConfig ]}]>
                    gotOptions)
      | https =>
          andThen (setProperty https "rejectUnauthorized" sslConfig)
            (fun https => Normal (<["https" := https]> gotOptions))
      end
  end.

(** Lines 117-120. *)
Definition defaultagent (options : gmap string Value) : Completion Value :=
  if truthy (get options "proxy") then
    andThen (HttpsProxyAgent helpers (get options "proxy")) (fun https =>
    andThen (HttpProxyAgent helpers (get options "proxy")) (fun http =>
    Normal (JObject (<["https" := https]> {[ "http"%string := http ]}))))
  else Normal JUndefined.

(** Lines 122-137. *)
Definition alignAgent (options gotOptions : gmap string Value) (agent : Value)
    : Completion (gmap string Value) :=
  if match get options "http2" with JBool true => true | _ => false end
     && truthy (get options "proxy")
  then
    match get options "proxy" with
    | JStr proxy =>
        andThen
          (match Origin.stripPrefix "https" proxy with
           | Some _ => Http2OverHttps helpers (JStr proxy)
           | None => Http2OverHttp helpers (JStr proxy)
           end)
          (fun http2Agent =>
             Normal (<["agent" := JObject {[ "http2"%string := http2Agent ]}]> gotOptions))
    | _ => Throw (typeError "options.proxy.startsWith is not a function")
    end
  else
    Normal (<["agent" :=
                nullish (get gotOptions "agent")
                  (if truthy (get options "proxy") then agent else JUndefined)]>
              gotOptions).

(** Lines 144-149. *)
Definition deleteInvalid (gotOptions : gmap string Value) : gmap string Value :=
  foldr delete gotOptions (crawlerOnlyOptions ++ deprecatedOptions).

(** Lines 155-163: the headers with the referer filled in. *)
Definition alignReferer (options gotOptions : gmap string Value) (headers : Value)
    : Completion Value :=
  andThen (getProperty headers "referer") (fun referer =>
    if truthy referer then Normal headers
    else if truthy (get options "referer")
    then setProperty headers "referer" (get options "referer")
    else
      match get gotOptions "url" with
      | JStr url =>
          match Origin.matchOrigin url with
          | Some domain => setProperty headers "referer" (JStr domain)
          | None => Normal headers
          end
      | _ => Throw (typeError "gotOptions.url.match is not a function")
      end).

(** Lines 151-153: [headers] is a reference to the headers object, read
    after [cleanObject] went over [gotOptions]. *)
Definition savedHeaders (headers : Value) : Value :=
  match headers with
  | JObject fields => JObject (cleanedInPlace helpers fields)
  | _ => headers
  end.

(** [alignOptions] (lines 101-167). *)
Definition alignOptions (options : gmap string Value) : Completion (gmap string Value) :=
  let gotOptions :=
    <["timeout" := JObject {[ "request"%string := get options "timeout" ]}]> options in
  andThen (alignHttps options gotOptions) (fun gotOptions =>
  andThen (defaultagent options) (fun agent =>
  andThen (alignAgent options gotOptions agent) (fun gotOptions =>
  let gotOptions := <["responseType" := JStr "buffer"]> gotOptions in
  let gotOptions := deleteInvalid gotOptions in
  let headers := savedHeaders (get gotOptions "headers") in
  let gotOptions := cleanObject helpers gotOptions in
  let gotOptions := <["headers" := headers]> gotOptions in
  andThen (alignReferer options gotOptions headers) (fun headers =>
  let gotOptions := <["headers" := headers]> gotOptions in
  Normal (<["retry" := JObject {[ "limit"%string := JNum 0 ]}]> gotOptions))))).

End WithHelpers.

(** [gotOptions] as [cleanObject] receives it (line 152). *)
Definition beforeClean (aligned : gmap string Value) : gmap string Value :=
  deleteInvalid (<["responseType" := JStr "buffer"]> aligned).

(** [clean] takes properties away and adds none. *)
Definition onlyRemoves (clean : gmap string Value -> gmap string Value) : Prop :=
  forall o key, o !! key = None -> clean o !! key = None.

(** [clean] leaves a [url] that is a string. *)
Definition keepsUrl (clean : gmap string Value -> gmap string Value) : Prop :=
  forall o url, o !! "url"%string = Some (JStr url) -> clean o !! "url"%string = Some (JStr url).

(** * Further concrete collaborators and inputs *)

Module Sample.

Import Example.

(** A [cleanObject] that drops the properties that are [undefined] or
    [null]. *)
Definition dropUndefined (o : gmap string Value) : gmap string Value :=
  filter (fun kv => isNullish kv.2 = false) o.

Definition plain : Helpers :=
  {| cleanObject := dropUndefined;
     cleanedInPlace := dropUndefined;
     HttpsProxyAgent := fun arg => Normal (JInstance "HttpsProxyAgent" arg);
     HttpProxyAgent := fun arg => Normal (JInstance "HttpProxyAgent" arg);
     Http2OverHttps := fun arg => Normal (JInstance "Http2OverHttps" arg);
     Http2OverHttp := fun arg => Normal (JInstance "Http2OverHttp" arg) |}.

(** [{ url, headers: {}, retries: 2, timeout: 20000, jQuery: true }] *)
Definition request : gmap string Value :=
  {[ "url"%string := JStr "http://example.com/a/b";
     "headers"%string := JObject ∅;
     "retries"%string := JNum 2;
     "timeout"%string := JNum 20000;
     "jQuery"%string := JBool true ]}.

(** [{ uri, retries: 1 }], with the deprecated name of [url]. *)
Definition deprecated : gmap string Value :=
  {[ "uri"%string := JStr "http://example.com/"; "retries"%string := JNum 1 ]}.

(** [{ forceUTF8: true, encoding: null, url }] *)
Definition forced : CrawlerOptions :=
  {| maxConnections := None; rateLimit := None; priorityLevels := None;
     skipDuplicates := None; homogeneous := None; userAgents := None;
     silence := None; method := None; forceUTF8 := Some true; jQuery := None;
     priority := None; retries := None; retryInterval := None;
     timeout := None; isJson := None; rejectUnauthorized := None;
     url := Some (UrlString "http://example.com/"); uri := None; html := None;
     headers := None; encoding := EncNull; proxy := None; proxies := None;
     preRequest := None; callback := None; release := None;
     skipEventRequest := None; rateLimiterId := None |}.

(** As [online], with a [JSON.parse] that also knows the text [42]. *)
Definition parsing : Env :=
  {| isValidUrl := isValidUrl online;
     JSON_parse :=
       fun s => if String.eqb s "42" then Some (VNumber 42) else JSON_parse online s;
     JSON_stringify := JSON_stringify online;
     lowerObjectKeys := lowerObjectKeys online;
     got := got online;
     preRequestFn := preRequestFn online;
     iconv_decode := iconv_decode online;
     cheerio_load := cheerio_load online;
     seen_initialize := seen_initialize online;
     seen_exists := seen_exists online;
     cluster_empty := cluster_empty online |}.


(** [{ forceUTF8: true, url }] *)
Definition forcedUTF8 : CrawlerOptions :=
  {| maxConnections := None; rateLimit := None; priorityLevels := None;
     skipDuplicates := None; homogeneous := None; userAgents := None;
     silence := None; method := None; forceUTF8 := Some true; jQuery := None;
     priority := None; retries := None; retryInterval := None;
     timeout := None; isJson := None; rejectUnauthorized := None;
     url := Some (UrlString "http://example.com/"); uri := None; html := None;
     headers := None; encoding := EncUndefined; proxy := None; proxies := None;
     preRequest := None; callback := None; release := None;
     skipEventRequest := None; rateLimiterId := None |}.

(** The pre-request hook never calls [done]. *)
Definition hookSilent : Env :=
  collaborators (fun _ _ => inr page) (fun _ _ => HookSilent) (fun _ => inr false).

(** [[42, { url }, ["http://example.com/"]]] *)
Definition batch : JsValue :=
  VArray [VNumber 42; VObject ObjectPrototype target;
          VArray [VString "http://example.com/"]].

End Sample.

(** * Properties *)

Section Properties.

Variable env : Env.

Lemma lookup_setHeader key value (h : gmap string string) :
  setHeader key value h !! key = value.
Proof.
  destruct value; simpl; [apply lookup_insert_eq | apply lookup_delete_eq].
Qed.

(** *** The constructor *)

(** C6. A rate limit above zero forces the concurrency maximum of the
    crawler to 1, whatever [maxConnections] the caller configured, and 1 is
    the maximum the Cluster is constructed with. *)
Theorem constructor_rateLimit_forces_maxConnections_1 :
  forall (userOptions : CrawlerOptions) (r : Z),
    rateLimit userOptions = Some r ->
    0 < r ->
    rateLimit (options (constructor env (Some userOptions))) = Some r /\
    maxConnections (options (constructor env (Some userOptions))) = Some 1 /\
    cl_maxConnections (clusterOptions (_limiters (constructor env (Some userOptions)))) = Some 1 /\
    cl_rateLimit (clusterOptions (_limiters (constructor env (Some userOptions)))) = Some r.
Proof.
  intros userOptions r Hr Hpos.
  assert (Hlt : (0 <? r) = true) by (apply Z.ltb_lt; exact Hpos).
  unfold constructor, spread, setDefaults; cbn.
  rewrite Hr; cbn. rewrite Hlt; cbn.
  repeat split; reflexivity.
Qed.

(** *** Observations and the steps that do not show in them *)

Lemma quiet_seesGot : quiet seesGot.
Proof. repeat split. Qed.

Lemma quiet_seesHook : quiet seesHook.
Proof. repeat split. Qed.

Lemma quiet_seesTimer : quiet seesTimer.
Proof. repeat split. Qed.

Lemma quiet_seesCallback : quiet seesCallback.
Proof. repeat split. Qed.

Lemma quiet_seesDecode : quiet seesDecode.
Proof. repeat split. Qed.

Lemma quiet_seesRequest : quiet (seesEmit "request").
Proof. repeat split. Qed.

Lemma quiet_seesSchedule : quiet (seesEmit "schedule").
Proof. repeat split. Qed.

Lemma observe_record {A} (f : Event -> list A) e c :
  List.flat_map f (history (record e c)) = List.flat_map f (history c) ++ f e.
Proof. simpl. rewrite flat_map_app. simpl. rewrite app_nil_r. reflexivity. Qed.

Lemma observe_log {A} (f : Event -> list A) level c :
  quiet f -> List.flat_map f (history (log level c)) = List.flat_map f (history c).
Proof.
  intros (Hlog & _). unfold log. rewrite observe_record, Hlog. apply app_nil_r.
Qed.

Lemma observe_unhandled {A B} (f : Event -> list A) (out : Completion B) c :
  quiet f -> List.flat_map f (history (unhandled out c)) = List.flat_map f (history c).
Proof.
  intros (_ & _ & _ & Hun). destruct out; simpl; [reflexivity|].
  rewrite flat_map_app. simpl. rewrite Hun. rewrite !app_nil_r. reflexivity.
Qed.

Lemma sameControl_refl o : sameControl o o.
Proof. repeat split. Qed.

Lemma sameControl_trans o1 o2 o3 :
  sameControl o1 o2 -> sameControl o2 o3 -> sameControl o1 o3.
Proof.
  unfold sameControl. intros (?&?&?&?&?&?&?) (?&?&?&?&?&?&?).
  repeat split; congruence.
Qed.

Lemma assignUserAgent_spec o c :
  sameControl o (fst (assignUserAgent o c)) /\
  sameRecord c (snd (assignUserAgent o c)).
Proof.
  unfold assignUserAgent, sameControl, sameRecord.
  destruct (userAgents o) as [[ua|uas]|]; simpl; auto 10.
Qed.

Lemma assignProxy_spec o c :
  sameControl o (fst (assignProxy o c)) /\
  sameRecord c (snd (assignProxy o c)).
Proof.
  unfold assignProxy, sameControl, sameRecord.
  destruct (proxies o); [|simpl; auto 10].
  destruct (truthyString (proxy o)); simpl; auto 10.
Qed.

Lemma prepare_spec o c :
  sameControl o (fst (prepare env o c)) /\
  _limiters (snd (prepare env o c)) = _limiters c /\
  options (snd (prepare env o c)) = options c /\
  (history (snd (prepare env o c)) = history c \/
   history (snd (prepare env o c)) = history (log LDebug c)).
Proof.
  unfold prepare.
  set (c1 := if truthyString (proxy o) then _ else _).
  set (o1 := set_headers _ o).
  set (o2 := if _ : bool then set_encoding _ o1 else o1).
  assert (Hc1 : _limiters c1 = _limiters c /\ options c1 = options c /\
                (history c1 = history c \/ history c1 = history (log LDebug c))).
  { subst c1. destruct (truthyString (proxy o)); [simpl; auto|].
    destruct (proxies o); simpl; auto. }
  assert (Ho2 : sameControl o o2).
  { subst o2 o1. destruct (_ || _); repeat split. }
  destruct (assignUserAgent_spec o2 c1) as [Hua (Hh3 & Hl3 & Ho3)].
  destruct (assignUserAgent o2 c1) as [o3 c3]. simpl in Hua, Hh3, Hl3, Ho3.
  destruct (assignProxy_spec o3 c3) as [Hpx (Hh4 & Hl4 & Ho4)].
  destruct Hc1 as (Hl1 & Ho1 & Hh1).
  split; [|split; [|split]].
  - eapply sameControl_trans; [exact Ho2|].
    eapply sameControl_trans; [exact Hua | exact Hpx].
  - congruence.
  - congruence.
  - rewrite Hh4, Hh3. exact Hh1.
Qed.

Lemma observe_prepare {A} (f : Event -> list A) o c :
  quiet f ->
  List.flat_map f (history (snd (prepare env o c))) = List.flat_map f (history c).
Proof.
  intros Hq. destruct (prepare_spec o c) as (_ & _ & _ & [-> | ->]); [reflexivity|].
  apply observe_log, Hq.
Qed.

Lemma prepare_limiters o c : _limiters (snd (prepare env o c)) = _limiters c.
Proof. apply prepare_spec. Qed.

(** *** Lines 148-168: what [prepare] touches *)

Lemma assignProxy_keeps o c :
  userAgents (fst (assignProxy o c)) = userAgents o /\
  headers (fst (assignProxy o c)) = headers o /\
  _UAIndex (snd (assignProxy o c)) = _UAIndex c.
Proof.
  unfold assignProxy. destruct (proxies o); [|auto].
  destruct (truthyString (proxy o)); auto.
Qed.

Lemma prepare_userAgent o c uas i :
  userAgents o = Some (UaList uas) ->
  (0 < length uas)%nat ->
  _UAIndex c = Num i ->
  userAgentHeader (fst (prepare env o c)) = uas !! (i mod length uas)%nat /\
  _UAIndex (snd (prepare env o c)) = Num (S (i mod length uas)).
Proof.
  intros Hua Hne Hi. unfold prepare.
  set (c1 := if truthyString (proxy o) then _ else _).
  set (o1 := set_headers _ o).
  set (o2 := if _ : bool then set_encoding _ o1 else o1).
  assert (Hua2 : userAgents o2 = Some (UaList uas)).
  { subst o2 o1. destruct (_ || _); simpl; exact Hua. }
  assert (Hi1 : _UAIndex c1 = Num i).
  { subst c1. destruct (truthyString (proxy o)); [exact Hi|].
    destruct (proxies o); exact Hi. }
  assert (Hlen : (length uas =? 0)%nat = false) by (apply Nat.eqb_neq; lia).
  destruct (assignUserAgent o2 c1) as [o3 c3] eqn:Hassign.
  unfold assignUserAgent in Hassign. rewrite Hua2, Hi1 in Hassign.
  simpl in Hassign. rewrite Hlen in Hassign. injection Hassign as <- <-.
  destruct (assignProxy_keeps
              (set_headers
                 (Some (setHeader "user-agent" (uas !! (i mod length uas)%nat)
                          (default ∅ (headers o2)))) o2)
              (set_UAIndex (Num (S (i mod length uas))) c1))
    as (_ & Hh & Hidx).
  split.
  - unfold userAgentHeader. rewrite Hh. simpl. apply lookup_setHeader.
  - rewrite Hidx. reflexivity.
Qed.

Lemma prepare_proxy o c ps j :
  proxies o = Some ps ->
  (0 < length ps)%nat ->
  truthyString (proxy o) = false ->
  _proxyIndex c = Num j ->
  proxy (fst (prepare env o c)) = ps !! (j mod length ps)%nat /\
  _proxyIndex (snd (prepare env o c)) = Num (S (j mod length ps)).
Proof.
  intros Hps Hne Hfixed Hj. unfold prepare. rewrite Hfixed, Hps.
  set (o1 := set_headers _ o).
  set (o2 := if _ : bool then set_encoding _ o1 else o1).
  assert (H2 : proxies o2 = Some ps /\ proxy o2 = proxy o).
  { subst o2 o1. destruct (_ || _); simpl; auto. }
  destruct H2 as [Hps2 Hp2].
  assert (Hlen : (length ps =? 0)%nat = false) by (apply Nat.eqb_neq; lia).
  destruct (assignUserAgent o2 (log LDebug c)) as [o3 c3] eqn:Hassign.
  assert (H3 : proxies o3 = Some ps /\ proxy o3 = proxy o /\ _proxyIndex c3 = Num j).
  { unfold assignUserAgent in Hassign.
    destruct (userAgents o2) as [[ua|uas]|]; injection Hassign as <- <-;
      simpl; rewrite ?Hps2, ?Hp2; auto. }
  destruct H3 as (Hps3 & Hp3 & Hj3).
  unfold assignProxy. rewrite Hps3, Hp3, Hfixed, Hj3. simpl.
  rewrite Hlen. simpl. auto.
Qed.

Lemma dispatchAll_UAIndex uas os :
  (0 < length uas)%nat ->
  Forall (fun o => userAgents o = Some (UaList uas)) os ->
  forall c i,
    _UAIndex c = Num i ->
    exists k, _UAIndex (dispatchAll env os c) = Num k /\
              (k mod length uas = (i + length os) mod length uas)%nat.
Proof.
  intros Hne Hall. induction Hall as [|o os Ho _ IH]; intros c i Hi; simpl.
  - exists i. split; [exact Hi|]. f_equal. lia.
  - destruct (prepare_userAgent o c uas i Ho Hne Hi) as [_ Hnext].
    destruct (IH _ _ Hnext) as (k & Hk & Hmod).
    exists k. split; [exact Hk|]. rewrite Hmod.
    replace (S (i mod length uas) + length os)%nat
      with (i mod length uas + S (length os))%nat by lia.
    rewrite Nat.Div0.add_mod_idemp_l. reflexivity.
Qed.

(** *** Release and callback *)

Lemma observe_invokeRelease {A} (f : Event -> list A) r c :
  quiet f ->
  List.flat_map f (history (invokeRelease env r c)) = List.flat_map f (history c).
Proof.
  intros Hq. pose proof Hq as (Hlog & Hrel & Hdrain & _).
  destruct r as [limiter]. unfold invokeRelease, onRelease.
  destruct (cluster_empty env _).
  - unfold emit at 1. rewrite observe_record, Hdrain, app_nil_r.
    rewrite observe_log by exact Hq.
    unfold emit. rewrite observe_record, Hrel, app_nil_r. reflexivity.
  - rewrite observe_log by exact Hq.
    unfold emit. rewrite observe_record, Hrel, app_nil_r. reflexivity.
Qed.

Lemma observe_releases {A} (f : Event -> list A) n r c :
  quiet f ->
  List.flat_map f (history (Nat.iter n (invokeRelease env r) c))
  = List.flat_map f (history c).
Proof.
  intros Hq. induction n as [|n IH]; [reflexivity|].
  rewrite Nat.iter_succ, observe_invokeRelease by exact Hq. exact IH.
Qed.

Lemma observe_invokeCallback {A} (f : Event -> list A) cb error res rel c :
  quiet f ->
  List.flat_map f (history (invokeCallback env cb error res rel c))
  = List.flat_map f (history c)
    ++ match cb with
       | UserCallback _ => f (CallbackCall error res)
       | ReleaseCallback _ => []
       end.
Proof.
  intros Hq. destruct cb as [n|r]; simpl.
  - destruct rel as [r|].
    + rewrite observe_releases by exact Hq. apply observe_record.
    + apply observe_record.
  - rewrite observe_invokeRelease by exact Hq. symmetry. apply app_nil_r.
Qed.

Lemma observe_invokeCallback_blind {A} (f : Event -> list A) cb error res rel c :
  quiet f ->
  (forall error res, f (CallbackCall error res) = []) ->
  List.flat_map f (history (invokeCallback env cb error res rel c))
  = List.flat_map f (history c).
Proof.
  intros Hq Hcb. rewrite observe_invokeCallback by exact Hq.
  destruct cb; rewrite ?Hcb; apply app_nil_r.
Qed.

Lemma limiters_invokeRelease limiter c :
  calls (_limiters (invokeRelease env (mkRelease limiter) c))
  = calls (_limiters c) ++ [Done limiter] /\
  clusterOptions (_limiters (invokeRelease env (mkRelease limiter) c))
  = clusterOptions (_limiters c).
Proof.
  unfold invokeRelease, onRelease. destruct (cluster_empty env _); simpl; auto.
Qed.

Lemma limiters_releases n limiter c :
  calls (_limiters (Nat.iter n (invokeRelease env (mkRelease limiter)) c))
  = calls (_limiters c) ++ repeat (Done limiter) n /\
  clusterOptions (_limiters (Nat.iter n (invokeRelease env (mkRelease limiter)) c))
  = clusterOptions (_limiters c).
Proof.
  induction n as [|n [IHc IHo]].
  - simpl. rewrite app_nil_r. auto.
  - rewrite Nat.iter_succ.
    destruct (limiters_invokeRelease limiter
                (Nat.iter n (invokeRelease env (mkRelease limiter)) c)) as [Hc Ho].
    rewrite Hc, Ho, IHc, IHo. split; [|reflexivity].
    rewrite <- app_assoc. f_equal. simpl. symmetry. apply repeat_cons.
Qed.

Lemma limiters_invokeCallback cb error res rel c :
  calls (_limiters (invokeCallback env cb error res rel c))
  = calls (_limiters c) ++ releasesOf cb rel /\
  clusterOptions (_limiters (invokeCallback env cb error res rel c))
  = clusterOptions (_limiters c).
Proof.
  destruct cb as [n|[limiter]]; simpl.
  - destruct rel as [[limiter]|]; simpl.
    + apply (limiters_releases n limiter (record (CallbackCall error res) c)).
    + rewrite app_nil_r. auto.
  - apply (limiters_invokeRelease limiter c).
Qed.

(** *** The path of a response *)

Ltac break_inner :=
  match goal with
  | |- context [match ?x with _ => _ end] =>
      lazymatch x with
      | context [match _ with _ => _ end] => fail
      | _ => destruct x eqn:?
      end
  end.

Lemma decodeBody_spec o charset body c o' body' c' :
  decodeBody env o charset body c = (o', body', c') ->
  sameControl o o' /\ isJson o' = isJson o /\ jQuery o' = jQuery o /\
  _limiters c' = _limiters c /\
  forall A (f : Event -> list A),
    quiet f ->
    List.flat_map f (history c')
    = List.flat_map f (history c)
      ++ match encoding o with
         | EncNull => []
         | EncName forced => f (IconvDecode forced)
         | EncUndefined => f (IconvDecode (default "utf8"%string charset))
         end.
Proof.
  unfold decodeBody. intros H.
  destruct (encoding o) eqn:Henc.
  - destruct (iconv_decode env _ _); injection H as <- <- <-;
      (repeat split; [intros A f Hq]);
      rewrite ?observe_log by exact Hq; apply observe_record.
  - injection H as <- <- <-. repeat split.
    intros A f Hq. symmetry. apply app_nil_r.
  - destruct (iconv_decode env _ _); injection H as <- <- <-;
      (repeat split; [intros A f Hq]);
      rewrite ?observe_log by exact Hq; apply observe_record.
Qed.

Lemma observe_handleResponse {A} (f : Event -> list A) o r c :
  quiet f ->
  (forall error res, f (CallbackCall error res) = []) ->
  List.flat_map f (history (snd (handleResponse env o r c)))
  = List.flat_map f (history c)
    ++ match encoding o with
       | EncNull => []
       | _ =>
           f (IconvDecode
                (charsetByPriority (forcedEncoding o) (getCharset (raw_headers r))
                   (declaredCharset (rawText (default (RawText "") (raw_body r))))))
       end.
Proof.
  intros Hq Hcb. unfold handleResponse.
  destruct (decodeBody env o _ _ _) as [[o1 body1] c1] eqn:Hd.
  apply decodeBody_spec in Hd. destruct Hd as (_ & _ & _ & _ & Hobs).
  specialize (Hobs A f Hq). rewrite !observe_log in Hobs by exact Hq.
  transitivity (List.flat_map f (history c1)).
  { repeat (break_inner; cbv beta iota zeta delta [snd fst]);
      rewrite ?observe_invokeCallback_blind by assumption;
      rewrite ?observe_log by exact Hq; reflexivity. }
  rewrite Hobs. f_equal.
  unfold charsetByPriority, forcedEncoding, responseCharset.
  destruct (encoding o); [| reflexivity | reflexivity].
  destruct (getCharset (raw_headers r)); [reflexivity|].
  destruct (declaredCharset _); reflexivity.
Qed.

Lemma limiters_handleResponse o r c :
  calls (_limiters (snd (handleResponse env o r c)))
  = calls (_limiters c)
    ++ match callback o with
       | Some cb => releasesOf cb (release o)
       | None => []
       end /\
  clusterOptions (_limiters (snd (handleResponse env o r c)))
  = clusterOptions (_limiters c).
Proof.
  unfold handleResponse.
  destruct (decodeBody env o _ _ _) as [[o1 body1] c1] eqn:Hd.
  apply decodeBody_spec in Hd.
  destruct Hd as ((_ & Hcb & Hrel & _) & _ & _ & Hlim & _).
  rewrite <- Hcb, <- Hrel. change (_limiters c) with (_limiters (log LDebug (log LDebug c))).
  rewrite <- Hlim.
  repeat (break_inner; cbv beta iota zeta delta [snd fst]);
    try match goal with
        | |- context [invokeCallback env ?cb ?e ?res ?rel ?c2] =>
            destruct (limiters_invokeCallback cb e res rel c2) as [-> ->]
        end;
    simpl; rewrite ?app_nil_r; auto.
Qed.

(** *** [_execute], [request] and [_handler] follow the relation *)

Local Arguments _handler : simpl never.
Local Arguments request : simpl never.
Local Arguments prepare : simpl never.
Local Arguments handleResponse : simpl never.
Local Arguments invokeCallback : simpl never.

Lemma handler_sound exec error o response c out c' :
  (forall o c out c', exec o c = Some (out, c') -> Runs env AtExecute o c out c') ->
  _handler env exec (Some error) o response c = Some (out, c') ->
  Runs env (AtFailure error) o c out c'.
Proof.
  intros Hexec H. unfold _handler in H.
  destruct (retriesLeft o) eqn:Hleft.
  - destruct (exec _ _) as [[out1 c1]|] eqn:He; [|discriminate].
    injection H as <- <-. apply Runs_retry; [exact Hleft|]. apply Hexec, He.
  - destruct (callback o) as [cb|] eqn:Hcb; injection H as <- <-.
    + apply Runs_callback; assumption.
    + apply Runs_throw; assumption.
Qed.

Lemma request_sound exec o c out c' :
  (forall o c out c', exec o c = Some (out, c') -> Runs env AtExecute o c out c') ->
  request env exec o c = Some (out, c') ->
  Runs env AtRequest o c out c'.
Proof.
  intros Hexec H. unfold request in H.
  destruct (got env _ o) as [error|response] eqn:Hgot.
  - eapply Runs_error; [exact Hgot|]. eapply handler_sound; [exact Hexec | exact H].
  - unfold _handler in H. injection H as H.
    pose proof (Runs_response env o c response Hgot) as Hr.
    rewrite H in Hr. exact Hr.
Qed.

Lemma execute_sound fuel :
  forall o c out c',
    _execute env fuel o c = Some (out, c') -> Runs env AtExecute o c out c'.
Proof.
  induction fuel as [|fuel IH]; intros o c out c' H; [discriminate|].
  simpl in H. destruct (prepare env o c) as [o1 c1] eqn:Hp.
  destruct (preRequest o1) as [hook|] eqn:Hhook.
  - destruct (preRequestFn env hook o1) as [o' [err|]|e|] eqn:Hfn.
    + destruct (_handler _ _ _ _ _ _) as [[out1 c2]|] eqn:Hh; [|discriminate].
      injection H as <- <-.
      eapply Runs_hook_error; eauto. eapply handler_sound; [exact IH | exact Hh].
    + destruct (request _ _ _ _) as [[out1 c2]|] eqn:Hr; [|discriminate].
      injection H as <- <-.
      eapply Runs_hook_next; eauto. eapply request_sound; [exact IH | exact Hr].
    + injection H as <- <-. eapply Runs_hook_throws; eauto.
    + injection H as <- <-. eapply Runs_hook_silent; eauto.
  - eapply Runs_plain; eauto. eapply request_sound; [exact IH | exact H].
Qed.

(** *** What a run leaves untouched *)

Lemma observe_announce {A} (f : Event -> list A) o c :
  f (Emit "request") = [] \/ skipEventRequest o = Some true ->
  List.flat_map f (history (announce o c)) = List.flat_map f (history c).
Proof.
  intros H. unfold announce.
  destruct (isTrue (skipEventRequest o)) eqn:Hskip; [reflexivity|].
  destruct H as [H | H].
  - unfold emit. rewrite observe_record, H. apply app_nil_r.
  - rewrite H in Hskip. discriminate.
Qed.

(** A run without a hook shows nothing to an observation that sees neither
    the transport, the timer, the decoder nor the callback, and that sees
    the ["request"] notification only when the descriptor does not
    suppress it. *)
Lemma runs_unseen {A} (f : Event -> list A) :
  quiet f ->
  (forall charset, f (IconvDecode charset) = []) ->
  (forall error res, f (CallbackCall error res) = []) ->
  (forall o, f (GotCall o) = []) ->
  (forall ms, f (SetTimeout ms) = []) ->
  forall ph o c out c',
    Runs env ph o c out c' ->
    preRequest o = None ->
    f (Emit "request") = [] \/ skipEventRequest o = Some true ->
    List.flat_map f (history c') = List.flat_map f (history c).
Proof.
  intros Hq Hdec Hcb Hgot Htimer ph o c out c' Hrun.
  induction Hrun as
    [ o c o1 c1 out c' Hp Hhook _ IH
    | o c o1 c1 hook o' out c' Hp Hhook _ _ _
    | o c o1 c1 hook o' err out c' Hp Hhook _ _ _
    | o c o1 c1 hook e Hp Hhook _
    | o c o1 c1 hook Hp Hhook _
    | o c response _
    | o c error out c' _ _ IH
    | error o c out c' _ _ IH
    | error o c cb _ _
    | error o c _ _ ];
    intros Hnone Hreq;
    try (exfalso; destruct (prepare_spec o c) as ((Hpre & _) & _);
         rewrite Hp in Hpre; simpl in Hpre; congruence).
  - destruct (prepare_spec o c) as ((_ & _ & _ & Hskip & _) & _).
    pose proof (observe_prepare f o c Hq) as Hobs.
    rewrite Hp in Hskip, Hobs. simpl in Hskip, Hobs.
    rewrite IH; [exact Hobs | exact Hhook |].
    destruct Hreq as [Hreq | Hreq]; [left; exact Hreq | right; congruence].
  - rewrite observe_handleResponse by assumption.
    rewrite observe_record, Hgot, app_nil_r, observe_announce by exact Hreq.
    destruct (encoding o); rewrite ?Hdec; apply app_nil_r.
  - rewrite IH by assumption.
    rewrite observe_log, observe_record, Hgot, app_nil_r by exact Hq.
    apply observe_announce, Hreq.
  - rewrite observe_unhandled by exact Hq.
    rewrite IH by assumption.
    rewrite observe_record, Htimer, app_nil_r. apply observe_log, Hq.
  - rewrite observe_invokeCallback_blind by assumption. apply observe_log, Hq.
  - apply observe_log, Hq.
Qed.

Lemma cluster_eq (a b : Cluster) :
  clusterOptions a = clusterOptions b -> calls a = calls b -> a = b.
Proof. destruct a, b; simpl; intros -> ->; reflexivity. Qed.

Lemma releasesOf_capabilityFree o cb :
  capabilityFree o -> callback o = Some cb -> releasesOf cb (release o) = [].
Proof.
  intros [Hrel Hcb] Hsome. rewrite Hrel.
  destruct cb as [n|r]; [reflexivity|]. exfalso. exact (Hcb r Hsome).
Qed.

Lemma limiters_unhandled {A} (out : Completion A) c :
  _limiters (unhandled out c) = _limiters c.
Proof. destruct out; reflexivity. Qed.

(** A run without a hook, of a descriptor that holds no release
    capability, leaves the cluster as it is. *)
Lemma runs_limiters ph o c out c' :
  Runs env ph o c out c' ->
  preRequest o = None ->
  capabilityFree o ->
  _limiters c' = _limiters c.
Proof.
  intros Hrun.
  induction Hrun as
    [ o c o1 c1 out c' Hp Hhook _ IH
    | o c o1 c1 hook o' out c' Hp Hhook _ _ _
    | o c o1 c1 hook o' err out c' Hp Hhook _ _ _
    | o c o1 c1 hook e Hp Hhook _
    | o c o1 c1 hook Hp Hhook _
    | o c response _
    | o c error out c' _ _ IH
    | error o c out c' _ _ IH
    | error o c cb _ Hcb
    | error o c _ _ ];
    intros Hnone Hfree;
    try (exfalso; destruct (prepare_spec o c) as ((Hpre & _) & _);
         rewrite Hp in Hpre; simpl in Hpre; congruence).
  - destruct (prepare_spec o c) as ((_ & Hcb & Hrel & _) & Hlim & _).
    rewrite Hp in Hcb, Hrel, Hlim. simpl in Hcb, Hrel, Hlim.
    rewrite IH; [exact Hlim | exact Hhook |].
    destruct Hfree as [Hfree1 Hfree2]. split; [congruence|].
    intros r. rewrite Hcb. apply Hfree2.
  - destruct (limiters_handleResponse o response (record (GotCall o) (announce o c)))
      as [Hc Ho].
    apply cluster_eq.
    + rewrite Ho. unfold announce. destruct (isTrue _); reflexivity.
    + rewrite Hc.
      replace (match callback o with
               | Some cb => releasesOf cb (release o)
               | None => []
               end) with (@nil ClusterCall).
      * rewrite app_nil_r. unfold announce. destruct (isTrue _); reflexivity.
      * destruct (callback o) as [cb|] eqn:Hcb; [|reflexivity].
        symmetry. apply releasesOf_capabilityFree; assumption.
  - rewrite IH by assumption. unfold announce. destruct (isTrue _); reflexivity.
  - rewrite limiters_unhandled. rewrite IH; [reflexivity | exact Hnone |].
    destruct Hfree as [Hfree1 Hfree2]. split; [exact Hfree1 | exact Hfree2].
  - destruct (limiters_invokeCallback cb (Some error) (errorResponse o) (release o)
                (log LError c)) as [Hc Ho].
    apply cluster_eq; [exact Ho|].
    rewrite Hc, (releasesOf_capabilityFree o cb Hfree Hcb). apply app_nil_r.
  - reflexivity.
Qed.

Lemma releasesOf_done cb rel : List.filter isSubmit (releasesOf cb rel) = [].
Proof.
  destruct cb as [n|[limiter]]; [|reflexivity].
  destruct rel as [[limiter]|]; [|reflexivity].
  simpl. induction n as [|n IH]; simpl; [reflexivity | exact IH].
Qed.

(** No run, with or without a hook, submits to the cluster: the calls it
    adds are [done] calls. *)
Lemma runs_never_submit ph o c out c' :
  Runs env ph o c out c' ->
  List.filter isSubmit (calls (_limiters c')) = List.filter isSubmit (calls (_limiters c)) /\
  clusterOptions (_limiters c') = clusterOptions (_limiters c).
Proof.
  intros Hrun.
  induction Hrun as
    [ o c o1 c1 out c' Hp Hhook _ IH
    | o c o1 c1 hook o' out c' Hp Hhook _ _ IH
    | o c o1 c1 hook o' err out c' Hp Hhook _ _ IH
    | o c o1 c1 hook e Hp Hhook _
    | o c o1 c1 hook Hp Hhook _
    | o c response _
    | o c error out c' _ _ IH
    | error o c out c' _ _ IH
    | error o c cb _ Hcb
    | error o c _ _ ];
    try (pose proof (prepare_limiters o c) as Hlim; rewrite Hp in Hlim;
         simpl in Hlim);
    rewrite ?limiters_unhandled.
  - rewrite <- Hlim. exact IH.
  - rewrite <- Hlim. exact IH.
  - rewrite <- Hlim. exact IH.
  - rewrite <- Hlim. auto.
  - rewrite <- Hlim. auto.
  - destruct (limiters_handleResponse o response (record (GotCall o) (announce o c)))
      as [Hc Ho].
    rewrite Hc, Ho, List.filter_app.
    replace (List.filter isSubmit
               match callback o with
               | Some cb => releasesOf cb (release o)
               | None => []
               end) with (@nil ClusterCall)
      by (destruct (callback o); [symmetry; apply releasesOf_done | reflexivity]).
    rewrite app_nil_r. unfold announce. destruct (isTrue _); auto.
  - destruct IH as [IH1 IH2]. rewrite IH1, IH2.
    unfold announce. destruct (isTrue _); auto.
  - exact IH.
  - destruct (limiters_invokeCallback cb (Some error) (errorResponse o) (release o)
                (log LError c)) as [Hc Ho].
    rewrite Hc, Ho, List.filter_app, releasesOf_done, app_nil_r. auto.
  - auto.
Qed.

(** *** Enough fuel *)

(** Without a hook, one unit of fuel for each retry left and one more make
    [_execute] come to rest. *)
Lemma execute_total fuel :
  forall o c,
    preRequest o = None ->
    (Z.to_nat (default 0%Z (retries o)) < fuel)%nat ->
    exists out c', _execute env fuel o c = Some (out, c').
Proof.
  induction fuel as [|fuel IH]; intros o c Hnone Hfuel; [lia|].
  simpl. destruct (prepare_spec o c) as ((Hpre & _ & _ & _ & Hret & _) & _).
  destruct (prepare env o c) as [o1 c1]. simpl in Hpre, Hret.
  rewrite Hpre, Hnone. unfold request.
  destruct (got env _ o1) as [error|response];
    [|unfold _handler; destruct (handleResponse env _ _ _); eauto].
  unfold _handler. destruct (retriesLeft o1) eqn:Hleft.
  - unfold retriesLeft in Hleft. rewrite Hret in Hleft.
    destruct (retries o) as [n|] eqn:Hn; [|discriminate].
    apply Z.ltb_lt in Hleft. simpl in Hfuel.
    destruct (IH (set_retries (Z.pred <$> retries o1) o1)
                (record (SetTimeout (retryInterval o1))
                   (log LWarn (log LDebug (record (GotCall o1) (announce o1 c1))))))
      as (out & c' & He).
    + simpl. congruence.
    + simpl. rewrite Hret. simpl. lia.
    + rewrite He. eauto.
  - destruct (callback o1); eauto.
Qed.

(** *** Retries *)

(** C4. On an error with retries left, [_handler] sets a timer for the
    retry interval of the descriptor and then calls [_execute] itself, with
    one retry less, on a crawler whose cluster is as it was: the retry is
    not submitted to a limiter, and nothing in the rest of its life is. *)
Theorem retry_resubmits_directly_to_executor :
  forall (fuel : nat) (error : JsError) (o : CrawlerOptions) (c : Crawler) (n : Z),
    retries o = Some n ->
    0 < n ->
    _handler env (_execute env fuel) (Some error) o None c
    = match _execute env fuel (set_retries (Some (Z.pred n)) o)
              (record (SetTimeout (retryInterval o)) (log LWarn c)) with
      | Some (out, c') => Some (Normal None, unhandled out c')
      | None => None
      end /\
    _limiters (record (SetTimeout (retryInterval o)) (log LWarn c)) = _limiters c /\
    forall out c',
      _handler env (_execute env fuel) (Some error) o None c = Some (out, c') ->
      List.filter isSubmit (calls (_limiters c'))
      = List.filter isSubmit (calls (_limiters c)).
Proof.
  intros fuel error o c n Hn Hpos. split; [|split].
  - unfold _handler, retriesLeft. rewrite Hn.
    assert (Hlt : (0 <? n) = true) by (apply Z.ltb_lt; exact Hpos).
    rewrite Hlt. reflexivity.
  - reflexivity.
  - intros out c' H.
    apply (handler_sound (_execute env fuel)) in H; [|apply execute_sound].
    apply (runs_never_submit _ _ _ _ _ H).
Qed.

(** *** [send] *)

Lemma sendOptions_spec input valid o c :
  getValidOptions env input = Normal valid ->
  asOptions valid = Normal o ->
  exists d,
    sendOptions env input c = Normal d /\
    preRequest d = None /\
    retries d = Some (default 0 (retries o)) /\
    skipEventRequest d
    = Some (default true (orDefault (skipEventRequest o) (skipEventRequest (options c)))) /\
    release d = orDefault (release o) (release (options c)) /\
    callback d = orDefault (callback o) (callback (options c)).
Proof.
  intros Hvalid Hopts. unfold sendOptions. rewrite Hvalid, Hopts.
  eexists. split; [reflexivity|]. simpl.
  repeat split. destruct (retries o); reflexivity.
Qed.

Lemma capabilityFree_defaults o base d :
  capabilityFree o ->
  capabilityFree base ->
  release d = orDefault (release o) (release base) ->
  callback d = orDefault (callback o) (callback base) ->
  capabilityFree d.
Proof.
  intros [Hr Hc] [Hr' Hc'] Hrel Hcb. split.
  - rewrite Hrel, Hr, Hr'. reflexivity.
  - intros r. rewrite Hcb. destruct (callback o) as [cb|]; simpl.
    + apply Hc.
    + apply Hc'.
Qed.

(** C10 (amended). [send] (and [direct]) hands the descriptor it builds
    straight to [_execute], whose first act after lines 148-168 is the
    request itself. Whatever the input, nothing is submitted to a limiter
    and no hook is called; and when neither the input nor the options of
    the crawler hold the release capability of an already admitted
    descriptor, the cluster is left exactly as it was. The descriptor has
    no pre-request hook; its retry count is the caller's, or 0 when the
    caller gave none; and ["request"] is not emitted unless
    [skipEventRequest] was given as [false]. With a retry count within the
    model, one unit of fuel per retry and one more bring the call to
    rest. *)
Theorem send_bypasses_limiter :
  forall (input : JsValue) (c : Crawler),
    (forall fuel out c',
        send env fuel input c = Some (out, c') ->
        List.filter isSubmit (calls (_limiters c'))
        = List.filter isSubmit (calls (_limiters c)) /\
        clusterOptions (_limiters c') = clusterOptions (_limiters c) /\
        hookCalls (history c') = hookCalls (history c)) /\
    (capabilityFree (options c) ->
     (forall valid o,
         getValidOptions env input = Normal valid -> asOptions valid = Normal o ->
         capabilityFree o) ->
     forall fuel out c',
       send env fuel input c = Some (out, c') -> _limiters c' = _limiters c) /\
    (forall valid o,
        getValidOptions env input = Normal valid -> asOptions valid = Normal o ->
        exists d,
          sendOptions env input c = Normal d /\
          preRequest d = None /\
          retries d = Some (default 0 (retries o)) /\
          skipEventRequest d
          = Some (default true
                    (orDefault (skipEventRequest o) (skipEventRequest (options c)))) /\
          (forall fuel,
              send env (S fuel) input c
              = request env (_execute env fuel)
                  (fst (prepare env d c)) (snd (prepare env d c))) /\
          (forall fuel,
              exactRetries o ->
              (Z.to_nat (default 0%Z (retries o)) < fuel)%nat ->
              exists out c', send env fuel input c = Some (out, c')) /\
          (skipEventRequest d = Some true ->
           forall fuel out c',
             send env fuel input c = Some (out, c') ->
             notifications "request" (history c')
             = notifications "request" (history c))) /\
    direct env = send env.
Proof.
  intros input c.
  assert (Hcases : forall fuel out c',
             send env fuel input c = Some (out, c') ->
             (exists e, sendOptions env input c = Throw e /\ c' = c) \/
             (exists valid o d,
                 getValidOptions env input = Normal valid /\
                 asOptions valid = Normal o /\
                 sendOptions env input c = Normal d /\
                 preRequest d = None /\
                 release d = orDefault (release o) (release (options c)) /\
                 callback d = orDefault (callback o) (callback (options c)) /\
                 Runs env AtExecute d c out c')).
  { intros fuel out c' Hsend. unfold send in Hsend.
    destruct (sendOptions env input c) as [d|e] eqn:Hd.
    - right. unfold sendOptions in Hd.
      destruct (getValidOptions env input) as [valid|] eqn:Hvalid; [|discriminate].
      destruct (asOptions valid) as [o|] eqn:Hopts; [|discriminate].
      destruct (sendOptions_spec input valid o c Hvalid Hopts)
        as (d' & Hd' & Hhook & _ & _ & Hrel & Hcb).
      unfold sendOptions in Hd'. rewrite Hvalid, Hopts in Hd'.
      rewrite Hd in Hd'. injection Hd' as <-.
      exists valid, o, d. repeat split; try assumption.
      apply execute_sound in Hsend. exact Hsend.
    - left. injection Hsend as <- <-. eauto. }
  split; [|split; [|split; [|reflexivity]]].
  - intros fuel out c' Hsend.
    destruct (Hcases fuel out c' Hsend)
      as [(e & _ & ->) | (valid & o & d & _ & _ & _ & Hhook & _ & _ & Hrun)];
      [auto|].
    destruct (runs_never_submit _ _ _ _ _ Hrun) as [Hsub Hopt].
    split; [exact Hsub|]. split; [exact Hopt|].
    apply (runs_unseen seesHook quiet_seesHook) with (1 := fun _ => eq_refl)
      (2 := fun _ _ => eq_refl) (3 := fun _ => eq_refl) (4 := fun _ => eq_refl)
      (5 := Hrun); [exact Hhook | left; reflexivity].
  - intros Hbase Hinput fuel out c' Hsend.
    destruct (Hcases fuel out c' Hsend)
      as [(e & _ & ->) | (valid & o & d & Hvalid & Hopts & _ & Hhook & Hrel & Hcb & Hrun)];
      [reflexivity|].
    apply (runs_limiters _ _ _ _ _ Hrun Hhook).
    apply (capabilityFree_defaults o (options c)); auto.
    apply (Hinput valid o); assumption.
  - intros valid o Hvalid Hopts.
    destruct (sendOptions_spec input valid o c Hvalid Hopts)
      as (d & Hd & Hhook & Hret & Hskip & Hrel & Hcb).
    exists d. repeat split; try assumption.
    + intros fuel. unfold send. rewrite Hd. simpl.
      destruct (prepare_spec d c) as ((Hpre & _) & _).
      destruct (prepare env d c) as [d1 c1]. simpl in Hpre |- *.
      rewrite Hpre, Hhook. reflexivity.
    + intros fuel _ Hfuel. unfold send. rewrite Hd.
      apply execute_total; [exact Hhook|]. rewrite Hret. exact Hfuel.
    + intros Hquiet fuel out c' Hsend. unfold send in Hsend. rewrite Hd in Hsend.
      apply execute_sound in Hsend.
      apply (runs_unseen (seesEmit "request") quiet_seesRequest)
        with (1 := fun _ => eq_refl) (2 := fun _ _ => eq_refl) (3 := fun _ => eq_refl)
             (4 := fun _ => eq_refl) (5 := Hsend); [exact Hhook | right; exact Hquiet].
Qed.

(** *** An inline body *)

Lemma indexes_invokeRelease r c :
  _UAIndex (invokeRelease env r c) = _UAIndex c /\
  _proxyIndex (invokeRelease env r c) = _proxyIndex c.
Proof.
  destruct r. unfold invokeRelease, onRelease.
  destruct (cluster_empty env _); simpl; auto.
Qed.

Lemma indexes_invokeCallback cb error res rel c :
  _UAIndex (invokeCallback env cb error res rel c) = _UAIndex c /\
  _proxyIndex (invokeCallback env cb error res rel c) = _proxyIndex c.
Proof.
  unfold invokeCallback. destruct cb as [n|r]; [|apply indexes_invokeRelease].
  destruct rel as [r|]; [|simpl; auto].
  induction n as [|n [IH1 IH2]]; [simpl; auto|].
  rewrite Nat.iter_succ.
  destruct (indexes_invokeRelease r
              (Nat.iter n (invokeRelease env r) (record (CallbackCall error res) c)))
    as [-> ->].
  auto.
Qed.

Lemma indexes_handleResponse o r c :
  _UAIndex (snd (handleResponse env o r c)) = _UAIndex c /\
  _proxyIndex (snd (handleResponse env o r c)) = _proxyIndex c.
Proof.
  unfold handleResponse, decodeBody.
  repeat (break_inner; cbv beta iota zeta delta [snd fst]);
    try match goal with
        | |- context [invokeCallback env ?cb ?e ?res ?rel ?c2] =>
            destruct (indexes_invokeCallback cb e res rel c2) as [-> ->]
        end;
    simpl; auto.
Qed.

(** *** Admission *)

Lemma getValidOptions_rejects v :
  passesValidation env v = false -> getValidOptions env v = Throw (invalidOptions env v).
Proof.
  intros H. destruct v as [| | b | n | s | | items | p o]; try reflexivity.
  - simpl in H. apply orb_false_elim in H. destruct H as [Hurl Hjson].
    apply bool_decide_eq_false in Hjson.
    unfold getValidOptions. simpl. rewrite Hurl.
    destruct (JSON_parse env s) as [parsed|]; [|reflexivity].
    exfalso. apply Hjson. eauto.
  - destruct p; try discriminate. reflexivity.
Qed.

Lemma addOne_rejects v c :
  passesValidation env v = false -> addOne env v c = (Normal tt, log LWarn c).
Proof.
  intros H. unfold addOne. rewrite (getValidOptions_rejects v H). reflexivity.
Qed.

Lemma specShape_passes v : specShape env v = true -> passesValidation env v = true.
Proof.
  destruct v as [| | b | n | s | | items | p o]; try discriminate; [|auto].
  simpl. destruct (isValidUrl env s); [reflexivity|]. simpl.
  destruct (JSON_parse env s) as [parsed|]; [|discriminate].
  intros _. apply bool_decide_eq_true. eauto.
Qed.

(** C2 (amended). An input that [getValidOptions] does not let through
    (anything but a string that is a valid URL, a string that
    [JSON.parse] accepts, an object whose prototype is
    [Object.prototype] or [null]) makes it throw a TypeError to the
    function of the crawler that called it. [add], which calls it inside a
    [try], logs the error as a warning and goes on to the next input: it
    returns to its own caller and schedules and submits nothing for the
    rejected input. [send] rejects its promise with the error before
    anything is executed. An input of one of the three shapes of the
    specification passes and comes out as an option object: a URL as
    [{ url }], a serialized object as what it parses to, an object as
    itself. *)
Theorem validation_error_goes_to_add_or_send :
  forall (v : JsValue),
    (passesValidation env v = false ->
     getValidOptions env v = Throw (invalidOptions env v) /\
     errName (invalidOptions env v) = "TypeError"%string /\
     (forall c,
         addOne env v c = (Normal tt, log LWarn c) /\
         _limiters (snd (addOne env v c)) = _limiters c /\
         notifications "schedule" (history (snd (addOne env v c)))
         = notifications "schedule" (history c)) /\
     (forall c,
         (forall items, v <> VArray items) ->
         add env v c = (Normal tt, log LWarn c)) /\
     (forall fuel c, send env fuel v c = Some (Throw (invalidOptions env v), c))) /\
    (specShape env v = true ->
     passesValidation env v = true /\
     exists proto o,
       getValidOptions env v = Normal (VObject proto o) /\
       match v with
       | VString s =>
           if isValidUrl env s
           then proto = ObjectPrototype /\ o = set_url (Some (UrlString s)) emptyOptions
           else JSON_parse env s = Some (VObject proto o)
       | _ => v = VObject proto o
       end) /\
    (passesValidation env v = true ->
     match v with
     | VString s =>
         if isValidUrl env s
         then getValidOptions env v
              = Normal (VObject ObjectPrototype
                          (set_url (Some (UrlString s)) emptyOptions))
         else exists parsed,
             JSON_parse env s = Some parsed /\ getValidOptions env v = Normal parsed
     | _ => getValidOptions env v = Normal v
     end).
Proof.
  intros v. split; [|split].
  - intros H. split; [apply getValidOptions_rejects, H|].
    split; [reflexivity|]. split; [|split].
    + intros c. rewrite (addOne_rejects v c H). simpl. repeat split.
      unfold notifications. rewrite flat_map_app. simpl. apply app_nil_r.
    + intros c Hnot. unfold add.
      assert (Hflat : List.flat_map flattenDeep
                        match v with VArray items => items | _ => [v] end = [v]).
      { destruct v; try reflexivity. exfalso. eapply Hnot. reflexivity. }
      rewrite Hflat. simpl. rewrite (addOne_rejects v c H). reflexivity.
    + intros fuel c. unfold send, sendOptions.
      rewrite (getValidOptions_rejects v H). reflexivity.
  - intros H. split; [apply specShape_passes, H|].
    destruct v as [| | b | n | s | | items | p o]; try discriminate.
    + unfold getValidOptions. simpl in *.
      destruct (isValidUrl env s); [eauto|]. simpl in H.
      destruct (JSON_parse env s) as [[| | | | | | |p o]|]; try discriminate.
      exists p, o. auto.
    + exists p, o. split; [|reflexivity].
      destruct p; try discriminate; reflexivity.
  - intros H. destruct v as [| | b | n | s | | items | p o]; try discriminate.
    + unfold getValidOptions. simpl.
      destruct (isValidUrl env s) eqn:Hurl; [reflexivity|].
      simpl in H. rewrite Hurl in H. simpl in H. apply bool_decide_eq_true in H.
      destruct H as [parsed Hparsed]. exists parsed. rewrite Hparsed. auto.
    + destruct p; try discriminate; reflexivity.
Qed.

(** C3 (amended). With duplicate-skipping enabled, when the existence
    check of the dedup collaborator fails the failure is logged as an
    error, nothing is thrown, and the descriptor is not admitted: nothing
    is scheduled or submitted. A "seen" answer drops the descriptor without
    a trace; a "not seen" answer schedules it. *)
Theorem dedup_failure_drops_descriptor :
  forall (input valid : JsValue) (o : CrawlerOptions) (c : Crawler),
    isTrue (skipDuplicates (options c)) = true ->
    getValidOptions env input = Normal valid ->
    asOptions valid = Normal o ->
    (forall error,
        seen_exists env (descriptor o c) = inl error ->
        addOne env input c = (Normal tt, log LError c) /\
        _limiters (snd (addOne env input c)) = _limiters c /\
        notifications "schedule" (history (snd (addOne env input c)))
        = notifications "schedule" (history c)) /\
    (seen_exists env (descriptor o c) = inr true ->
     addOne env input c = (Normal tt, c)) /\
    (seen_exists env (descriptor o c) = inr false ->
     addOne env input c = (Normal tt, _schedule (descriptor o c) c)).
Proof.
  intros input valid o c Hskip Hvalid Hopts.
  unfold addOne. rewrite Hvalid, Hopts, Hskip. simpl.
  split; [|split].
  - intros error Hseen. rewrite Hseen. simpl. repeat split.
    unfold notifications. rewrite flat_map_app. simpl. apply app_nil_r.
  - intros Hseen. rewrite Hseen. reflexivity.
  - intros Hseen. rewrite Hseen. reflexivity.
Qed.

(** *** A transport that always fails *)

Lemma failed_request o c o1 c1 :
  prepare env o c = (o1, c1) ->
  sameControl o o1 /\
  _limiters (afterFailure o1 c1) = _limiters c /\
  gotCalls (announce o1 c1) = gotCalls c /\
  attempts (history (afterFailure o1 c1)) = attempts (history c) ++ [retries o] /\
  timers (history (afterFailure o1 c1)) = timers (history c) /\
  hookCalls (history (afterFailure o1 c1)) = hookCalls (history c) /\
  callbackCalls (history (afterFailure o1 c1)) = callbackCalls (history c).
Proof.
  intros Hp.
  destruct (prepare_spec o c) as (Hctl & Hlim & _).
  pose proof (fun A (f : Event -> list A) => observe_prepare f o c) as Hobs.
  rewrite Hp in Hctl, Hlim, Hobs. simpl in Hctl, Hlim, Hobs.
  assert (Hafter : forall A (f : Event -> list A),
             quiet f -> f (Emit "request") = [] ->
             List.flat_map f (history (afterFailure o1 c1))
             = List.flat_map f (history c) ++ f (GotCall o1)).
  { intros A f Hq Hreq. unfold afterFailure.
    rewrite observe_log, observe_record by exact Hq.
    rewrite observe_announce by (left; exact Hreq).
    rewrite Hobs by exact Hq. reflexivity. }
  split; [exact Hctl|]. split; [|split; [|split; [|split; [|split]]]].
  - unfold afterFailure, announce. destruct (isTrue _); exact Hlim.
  - unfold gotCalls, attempts. rewrite observe_announce by (left; reflexivity).
    rewrite Hobs by apply quiet_seesGot. reflexivity.
  - unfold attempts. rewrite Hafter by (apply quiet_seesGot || reflexivity).
    simpl. destruct Hctl as (_ & _ & _ & _ & -> & _). reflexivity.
  - unfold timers. rewrite Hafter by (apply quiet_seesTimer || reflexivity).
    apply app_nil_r.
  - unfold hookCalls. rewrite Hafter by (apply quiet_seesHook || reflexivity).
    apply app_nil_r.
  - unfold callbackCalls. rewrite Hafter by (apply quiet_seesCallback || reflexivity).
    apply app_nil_r.
Qed.

Lemma descending_S (n : nat) :
  Some (Z.of_nat (S n)) :: map (fun k => Some (Z.of_nat k)) (rev (seq 0 (S n)))
  = map (fun k => Some (Z.of_nat k)) (rev (seq 0 (S (S n)))).
Proof.
  rewrite (seq_S (S n) 0). rewrite rev_app_distr. reflexivity.
Qed.

(** A descriptor without a hook, with [n] retries and a callback, whose
    transport fails every time: [n + 1] calls of the transport with
    [n, ..., 1, 0] retries left, [n] timers of the retry interval between
    them, then the callback, once, with the last error and the descriptor;
    the cluster hears what the callback does with the capability. *)
Lemma failing_chain :
  (forall k o, exists e, got env k o = inl e) ->
  forall (n fuel : nat) (o : CrawlerOptions) (c : Crawler) (cb : Callback),
    retries o = Some (Z.of_nat n) ->
    preRequest o = None ->
    callback o = Some cb ->
    (n < fuel)%nat ->
    exists c' o' err,
      _execute env fuel o c = Some (Normal None, c') /\
      attempts (history c')
      = attempts (history c) ++ map (fun k => Some (Z.of_nat k)) (rev (seq 0 (S n))) /\
      timers (history c') = timers (history c) ++ repeat (retryInterval o) n /\
      hookCalls (history c') = hookCalls (history c) /\
      callbackCalls (history c')
      = callbackCalls (history c)
        ++ match cb with
           | UserCallback _ => [(Some err, errorResponse o')]
           | ReleaseCallback _ => []
           end /\
      calls (_limiters c') = calls (_limiters c) ++ releasesOf cb (release o) /\
      clusterOptions (_limiters c') = clusterOptions (_limiters c) /\
      got env (gotCalls c + n) o' = inl err /\
      retries o' = Some 0 /\
      url o' = url o /\ callback o' = callback o /\ release o' = release o.
Proof.
  intros Hfail n. induction n as [|n IH]; intros fuel o c cb Hret Hnone Hcb Hfuel;
    (destruct fuel as [|fuel]; [lia|]).
  - cbn [_execute]. destruct (prepare env o c) as [o1 c1] eqn:Hp.
    destruct (failed_request o c o1 c1 Hp)
      as ((H1 & H2 & H3 & H4 & H5 & H6 & H7) & Hlim & Hcount & Hatt & Htim & Hhook & Hcall).
    rewrite H1, Hnone. unfold request.
    destruct (Hfail (gotCalls (announce o1 c1)) o1) as [e He]. rewrite He.
    unfold _handler, retriesLeft. rewrite H5, Hret. cbn [Z.of_nat Z.ltb Z.compare].
    rewrite H2, Hcb.
    fold (afterFailure o1 c1).
    set (cE := log LError (afterFailure o1 c1)).
    exists (invokeCallback env cb (Some e) (errorResponse o1) (release o1) cE), o1, e.
    destruct (limiters_invokeCallback cb (Some e) (errorResponse o1) (release o1) cE)
      as [Hc Ho].
    split; [reflexivity|].
    unfold attempts, timers, hookCalls, callbackCalls in *.
    rewrite !observe_invokeCallback_blind
      by (first [apply quiet_seesGot | apply quiet_seesTimer | apply quiet_seesHook
                | reflexivity]).
    rewrite observe_invokeCallback by apply quiet_seesCallback.
    subst cE.
    rewrite !(observe_log _ LError)
      by (first [apply quiet_seesGot | apply quiet_seesTimer | apply quiet_seesHook
                | apply quiet_seesCallback]).
    rewrite Hatt, Htim, Hhook, Hcall, Hret, Hc, Ho, H3.
    assert (HlE : _limiters (log LError (afterFailure o1 c1)) = _limiters c) by exact Hlim.
    rewrite HlE. cbn [seesCallback repeat]. rewrite !app_nil_r.
    split; [|split; [|split; [|split; [|split; [|split; [|split; [|split;
      [|split; [|split]]]]]]]]]; try reflexivity; try congruence.
    + rewrite Nat.add_0_r, <- Hcount. exact He.
    + rewrite H5. exact Hret.
  - cbn [_execute]. destruct (prepare env o c) as [o1 c1] eqn:Hp.
    destruct (failed_request o c o1 c1 Hp)
      as ((H1 & H2 & H3 & H4 & H5 & H6 & H7) & Hlim & Hcount & Hatt & Htim & Hhook & Hcall).
    rewrite H1, Hnone. unfold request.
    destruct (Hfail (gotCalls (announce o1 c1)) o1) as [e He]. rewrite He.
    unfold _handler, retriesLeft. rewrite H5, Hret.
    assert (Hlt : (0 <? Z.of_nat (S n)) = true) by (apply Z.ltb_lt; lia).
    rewrite Hlt. fold (afterFailure o1 c1).
    set (o2 := set_retries (Z.pred <$> Some (Z.of_nat (S n))) o1).
    set (c2 := record (SetTimeout (retryInterval o1)) (log LWarn (afterFailure o1 c1))).
    assert (Ho2 : retries o2 = Some (Z.of_nat n) /\ preRequest o2 = preRequest o1 /\
                  callback o2 = callback o1 /\ release o2 = release o1 /\
                  retryInterval o2 = retryInterval o1 /\ url o2 = url o1).
    { subst o2. simpl. repeat split. f_equal. lia. }
    destruct Ho2 as (J1 & J2 & J3 & J4 & J5 & J6).
    destruct (IH fuel o2 c2 cb)
      as (c' & o' & err & Hex & Ia & It & Ih & Ic & Il & Io & Ig & Ir & Iu & Icb & Irel);
      [exact J1 | congruence | congruence | lia |].
    rewrite Hex. exists c', o', err. split; [reflexivity|].
    assert (Hc2 : forall A (f : Event -> list A),
               quiet f ->
               List.flat_map f (history c2)
               = List.flat_map f (history (afterFailure o1 c1))
                 ++ f (SetTimeout (retryInterval o1))).
    { intros A f Hq. subst c2. rewrite observe_record, observe_log by exact Hq.
      reflexivity. }
    assert (Hl2 : _limiters c2 = _limiters c) by exact Hlim.
    unfold gotCalls in *. unfold attempts, timers, hookCalls, callbackCalls in *.
    rewrite Ia, It, Ih, Ic, Il, Io, Hl2.
    rewrite (Hc2 _ seesGot quiet_seesGot), (Hc2 _ seesTimer quiet_seesTimer),
      (Hc2 _ seesHook quiet_seesHook), (Hc2 _ seesCallback quiet_seesCallback).
    rewrite Hatt, Htim, Hhook, Hcall, Hret.
    cbn [seesGot seesHook seesCallback seesTimer]. rewrite !app_nil_r.
    split; [|split; [|split; [|split; [|split; [|split; [|split; [|split;
      [|split; [|split]]]]]]]]].
    + rewrite <- app_assoc. f_equal. apply descending_S.
    + rewrite <- app_assoc. f_equal. rewrite J5, H6. reflexivity.
    + reflexivity.
    + reflexivity.
    + rewrite J4, H3. reflexivity.
    + reflexivity.
    + rewrite (Hc2 _ seesGot quiet_seesGot), Hatt in Ig.
      cbn [seesGot] in Ig. rewrite app_nil_r, length_app in Ig.
      cbn [length] in Ig.
      replace (length (List.flat_map seesGot (history c)) + S n)%nat
        with (length (List.flat_map seesGot (history c)) + 1 + n)%nat by lia.
      exact Ig.
    + exact Ir.
    + congruence.
    + congruence.
    + congruence.
Qed.

(** C1 (amended). A descriptor with 2 retries, no pre-request hook and a
    completion callback, whose transport fails every time, is handed to the
    transport exactly 3 times, with 2, 1 and 0 retries left, the retry
    timer running twice in between. After the third failure the callback
    is called once, with the last error and the descriptor, and is handed
    the release capability; [_handler] does not call the capability
    itself. The slot is released exactly once when the callback is the
    release capability (the default of [_schedule]) or a caller's callback
    that calls [done] once; in general it is released as often as the
    callback calls [done]. *)
Theorem exhausted_retries_reach_callback :
  (forall k o, exists e, got env k o = inl e) ->
  forall (fuel : nat) (o : CrawlerOptions) (c : Crawler) (cb : Callback),
    retries o = Some 2 ->
    preRequest o = None ->
    callback o = Some cb ->
    (2 < fuel)%nat ->
    exists c' o' err,
      _execute env fuel o c = Some (Normal None, c') /\
      attempts (history c') = attempts (history c) ++ [Some 2; Some 1; Some 0] /\
      timers (history c') = timers (history c) ++ [retryInterval o; retryInterval o] /\
      callbackCalls (history c')
      = callbackCalls (history c)
        ++ match cb with
           | UserCallback _ => [(Some err, errorResponse o')]
           | ReleaseCallback _ => []
           end /\
      got env (gotCalls c + 2) o' = inl err /\
      retries o' = Some 0 /\ url o' = url o /\
      callback o' = Some cb /\ release o' = release o /\
      calls (_limiters c') = calls (_limiters c) ++ releasesOf cb (release o) /\
      (forall limiter,
          release o = Some (mkRelease limiter) ->
          cb = ReleaseCallback (mkRelease limiter) \/ cb = UserCallback 1 ->
          doneCount c' = S (doneCount c) /\
          calls (_limiters c') = calls (_limiters c) ++ [Done limiter]).
Proof.
  intros Hfail fuel o c cb Hret Hnone Hcb Hfuel.
  destruct (failing_chain Hfail 2 fuel o c cb Hret Hnone Hcb Hfuel)
    as (c' & o' & err & Hex & Ha & Ht & _ & Hc & Hl & _ & Hg & Hr & Hu & Hcb' & Hrel).
  exists c', o', err.
  split; [exact Hex|]. split; [exact Ha|]. split; [exact Ht|]. split; [exact Hc|].
  split; [exact Hg|]. split; [exact Hr|]. split; [exact Hu|].
  split; [congruence|]. split; [exact Hrel|]. split; [exact Hl|].
  intros limiter Hlim Hcases.
  assert (Hone : releasesOf cb (release o) = [Done limiter]).
  { rewrite Hlim. destruct Hcases as [-> | ->]; reflexivity. }
  unfold doneCount. rewrite Hl, Hone. split; [|reflexivity].
  rewrite List.filter_app, length_app. simpl. lia.
Qed.

(** *** An error from the pre-request hook *)

(** C9 (amended). When the pre-request hook calls back with an error, the
    transport is not called in that execution and the error is handed to
    [_handler] exactly as an error of the transport is. [_handler] applies
    the retry policy to it: with retries left it sets the retry timer and
    runs [_execute], and so the hook, again; with none left it calls the
    completion callback with the error, the descriptor and the release
    capability, and the cluster hears what the callback does with the
    capability. *)
Theorem hook_error_goes_to_handler :
  forall (fuel : nat) (o : CrawlerOptions) (c : Crawler) (o1 : CrawlerOptions)
         (c1 : Crawler) (hook : nat) (o' : CrawlerOptions) (err : JsError),
    prepare env o c = (o1, c1) ->
    preRequest o1 = Some hook ->
    preRequestFn env hook o1 = HookNext o' (Some err) ->
    let c2 := log LDebug (record (PreRequestCall hook) c1) in
    _execute env (S fuel) o c
    = match _handler env (_execute env fuel) (Some err) o' None c2 with
      | Some (out, c3) => Some (Normal None, unhandled out c3)
      | None => None
      end /\
    attempts (history c2) = attempts (history c) /\
    hookCalls (history c2) = hookCalls (history c) ++ [hook] /\
    _limiters c2 = _limiters c /\
    (forall exec o3 c3,
        got env (gotCalls (announce o3 c3)) o3 = inl err ->
        request env exec o3 c3 = _handler env exec (Some err) o3 None (afterFailure o3 c3)) /\
    (retriesLeft o' = false ->
     forall cb,
       callback o' = Some cb ->
       let c3 := invokeCallback env cb (Some err) (errorResponse o') (release o')
                   (log LError c2) in
       _execute env (S fuel) o c = Some (Normal None, c3) /\
       attempts (history c3) = attempts (history c) /\
       timers (history c3) = timers (history c) /\
       calls (_limiters c3) = calls (_limiters c) ++ releasesOf cb (release o')) /\
    (retriesLeft o' = true ->
     forall out c4,
       _execute env fuel (set_retries (Z.pred <$> retries o') o')
         (record (SetTimeout (retryInterval o')) (log LWarn c2)) = Some (out, c4) ->
       _execute env (S fuel) o c = Some (Normal None, unhandled out c4)).
Proof.
  intros fuel o c o1 c1 hook o' err Hp Hhook Hfn c2.
  destruct (prepare_spec o c) as (_ & Hlim & _).
  pose proof (fun A (f : Event -> list A) => observe_prepare f o c) as Hobs.
  rewrite Hp in Hlim, Hobs. simpl in Hlim, Hobs.
  assert (Hc2 : forall A (f : Event -> list A),
             quiet f ->
             List.flat_map f (history c2)
             = List.flat_map f (history c) ++ f (PreRequestCall hook)).
  { intros A f Hq. subst c2. rewrite observe_log, observe_record by exact Hq.
    rewrite Hobs by exact Hq. reflexivity. }
  assert (Hexec : _execute env (S fuel) o c
                  = match _handler env (_execute env fuel) (Some err) o' None c2 with
                    | Some (out, c3) => Some (Normal None, unhandled out c3)
                    | None => None
                    end).
  { cbn [_execute]. rewrite Hp, Hhook, Hfn. reflexivity. }
  split; [exact Hexec|].
  split; [unfold attempts; rewrite Hc2 by apply quiet_seesGot; apply app_nil_r|].
  split; [unfold hookCalls; rewrite Hc2 by apply quiet_seesHook; reflexivity|].
  split; [exact Hlim|].
  split; [|split].
  - intros exec o3 c3 Hgot. unfold request. rewrite Hgot. reflexivity.
  - intros Hleft cb Hcb c3.
    assert (H3 : _handler env (_execute env fuel) (Some err) o' None c2
                 = Some (Normal None, c3)).
    { unfold _handler. rewrite Hleft, Hcb. reflexivity. }
    rewrite Hexec, H3. split; [reflexivity|].
    destruct (limiters_invokeCallback cb (Some err) (errorResponse o') (release o')
                (log LError c2)) as [Hc _].
    subst c3. unfold attempts, timers.
    rewrite !observe_invokeCallback_blind
      by (first [apply quiet_seesGot | apply quiet_seesTimer | reflexivity]).
    rewrite !observe_log by (apply quiet_seesGot || apply quiet_seesTimer).
    rewrite !Hc2 by (apply quiet_seesGot || apply quiet_seesTimer).
    rewrite Hc. simpl. rewrite !app_nil_r.
    repeat split. f_equal. exact (f_equal calls Hlim).
  - intros Hleft out c4 Hrun. rewrite Hexec. unfold _handler.
    rewrite Hleft, Hrun. reflexivity.
Qed.

End Properties.

(** * Further properties: [options.ts] *)

Section CharsetProperties.

Lemma toLowerCase_idem a : Regex.toLowerCase (Regex.toLowerCase a) = Regex.toLowerCase a.
Proof. destruct a as [[] [] [] [] [] [] [] []]; reflexivity. Qed.

Lemma isCharsetChar_lower a :
  Regex.isCharsetChar (Regex.toLowerCase a) = Regex.isCharsetChar a.
Proof. destruct a as [[] [] [] [] [] [] [] []]; reflexivity. Qed.

Lemma isQuote_lower a : Regex.isQuote (Regex.toLowerCase a) = Regex.isQuote a.
Proof. destruct a as [[] [] [] [] [] [] [] []]; reflexivity. Qed.

Lemma lowerString_cons a s :
  Regex.lowerString (String a s) = String (Regex.toLowerCase a) (Regex.lowerString s).
Proof. reflexivity. Qed.

Lemma lowerString_idem s : Regex.lowerString (Regex.lowerString s) = Regex.lowerString s.
Proof.
  induction s as [|a s IH]; [reflexivity|].
  rewrite !lowerString_cons, toLowerCase_idem, IH. reflexivity.
Qed.

Lemma stripPrefixCI_lower p s :
  Regex.stripPrefixCI p (Regex.lowerString s)
  = Regex.lowerString <$> Regex.stripPrefixCI p s.
Proof.
  revert s. induction p as [|a p IH]; intros s; [reflexivity|].
  destruct s as [|b s]; [reflexivity|].
  rewrite lowerString_cons. simpl. rewrite toLowerCase_idem.
  destruct (Ascii.eqb _ _); [apply IH | reflexivity].
Qed.

Lemma takeCharset_lower s :
  Regex.takeCharset (Regex.lowerString s) = Regex.lowerString (Regex.takeCharset s).
Proof.
  induction s as [|a s IH]; [reflexivity|].
  rewrite lowerString_cons. simpl. rewrite isCharsetChar_lower.
  destruct (Regex.isCharsetChar a); [|reflexivity].
  rewrite lowerString_cons, IH. reflexivity.
Qed.

Lemma charsetAt_lower s :
  Regex.charsetAt (Regex.lowerString s) = Regex.lowerString <$> Regex.charsetAt s.
Proof.
  unfold Regex.charsetAt. rewrite stripPrefixCI_lower.
  destruct (Regex.stripPrefixCI "charset=" s) as [rest|]; [|reflexivity]. simpl.
  assert (Hrun : forall t,
             match Regex.takeCharset (Regex.lowerString t) with
             | EmptyString => None
             | String a r => Some (String a r)
             end
             = Regex.lowerString <$> match Regex.takeCharset t with
                                     | EmptyString => None
                                     | String a r => Some (String a r)
                                     end).
  { intros t. rewrite takeCharset_lower. destruct (Regex.takeCharset t); reflexivity. }
  destruct rest as [|q r]; [reflexivity|].
  rewrite lowerString_cons, isQuote_lower.
  destruct (Regex.isQuote q); [apply Hrun|].
  rewrite <- lowerString_cons. apply Hrun.
Qed.

Lemma matchCharset_lower s :
  Regex.matchCharset (Regex.lowerString s) = Regex.lowerString <$> Regex.matchCharset s.
Proof.
  induction s as [|a s IH].
  - reflexivity.
  - rewrite lowerString_cons. cbn [Regex.matchCharset].
    rewrite <- lowerString_cons, charsetAt_lower.
    destruct (Regex.charsetAt (String a s)); [reflexivity|]. simpl.
    rewrite <- IH. reflexivity.
Qed.

Lemma eqb_empty_lower s : String.eqb (Regex.lowerString s) "" = String.eqb s "".
Proof. destruct s; reflexivity. Qed.

(** X1. The charset that [getCharset] reads from a content type does not
    depend on the case of the letters [A] to [Z] in the header value:
    putting them in lower case, and leaving every other character as it
    is, gives the same charset. The keyword is matched without regard to
    the case of these letters and the name, which is made of
    [[\w.-]], comes back in lower case. *)
Theorem getCharset_ignores_case :
  forall (headers : gmap string string) (contentType : string),
    getCharset (<["content-type"%string := Regex.lowerString contentType]> headers)
    = getCharset (<["content-type"%string := contentType]> headers) /\
    declaredCharset (Regex.lowerString contentType) = declaredCharset contentType.
Proof.
  intros headers contentType.
  assert (H : declaredCharset (Regex.lowerString contentType) = declaredCharset contentType).
  { unfold declaredCharset. rewrite matchCharset_lower.
    destruct (Regex.matchCharset contentType); [|reflexivity].
    simpl. rewrite lowerString_idem. reflexivity. }
  split; [|exact H].
  unfold getCharset. rewrite !lookup_insert_eq, eqb_empty_lower, H. reflexivity.
Qed.

Lemma takeCharset_all s :
  forallb Regex.isCharsetChar (list_ascii_of_string (Regex.takeCharset s)) = true.
Proof.
  induction s as [|a s IH]; [reflexivity|]. simpl.
  destruct (Regex.isCharsetChar a) eqn:Ha; [|reflexivity].
  simpl. rewrite Ha. exact IH.
Qed.

Lemma charsetAt_shape s m :
  Regex.charsetAt s = Some m ->
  m <> ""%string /\ forallb Regex.isCharsetChar (list_ascii_of_string m) = true.
Proof.
  unfold Regex.charsetAt. destruct (Regex.stripPrefixCI "charset=" s) as [rest|]; [|discriminate].
  destruct (Regex.takeCharset _) as [|a r] eqn:Hrun; [discriminate|].
  intros H. injection H as <-. split; [discriminate|].
  rewrite <- Hrun. apply takeCharset_all.
Qed.

Lemma matchCharset_shape s m :
  Regex.matchCharset s = Some m ->
  m <> ""%string /\ forallb Regex.isCharsetChar (list_ascii_of_string m) = true.
Proof.
  induction s as [|a s IH]; cbn [Regex.matchCharset].
  - destruct (Regex.charsetAt "") eqn:H; [|discriminate].
    intros Hm. injection Hm as <-. eapply charsetAt_shape, H.
  - destruct (Regex.charsetAt (String a s)) eqn:H; [|exact IH].
    intros Hm. injection Hm as <-. eapply charsetAt_shape, H.
Qed.

Lemma lower_isLowerCharsetChar a :
  Regex.isCharsetChar a = true -> isLowerCharsetChar (Regex.toLowerCase a) = true.
Proof.
  unfold isLowerCharsetChar. intros H.
  rewrite isCharsetChar_lower, H, toLowerCase_idem. simpl. apply Ascii.eqb_refl.
Qed.

(** X2. A charset that [getCharset] returns is never empty and holds only
    lower-case letters, digits, [_], [.] and [-]: it can be handed to the
    decoder as it is, and it is truthy, so that the test of line 226 tells
    a declared charset from none. *)
Theorem getCharset_shape :
  forall (headers : gmap string string) (charset : string),
    getCharset headers = Some charset ->
    charset <> ""%string /\
    forallb isLowerCharsetChar (list_ascii_of_string charset) = true.
Proof.
  intros headers charset. unfold getCharset.
  destruct (headers !! "content-type"%string) as [contentType|]; [|discriminate].
  destruct (String.eqb contentType ""); [discriminate|].
  unfold declaredCharset.
  destruct (Regex.matchCharset contentType) as [m|] eqn:Hm; [|discriminate].
  simpl. intros H. injection H as <-.
  destruct (matchCharset_shape _ _ Hm) as [Hne Hall].
  split.
  - destruct m; [congruence | discriminate].
  - clear Hm Hne. induction m as [|a m IH]; [reflexivity|].
    simpl in Hall. apply andb_true_iff in Hall. destruct Hall as [Ha Hall].
    rewrite lowerString_cons. simpl.
    rewrite (lower_isLowerCharsetChar a Ha). apply IH, Hall.
Qed.









End CharsetProperties.

Section CharsetPriority.

Variable env : Env.


End CharsetPriority.

Section OptionObjectProperties.

Lemma get_insert_eq (o : gmap string Value) key value : get (<[key := value]> o) key = value.
Proof. unfold get. rewrite lookup_insert_eq. reflexivity. Qed.

Lemma get_insert_ne (o : gmap string Value) key key' value :
  key <> key' -> get (<[key := value]> o) key' = get o key'.
Proof. intros H. unfold get. rewrite lookup_insert_ne by exact H. reflexivity. Qed.

Lemma nullish_absorb a b : nullish a (nullish a b) = nullish a b.
Proof. destruct a; reflexivity. Qed.

Lemma nullish_absorb3 a b c :
  nullish a (nullish b (nullish a (nullish b c))) = nullish a (nullish b c).
Proof. destruct a, b; reflexivity. Qed.

Ltac get_through :=
  repeat first
    [ rewrite get_insert_eq
    | rewrite get_insert_ne by discriminate ].

(** X3. Renaming the deprecated option names twice gives what renaming
    them once gives. *)
Theorem renameOptionParams_idempotent :
  forall (options : option (gmap string Value)),
    match renameOptionParams options with
    | Some renamed => renameOptionParams (Some renamed) = Some renamed
    | None => options = None
    end.
Proof.
  intros [options|]; [|reflexivity].
  cbn [renameOptionParams]. f_equal.
  get_through. rewrite !nullish_absorb, nullish_absorb3.
  repeat (rewrite insert_id;
          [|rewrite ?lookup_insert_ne by discriminate; apply lookup_insert_eq]).
  reflexivity.
Qed.

(** X4. [renameOptionParams] leaves every property other than the eleven
    new names as it was; a deprecated name that holds a value gives it to
    the name that replaces it, whatever that one held; and when no
    deprecated name holds a value, every property reads as before. *)
Theorem renameOptionParams_frame :
  forall (options : gmap string Value),
  exists renamed,
    renameOptionParams (Some options) = Some renamed /\
    (forall key, key ∉ renamedNames -> renamed !! key = options !! key) /\
    Forall (fun '(old, new) =>
              isNullish (get options old) = false -> get renamed new = get options old)
           renames /\
    (Forall (fun old => isNullish (get options old) = true) oldNames ->
     forall key, get renamed key = get options key).
Proof.
  intros options. eexists. split; [reflexivity|]. split; [|split].
  - intros key Hkey. unfold renamedNames in Hkey.
    repeat (apply not_elem_of_cons in Hkey as [? Hkey]).
    rewrite !lookup_insert_ne by congruence. reflexivity.
  - repeat constructor; intros H; get_through;
      match goal with
      | |- nullish ?a _ = _ => destruct a; (discriminate || reflexivity)
      end.
  - intros Hold key. unfold oldNames in Hold.
    repeat (apply Forall_cons in Hold as [? Hold]).
    repeat match goal with
           | H : isNullish ?v = true |- _ =>
               assert (forall b, nullish v b = b) by (intros b; destruct v; (discriminate || reflexivity));
               clear H
           end.
    repeat (match goal with
            | |- get (<[?k := _]> _) key = _ =>
                destruct (decide (k = key)) as [<- | ?];
                [get_through; congruence | rewrite get_insert_ne by assumption]
            end).
    reflexivity.
Qed.

Section AlignOptions.

Variable helpers : Helpers.

Lemma Normal_inj {A} (a b : A) : Normal a = Normal b -> a = b.
Proof. congruence. Qed.

Lemma lookup_deleteAll (keys : list string) (o : gmap string Value) key :
  foldr delete o keys !! key = if bool_decide (key ∈ keys) then None else o !! key.
Proof.
  induction keys as [|k keys IH]; simpl; [reflexivity|].
  destruct (decide (k = key)) as [<- | Hne].
  - rewrite lookup_delete_eq, bool_decide_eq_true_2; [reflexivity | left].
  - rewrite lookup_delete_ne by exact Hne. rewrite IH.
    destruct (bool_decide (key ∈ keys)) eqn:Hin.
    + apply bool_decide_eq_true in Hin. rewrite bool_decide_eq_true_2; [reflexivity|].
      right. exact Hin.
    + apply bool_decide_eq_false in Hin. rewrite bool_decide_eq_false_2; [reflexivity|].
      intros Hkey. apply elem_of_cons in Hkey as [-> | Hkey]; [congruence | auto].
Qed.

Lemma alignHttps_lookup options gotOptions aligned key :
  alignHttps options gotOptions = Normal aligned ->
  key <> "https"%string ->
  aligned !! key = gotOptions !! key.
Proof.
  unfold alignHttps. intros H Hkey.
  destruct (get options "rejectUnauthorized");
    try (injection H as <-; reflexivity);
    (destruct (get gotOptions "https");
     simpl in H; try discriminate; injection H as <-;
     rewrite lookup_insert_ne by congruence; reflexivity).
Qed.

Lemma alignAgent_lookup options gotOptions agent aligned key :
  alignAgent helpers options gotOptions agent = Normal aligned ->
  key <> "agent"%string ->
  aligned !! key = gotOptions !! key.
Proof.
  unfold alignAgent. intros H Hkey.
  destruct (_ && _).
  - destruct (get options "proxy") as [| | b | n | proxy | class arg | fields];
      try discriminate.
    destruct (Origin.stripPrefix "https" proxy);
      [destruct (Http2OverHttps helpers _) | destruct (Http2OverHttp helpers _)];
      simpl in H; try discriminate; injection H as <-;
      rewrite lookup_insert_ne by congruence; reflexivity.
  - injection H as <-. rewrite lookup_insert_ne by congruence. reflexivity.
Qed.

Lemma alignOptions_inv options g :
  alignOptions helpers options = Normal g ->
  exists aligned headers,
    (forall key,
        key <> "timeout"%string -> key <> "https"%string -> key <> "agent"%string ->
        aligned !! key = options !! key) /\
    alignReferer options
      (<["headers" := savedHeaders helpers (get (beforeClean aligned) "headers")]>
         (cleanObject helpers (beforeClean aligned)))
      (savedHeaders helpers (get (beforeClean aligned) "headers")) = Normal headers /\
    g = <["retry" := JObject {[ "limit"%string := JNum 0 ]}]>
          (<["headers" := headers]>
             (<["headers" := savedHeaders helpers (get (beforeClean aligned) "headers")]>
                (cleanObject helpers (beforeClean aligned)))).
Proof.
  unfold alignOptions. intros H.
  destruct (alignHttps options _) as [g1|] eqn:H1; [|discriminate].
  cbn [andThen] in H.
  destruct (defaultagent helpers options) as [agent|]; [|discriminate].
  cbn [andThen] in H.
  destruct (alignAgent helpers options g1 agent) as [g2|] eqn:H2; [|discriminate].
  cbn [andThen] in H. fold (beforeClean g2) in H.
  destruct (alignReferer options _ _) as [headers|] eqn:H3; [|discriminate].
  cbn [andThen] in H. apply Normal_inj in H. subst g.
  exists g2, headers. split; [|split; [exact H3 | reflexivity]].
  intros key Ht Hh Ha.
  rewrite (alignAgent_lookup _ _ _ _ key H2 Ha), (alignHttps_lookup _ _ _ key H1 Hh).
  apply lookup_insert_ne. congruence.
Qed.

Lemma beforeClean_lookup aligned key :
  key <> "responseType"%string ->
  beforeClean aligned !! key
  = if bool_decide (key ∈ crawlerOnlyOptions ++ deprecatedOptions) then None
    else aligned !! key.
Proof.
  intros Hkey. unfold beforeClean, deleteInvalid. rewrite lookup_deleteAll.
  destruct (bool_decide _); [reflexivity|].
  apply lookup_insert_ne. congruence.
Qed.

(** X5. What [alignOptions] returns for got holds none of the options that
    only the crawler understands and none of the deprecated names (so not
    [proxy], [retries], [callback], [uri], ...), provided [cleanObject] adds
    no property; and [retry] is [{ limit: 0 }]: got never retries on its
    own. *)
Theorem alignOptions_strips_crawler_options :
  forall (options g : gmap string Value),
    onlyRemoves (cleanObject helpers) ->
    alignOptions helpers options = Normal g ->
    (forall key, key ∈ crawlerOnlyOptions ++ deprecatedOptions -> g !! key = None) /\
    g !! "retry"%string = Some (JObject {[ "limit"%string := JNum 0 ]}).
Proof.
  intros options g Hclean H.
  destruct (alignOptions_inv options g H) as (aligned & headers & _ & _ & ->).
  split; [|apply lookup_insert_eq].
  intros key Hkey.
  assert (Hretry : "retry"%string ∉ crawlerOnlyOptions ++ deprecatedOptions)
    by (apply (bool_decide_unpack _); vm_compute; exact I).
  assert (Hheaders : "headers"%string ∉ crawlerOnlyOptions ++ deprecatedOptions)
    by (apply (bool_decide_unpack _); vm_compute; exact I).
  assert (Hrt : "responseType"%string ∉ crawlerOnlyOptions ++ deprecatedOptions)
    by (apply (bool_decide_unpack _); vm_compute; exact I).
  rewrite !lookup_insert_ne by (intros <-; contradiction).
  apply Hclean. rewrite beforeClean_lookup by (intros ->; contradiction).
  rewrite bool_decide_eq_true_2 by exact Hkey. reflexivity.
Qed.

Lemma beforeClean_keeps (options aligned : gmap string Value) key :
  (forall key,
      key <> "timeout"%string -> key <> "https"%string -> key <> "agent"%string ->
      aligned !! key = options !! key) ->
  bool_decide (key ∈ ["timeout"; "https"; "agent"; "responseType"]%string
                       ++ crawlerOnlyOptions ++ deprecatedOptions) = false ->
  beforeClean aligned !! key = options !! key.
Proof.
  intros Haligned Hkey. apply bool_decide_eq_false in Hkey.
  apply not_elem_of_app in Hkey as [Hkey Hvalid].
  rewrite !not_elem_of_cons in Hkey. destruct Hkey as (Ht & Hh & Ha & Hr & _).
  rewrite beforeClean_lookup by exact Hr.
  rewrite bool_decide_eq_false_2 by exact Hvalid.
  apply Haligned; assumption.
Qed.

(** X6. The [referer] that got receives, when [options.headers] is an
    object: the one of the headers when it is truthy; else [options.referer]
    when that is truthy; else the origin (scheme, [://], host) of a string
    [url], and no referer when the url has no origin. The headers are
    otherwise the caller's, as [cleanObject] left them. *)
Theorem alignOptions_referer_precedence :
  forall (options h g : gmap string Value),
    options !! "headers"%string = Some (JObject h) ->
    alignOptions helpers options = Normal g ->
    let headers := cleanedInPlace helpers h in
    (truthy (get headers "referer") = true ->
     g !! "headers"%string = Some (JObject headers)) /\
    (truthy (get headers "referer") = false ->
     truthy (get options "referer") = true ->
     g !! "headers"%string
     = Some (JObject (<["referer" := get options "referer"]> headers))) /\
    (truthy (get headers "referer") = false ->
     truthy (get options "referer") = false ->
     keepsUrl (cleanObject helpers) ->
     forall url,
       options !! "url"%string = Some (JStr url) ->
       g !! "headers"%string
       = Some (JObject match Origin.matchOrigin url with
                       | Some origin => <["referer" := JStr origin]> headers
                       | None => headers
                       end)).
Proof.
  intros options h g Hheaders H headers.
  destruct (alignOptions_inv options g H) as (aligned & headers' & Haligned & Href & ->).
  rewrite lookup_insert_ne by discriminate. rewrite lookup_insert_eq.
  assert (Hsaved : savedHeaders helpers (get (beforeClean aligned) "headers")
                   = JObject headers).
  { unfold get. rewrite (beforeClean_keeps options) by (exact Haligned || reflexivity).
    rewrite Hheaders. reflexivity. }
  rewrite Hsaved in Href. unfold alignReferer in Href. cbn [getProperty andThen] in Href.
  repeat split.
  - intros Hown. rewrite Hown in Href. congruence.
  - intros Hown Hgiven. rewrite Hown, Hgiven in Href. simpl in Href. congruence.
  - intros Hown Hgiven Hclean url Hurl. rewrite Hown, Hgiven in Href.
    unfold get at 1 in Href. rewrite lookup_insert_ne in Href by discriminate.
    rewrite (Hclean _ url) in Href.
    + simpl in Href. destruct (Origin.matchOrigin url); simpl in Href; congruence.
    + rewrite (beforeClean_keeps options) by (exact Haligned || reflexivity).
      exact Hurl.
Qed.

(** X7. [alignOptions] throws for options without headers ([undefined] or
    [null]): the referer is read from them. The crawler fills the headers
    in before it calls [alignOptions]; a caller of the exported function
    has to. *)
Theorem alignOptions_needs_headers :
  forall (options : gmap string Value),
    isNullish (get options "headers") = true ->
    exists error, alignOptions helpers options = Throw error.
Proof.
  intros options Hheaders.
  destruct (alignOptions helpers options) as [g|error] eqn:H; [|eauto].
  exfalso.
  destruct (alignOptions_inv options g H) as (aligned & headers' & Haligned & Href & _).
  assert (Hsaved : get (beforeClean aligned) "headers" = get options "headers").
  { unfold get. rewrite (beforeClean_keeps options) by (exact Haligned || reflexivity).
    reflexivity. }
  rewrite Hsaved in Href. unfold alignReferer in Href.
  destruct (get options "headers"); try discriminate Hheaders; discriminate Href.
Qed.

(** X8. [alignOptions] throws for options that have neither a [url] nor a
    truthy referer, in the headers or as an option: the origin is then
    matched on an [undefined] url. With the crawler this is the request
    whose [url] and [uri] are both missing: it fails before got is called. *)
Theorem alignOptions_needs_url_or_referer :
  forall (options h : gmap string Value),
    onlyRemoves (cleanObject helpers) ->
    options !! "headers"%string = Some (JObject h) ->
    truthy (get (cleanedInPlace helpers h) "referer") = false ->
    truthy (get options "referer") = false ->
    options !! "url"%string = None ->
    exists error, alignOptions helpers options = Throw error.
Proof.
  intros options h Hclean Hheaders Hown Hgiven Hurl.
  destruct (alignOptions helpers options) as [g|error] eqn:H; [|eauto].
  exfalso.
  destruct (alignOptions_inv options g H) as (aligned & headers' & Haligned & Href & _).
  assert (Hsaved : savedHeaders helpers (get (beforeClean aligned) "headers")
                   = JObject (cleanedInPlace helpers h)).
  { unfold get. rewrite (beforeClean_keeps options) by (exact Haligned || reflexivity).
    rewrite Hheaders. reflexivity. }
  rewrite Hsaved in Href. unfold alignReferer in Href. cbn [getProperty andThen] in Href.
  rewrite Hown, Hgiven in Href.
  unfold get at 1 in Href. rewrite lookup_insert_ne in Href by discriminate.
  rewrite Hclean in Href; [discriminate|].
  rewrite (beforeClean_keeps options) by (exact Haligned || reflexivity).
  exact Hurl.
Qed.

End AlignOptions.

Section OriginProperties.

Lemma word_app (scheme rest : string) :
  forallb Regex.isWord (list_ascii_of_string scheme) = true ->
  match rest with
  | String a _ => Regex.isWord a = false
  | EmptyString => True
  end ->
  Origin.word (scheme +:+ rest) = (scheme, rest).
Proof.
  intros Hscheme Hrest. induction scheme as [|a scheme IH]; simpl in *.
  - destruct rest as [|b rest]; [reflexivity|]. simpl. rewrite Hrest. reflexivity.
  - apply andb_prop in Hscheme as [Ha Hscheme]. rewrite Ha, (IH Hscheme). reflexivity.
Qed.

Lemma untilSlash_app (host rest : string) :
  forallb (fun a => negb (Ascii.eqb a "/")) (list_ascii_of_string host) = true ->
  rest = ""%string \/ (exists path, rest = String "/" path) ->
  Origin.untilSlash (host +:+ rest) = host.
Proof.
  intros Hhost Hrest. induction host as [|a host IH]; simpl in *.
  - destruct Hrest as [-> | [path ->]]; reflexivity.
  - apply andb_prop in Hhost as [Ha Hhost]. rewrite (IH Hhost).
    destruct (Ascii.eqb a "/") eqn:Heq; [discriminate|].
    destruct (Regex.code a =? 47)%nat eqn:Hcode; [|reflexivity].
    apply Nat.eqb_eq in Hcode. unfold Regex.code in Hcode.
    apply (f_equal ascii_of_nat) in Hcode. rewrite ascii_nat_embedding in Hcode.
    subst a. discriminate.
Qed.

(** X9. The expression of line 160 finds the origin of a url: for a url
    made of a scheme of word characters, [://], a host without a slash and
    then nothing or a path that starts with a slash, the match is the
    scheme, [://] and the host; this is the referer that [alignOptions]
    fills in. *)
Theorem matchOrigin_is_the_origin :
  forall (scheme host rest : string),
    scheme <> ""%string ->
    forallb Regex.isWord (list_ascii_of_string scheme) = true ->
    host <> ""%string ->
    forallb (fun a => negb (Ascii.eqb a "/")) (list_ascii_of_string host) = true ->
    rest = ""%string \/ (exists path, rest = String "/" path) ->
    Origin.matchOrigin (scheme +:+ "://" +:+ host +:+ rest)
    = Some (scheme +:+ "://" +:+ host).
Proof.
  intros scheme host rest Hscheme Hword Hhost Hslash Hrest.
  unfold Origin.matchOrigin. rewrite word_app; [|exact Hword|reflexivity].
  destruct scheme as [|a scheme]; [congruence|].
  change ("://" +:+ host +:+ rest)
    with (String ":" (String "/" (String "/" (host +:+ rest)))).
  cbn [Origin.stripPrefix Ascii.eqb Bool.eqb].
  rewrite untilSlash_app by assumption.
  destruct host; [congruence | reflexivity].
Qed.

End OriginProperties.

End OptionObjectProperties.

(** * Further properties: the crawler *)

Section CrawlerProperties.

Variable env : Env.

Local Arguments _handler : simpl never.
Local Arguments request : simpl never.
Local Arguments prepare : simpl never.
Local Arguments handleResponse : simpl never.
Local Arguments invokeCallback : simpl never.

Lemma retryBudget_left o :
  retriesLeft o = true ->
  retryBudget o = S (retryBudget (set_retries (Z.pred <$> retries o) o)).
Proof.
  unfold retriesLeft, retryBudget. simpl. destruct (retries o) as [n|]; [|discriminate].
  simpl. intros H. apply Z.ltb_lt in H. lia.
Qed.

Lemma countdown_cons retries first count :
  countdown retries first (S count)
  = ((fun n => n - Z.of_nat first) <$> retries) :: countdown retries (S first) count.
Proof. reflexivity. Qed.

Lemma countdown_first retries count :
  countdown retries 0 (S count) = retries :: countdown retries 1 count.
Proof.
  rewrite countdown_cons. f_equal. destruct retries; simpl; f_equal. lia.
Qed.

Lemma countdown_pred retries first count :
  countdown (Z.pred <$> retries) first count = countdown retries (S first) count.
Proof.
  unfold countdown. rewrite <- seq_shift, map_map. apply map_ext. intros i.
  destruct retries as [n|]; [|reflexivity]. simpl. f_equal. lia.
Qed.

Lemma prepare_control o c o1 c1 :
  prepare env o c = (o1, c1) ->
  sameControl o o1 /\ _limiters c1 = _limiters c /\ options c1 = options c /\
  forall A (f : Event -> list A),
    quiet f -> List.flat_map f (history c1) = List.flat_map f (history c).
Proof.
  intros Hp. destruct (prepare_spec env o c) as (Hsame & Hlim & Hopt & _).
  rewrite Hp in Hsame, Hlim, Hopt. simpl in Hsame, Hlim, Hopt.
  repeat split; try assumption; try apply Hsame.
  intros A f Hq. pose proof (observe_prepare env f o c Hq) as Hobs.
  rewrite Hp in Hobs. exact Hobs.
Qed.

Lemma observe_request_event o c :
  List.flat_map (seesEmit "request") (history (announce o c))
  = List.flat_map (seesEmit "request") (history c)
    ++ if isTrue (skipEventRequest o) then [] else ["request"%string].
Proof.
  unfold announce.
  destruct (isTrue (skipEventRequest o)); [symmetry; apply app_nil_r|].
  unfold emit. rewrite observe_record. reflexivity.
Qed.

Lemma runs_attempts ph o c out c' :
  Runs env ph o c out c' ->
  preRequest o = None ->
  exists k,
    (k <= retryBudget o)%nat /\
    let first := match ph with AtFailure _ => 1%nat | _ => 0%nat end in
    let count := match ph with AtFailure _ => k | _ => S k end in
    attempts (history c') = attempts (history c) ++ countdown (retries o) first count /\
    timers (history c') = timers (history c) ++ repeat (retryInterval o) k /\
    notifications "request" (history c')
    = notifications "request" (history c)
      ++ if isTrue (skipEventRequest o) then [] else repeat "request"%string count.
Proof.
  intros Hrun.
  induction Hrun as
    [ o c o1 c1 out c' Hp Hhook _ IH
    | o c o1 c1 hook o' out c' Hp Hhook _ _ _
    | o c o1 c1 hook o' err out c' Hp Hhook _ _ _
    | o c o1 c1 hook e Hp Hhook _
    | o c o1 c1 hook Hp Hhook _
    | o c response _
    | o c error out c' _ _ IH
    | error o c out c' Hleft _ IH
    | error o c cb _ _
    | error o c _ _ ];
    intros Hnone;
    try (exfalso; destruct (prepare_control _ _ _ _ Hp) as ((Hpre & _) & _); congruence).
  - destruct (prepare_control _ _ _ _ Hp)
      as ((_ & _ & _ & Hskip & Hret & Hint & _) & _ & _ & Hobs).
    destruct (IH Hhook) as (k & Hk & Ha & Ht & Hn). exists k.
    unfold retryBudget in *. rewrite Hret, Hint, Hskip in *.
    unfold attempts, timers, notifications in *.
    rewrite (Hobs _ seesGot quiet_seesGot) in Ha.
    rewrite (Hobs _ seesTimer quiet_seesTimer) in Ht.
    rewrite (Hobs _ (seesEmit "request") quiet_seesRequest) in Hn.
    auto.
  - exists 0%nat. split; [lia|]. cbv zeta.
    unfold attempts, timers, notifications.
    rewrite !observe_handleResponse
      by (try apply quiet_seesGot; try apply quiet_seesTimer; try apply quiet_seesRequest;
          reflexivity).
    rewrite !observe_record.
    rewrite observe_request_event.
    rewrite !observe_announce by (left; reflexivity).
    rewrite countdown_first.
    destruct (encoding o); destruct (isTrue (skipEventRequest o));
      simpl; rewrite ?app_nil_r; auto.
  - destruct (IH Hnone) as (k & Hk & Ha & Ht & Hn). exists k. split; [exact Hk|].
    cbv zeta in *. rewrite Ha, Ht, Hn. unfold attempts, timers, notifications.
    rewrite !observe_log
      by (try apply quiet_seesGot; try apply quiet_seesTimer; try apply quiet_seesRequest).
    rewrite !observe_record.
    rewrite observe_request_event.
    rewrite !observe_announce by (left; reflexivity).
    rewrite countdown_first. simpl (seesGot _). simpl (seesTimer _). simpl (seesEmit _ _).
    rewrite !app_nil_r, <- !app_assoc.
    destruct (isTrue (skipEventRequest o)); auto.
  - destruct IH as (k & Hk & Ha & Ht & Hn); [exact Hnone|]. exists (S k).
    rewrite (retryBudget_left o Hleft). split; [lia|].
    cbv zeta in *. unfold attempts, timers, notifications in *.
    rewrite !observe_unhandled
      by (try apply quiet_seesGot; try apply quiet_seesTimer; try apply quiet_seesRequest).
    rewrite Ha, Ht, Hn. rewrite !observe_record.
    rewrite !observe_log
      by (try apply quiet_seesGot; try apply quiet_seesTimer; try apply quiet_seesRequest).
    simpl (retries _). simpl (retryInterval _). simpl (skipEventRequest _).
    rewrite countdown_pred. simpl (seesGot _). simpl (seesTimer _). simpl (seesEmit _ _).
    rewrite !app_nil_r, <- !app_assoc. auto.
  - exists 0%nat. split; [lia|]. cbv zeta. unfold attempts, timers, notifications.
    rewrite !observe_invokeCallback_blind
      by (try apply quiet_seesGot; try apply quiet_seesTimer; try apply quiet_seesRequest;
          reflexivity).
    rewrite !observe_log
      by (try apply quiet_seesGot; try apply quiet_seesTimer; try apply quiet_seesRequest).
    destruct (isTrue (skipEventRequest o)); simpl; rewrite ?app_nil_r; auto.
  - exists 0%nat. split; [lia|]. cbv zeta. unfold attempts, timers, notifications.
    rewrite !observe_log
      by (try apply quiet_seesGot; try apply quiet_seesTimer; try apply quiet_seesRequest).
    destruct (isTrue (skipEventRequest o)); simpl; rewrite ?app_nil_r; auto.
Qed.

Ltac break_inner :=
  match goal with
  | |- context [match ?x with _ => _ end] =>
      lazymatch x with
      | context [match _ with _ => _ end] => fail
      | _ => destruct x eqn:?
      end
  end.

Lemma decodeBody_body o charset body c o' body' c' :
  decodeBody env o charset body c = (o', body', c') ->
  match body' with
  | RawBuffer bytes => bytes = rawText body
  | RawText _ => True
  end.
Proof.
  unfold decodeBody. intros H.
  destruct (encoding o); try destruct (iconv_decode env _ _);
    injection H as <- <- <-; try exact I; try reflexivity.
  destruct body; [reflexivity | exact I].
Qed.

Lemma handleResponse_result o r c :
  exists res c1,
    handleResponse env o r c
    = match callback o with
      | Some cb => (Normal None, invokeCallback env cb None res (release o) c1)
      | None => (Normal (Some res), c1)
      end /\
    (forall A (f : Event -> list A),
        quiet f ->
        List.flat_map f (history c1)
        = List.flat_map f (history c)
          ++ match encoding o with
             | EncNull => []
             | EncName forced => f (IconvDecode forced)
             | EncUndefined =>
                 f (IconvDecode
                      (default "utf8"%string
                         (responseCharset (raw_headers r)
                            (default (RawText "") (raw_body r)))))
             end) /\
    _limiters c1 = _limiters c /\
    _UAIndex c1 = _UAIndex c /\
    _proxyIndex c1 = _proxyIndex c /\
    delivered env o r res.
Proof.
  unfold handleResponse.
  destruct (decodeBody env o _ _ _) as [[o1 body1] c1] eqn:Hd.
  pose proof (decodeBody_body _ _ _ _ _ _ _ Hd) as Hbody.
  assert (Hindex : _UAIndex c1 = _UAIndex c /\ _proxyIndex c1 = _proxyIndex c).
  { unfold decodeBody in Hd.
    destruct (encoding o); try destruct (iconv_decode env _ _);
      injection Hd as <- <- <-; split; reflexivity. }
  destruct Hindex as [Hua Hproxy].
  apply decodeBody_spec in Hd.
  destruct Hd as ((_ & Hcb1 & Hrel1 & _) & Hjson & Hjq & Hlim & Hobs).
  assert (Hobs' : forall A (f : Event -> list A),
             quiet f ->
             List.flat_map f (history c1)
             = List.flat_map f (history c)
               ++ match encoding o with
                  | EncNull => []
                  | EncName forced => f (IconvDecode forced)
                  | EncUndefined =>
                      f (IconvDecode
                           (default "utf8"%string
                              (responseCharset (raw_headers r)
                                 (default (RawText "") (raw_body r)))))
                  end).
  { intros A f Hq. rewrite (Hobs A f Hq). rewrite !observe_log by exact Hq. reflexivity. }
  clear Hobs. rewrite Hjson, Hjq, Hcb1, Hrel1.
  unfold delivered.
  repeat (break_inner; cbv beta iota zeta delta [snd fst]);
    (eexists _, _; split; [reflexivity|]);
    (split; [intros A f Hq; rewrite ?observe_log by exact Hq; apply Hobs', Hq|]);
    (split; [exact Hlim|]); (split; [exact Hua|]); (split; [exact Hproxy|]);
    cbn [res_headers res_charset res_dollar res_body];
    (split; [reflexivity|]); (split; [reflexivity|]);
    (split; [intros doc Hdoc; try discriminate Hdoc|]).
  all: try (destruct body1; simpl; auto; fail).
  all: try reflexivity.
  all: try exact I.
  all: match goal with
       | Hand : _ && _ = true, Hor : _ || _ = false |- _ =>
           apply andb_prop in Hand as [Hjquery Hnot];
           apply orb_false_elim in Hor as [_ Hhtml];
           apply negb_false_iff in Hhtml
       end.
  all: try discriminate Hnot.
  all: injection Hdoc as <-; repeat split; eauto.
Qed.

Lemma callbackCalls_result o (r : RawResponse) (c c1 : Crawler) :
  (forall A (f : Event -> list A),
      quiet f ->
      List.flat_map f (history c1)
      = List.flat_map f (history c)
        ++ match encoding o with
           | EncNull => []
           | EncName forced => f (IconvDecode forced)
           | EncUndefined =>
               f (IconvDecode
                    (default "utf8"%string
                       (responseCharset (raw_headers r)
                          (default (RawText "") (raw_body r)))))
           end) ->
  callbackCalls (history c1) = callbackCalls (history c) /\
  attempts (history c1) = attempts (history c).
Proof.
  intros Hobs. unfold callbackCalls, attempts.
  rewrite (Hobs _ seesCallback quiet_seesCallback), (Hobs _ seesGot quiet_seesGot).
  destruct (encoding o); split; apply app_nil_r.
Qed.

Lemma handleResponse_delivers o r c cb :
  callback o = Some cb ->
  exists res c1,
    handleResponse env o r c
    = (Normal None, invokeCallback env cb None res (release o) c1) /\
    callbackCalls (history c1) = callbackCalls (history c) /\
    _limiters c1 = _limiters c /\
    delivered env o r res.
Proof.
  intros Hcb.
  destruct (handleResponse_result o r c) as (res & c1 & He & Hobs & Hlim & _ & _ & Hres).
  rewrite Hcb in He. exists res, c1.
  split; [exact He|]. split; [apply (callbackCalls_result o r c c1 Hobs)|].
  split; assumption.
Qed.

Lemma decodeBody_decoded o charset body c name text :
  encoding o <> EncNull ->
  name = match encoding o with
         | EncName forced => forced
         | _ => default "utf8"%string charset
         end ->
  iconv_decode env (rawText body) name = Some text ->
  decodeBody env o charset body c
  = (set_encoding (EncName name) o, RawText text, record (IconvDecode name) c).
Proof.
  unfold decodeBody. intros Hnull -> Hdecode.
  destruct (encoding o); try congruence; rewrite Hdecode; reflexivity.
Qed.

Lemma handleResponse_decoded o r c name text :
  encoding o <> EncNull ->
  name = match encoding o with
         | EncName forced => forced
         | _ => default "utf8"%string
                  (responseCharset (raw_headers r) (default (RawText "") (raw_body r)))
         end ->
  iconv_decode env (rawText (default (RawText "") (raw_body r))) name = Some text ->
  exists c1,
    handleResponse env o r c
    = match callback o with
      | Some cb =>
          (Normal None,
           invokeCallback env cb None (decodedResponse env o r name text) (release o) c1)
      | None => (Normal (Some (decodedResponse env o r name text)), c1)
      end /\
    callbackCalls (history c1) = callbackCalls (history c).
Proof.
  intros Hnull Hname Hdecode. unfold handleResponse.
  rewrite (decodeBody_decoded o _ _ _ name text Hnull Hname Hdecode).
  cbv beta iota zeta.
  cbn [isJson jQuery callback release set_encoding rawText ofRaw].
  unfold callbackCalls, decodedResponse.
  repeat (break_inner; cbv beta iota zeta delta [snd fst]);
    eexists; (split; [reflexivity|]);
    rewrite ?observe_log by apply quiet_seesCallback;
    rewrite observe_record, app_nil_r;
    rewrite ?observe_log by apply quiet_seesCallback; reflexivity.
Qed.

(** *** An inline body *)

(** C7 (amended). For a descriptor that supplies an inline body that is
    not the empty string (the test of line 129), the task the limiter
    starts calls [_handler] without an error on a response made of that
    body and the content type text/html, which [_detectHtmlOnHeaders]
    takes for markup. That is the call a fetched response ends in.
    [_execute] is not entered: the transport and the hook are not called,
    ["request"] is not emitted and the rotation indices stay. The body is
    decoded once, with the encoding of the caller, else the charset that
    the body declares, else utf8, and not at all with the encoding [null];
    the decoded text is parsed with [isJson], or loaded as a document with
    [jQuery], and handed to the caller's callback, once and without an
    error; the slot goes back as the callback asks, and once when there is
    no callback. *)
Theorem inline_body_skips_executor :
  forall (fuel : nat) (o : CrawlerOptions) (limiterId : option Z) (c : Crawler)
         (body : string),
    html o = Some body ->
    truthyString (html o) = true ->
    let o1 := set_release (Some (mkRelease (rateLimiterId o))) o in
    let o2 := set_callback (orDefault (callback o1) (ReleaseCallback <$> release o1)) o1 in
    let d := set_url (orDefault (url o2) (Some (UrlString ""))) o2 in
    let synthetic :=
      {| raw_body := RawText <$> html d;
         raw_headers := {[ "content-type"%string := "text/html"%string ]} |} in
    let c0 := if truthyNumber limiterId then emit "limiterChange" c else c in
    let c' := snd (handleResponse env d synthetic c0) in
    let name := charsetByPriority (forcedEncoding o) None (declaredCharset body) in
    task env fuel o limiterId c = Some c' /\
    _handler env (_execute env fuel) None d (Some synthetic) c0
    = Some (handleResponse env d synthetic c0) /\
    raw_body synthetic = Some (RawText body) /\
    _detectHtmlOnHeaders (raw_headers synthetic) = true /\
    (forall exec o1 c1 response,
        got env (gotCalls (announce o1 c1)) o1 = inr response ->
        request env exec o1 c1
        = _handler env exec None o1 (Some response) (record (GotCall o1) (announce o1 c1))) /\
    attempts (history c') = attempts (history c) /\
    hookCalls (history c') = hookCalls (history c) /\
    notifications "request" (history c') = notifications "request" (history c) /\
    _UAIndex c' = _UAIndex c /\
    _proxyIndex c' = _proxyIndex c /\
    (encoding o <> EncNull ->
     decodeCalls (history c') = decodeCalls (history c) ++ [name]) /\
    (encoding o = EncNull -> decodeCalls (history c') = decodeCalls (history c)) /\
    calls (_limiters c')
    = calls (_limiters c)
      ++ releasesOf (default (ReleaseCallback (mkRelease (rateLimiterId o))) (callback o))
           (Some (mkRelease (rateLimiterId o))) /\
    (forall doneCalls text,
        callback o = Some (UserCallback doneCalls) ->
        encoding o <> EncNull ->
        iconv_decode env body name = Some text ->
        callbackCalls (history c')
        = callbackCalls (history c)
          ++ [(None,
               {| res_body :=
                    Some (if isTrue (isJson o)
                          then match JSON_parse env text with
                               | Some json => BParsed json
                               | None => BString text
                               end
                          else BString text);
                  res_headers := {[ "content-type"%string := "text/html"%string ]};
                  res_charset := declaredCharset body;
                  res_options := Some (set_encoding (EncName name) d);
                  res_dollar :=
                    if isTrue (jQuery o) && negb (isTrue (isJson o))
                    then match text with
                         | EmptyString => None
                         | _ => cheerio_load env text
                         end
                    else None |})]).
Proof.
  intros fuel o limiterId c body Hhtml Hne o1 o2 d synthetic c0 c' name.
  assert (Htruthy : truthyString (html o2) = true) by exact Hne.
  set (cb := default (ReleaseCallback (mkRelease (rateLimiterId o))) (callback o)).
  assert (Hcb : callback d = Some cb).
  { subst d o2 o1 cb. simpl. destruct (callback o); reflexivity. }
  assert (Hbody : default (RawText "") (raw_body synthetic) = RawText body).
  { subst synthetic d o2 o1. simpl. rewrite Hhtml. reflexivity. }
  assert (Hheader : getCharset (raw_headers synthetic) = None) by reflexivity.
  assert (Houtcome : fst (handleResponse env d synthetic c0) = Normal None).
  { destruct (handleResponse_delivers d synthetic c0 cb Hcb) as (res & c1 & -> & _).
    reflexivity. }
  assert (Hc0 : forall A (f : Event -> list A),
             f (Emit "limiterChange") = [] ->
             List.flat_map f (history c0) = List.flat_map f (history c)).
  { intros A f Hf. subst c0. destruct (truthyNumber limiterId); [|reflexivity].
    unfold emit. rewrite observe_record, Hf. apply app_nil_r. }
  assert (Hlim0 : _limiters c0 = _limiters c).
  { subst c0. destruct (truthyNumber limiterId); reflexivity. }
  assert (Hunseen : forall A (f : Event -> list A),
             quiet f ->
             (forall error res, f (CallbackCall error res) = []) ->
             (forall charset, f (IconvDecode charset) = []) ->
             f (Emit "limiterChange") = [] ->
             List.flat_map f (history c') = List.flat_map f (history c)).
  { intros A f Hq Hcall Hdec Hf. subst c'.
    rewrite observe_handleResponse by assumption.
    rewrite (Hc0 A f Hf). destruct (encoding d); rewrite ?Hdec; apply app_nil_r. }
  assert (Hdecoded : decodeCalls (history c')
                     = decodeCalls (history c)
                       ++ match encoding o with
                          | EncNull => []
                          | _ => [name]
                          end).
  { subst c'. unfold decodeCalls.
    rewrite observe_handleResponse by (apply quiet_seesDecode || reflexivity).
    rewrite (Hc0 _ seesDecode eq_refl), Hheader, Hbody. reflexivity. }
  repeat apply conj.
  - unfold task. fold o1. fold o2. rewrite Htruthy. fold d. fold synthetic. fold c0.
    unfold _handler.
    destruct (handleResponse env d synthetic c0) as [out c1] eqn:Hh.
    simpl in Houtcome. subst out. subst c'. reflexivity.
  - reflexivity.
  - subst synthetic d o2 o1. simpl. rewrite Hhtml. reflexivity.
  - reflexivity.
  - intros exec o3 c1 response Hgot. unfold request. rewrite Hgot. reflexivity.
  - apply (Hunseen _ seesGot quiet_seesGot); reflexivity.
  - apply (Hunseen _ seesHook quiet_seesHook); reflexivity.
  - apply (Hunseen _ (seesEmit "request") quiet_seesRequest); reflexivity.
  - subst c'. destruct (indexes_handleResponse env d synthetic c0) as [-> _].
    subst c0. destruct (truthyNumber limiterId); reflexivity.
  - subst c'. destruct (indexes_handleResponse env d synthetic c0) as [_ ->].
    subst c0. destruct (truthyNumber limiterId); reflexivity.
  - intros Hnull. rewrite Hdecoded. destruct (encoding o); congruence.
  - intros Hnull. rewrite Hdecoded, Hnull. apply app_nil_r.
  - subst c'. destruct (limiters_handleResponse env d synthetic c0) as [-> _].
    rewrite Hcb, Hlim0. reflexivity.
  - intros doneCalls text Huser Hnull Hdecode.
    assert (Hcb' : callback d = Some (UserCallback doneCalls)).
    { rewrite Hcb. subst cb. rewrite Huser. reflexivity. }
    destruct (handleResponse_decoded d synthetic c0 name text) as (c1 & He & Hcalled).
    + exact Hnull.
    + subst name. unfold charsetByPriority, forcedEncoding, responseCharset.
      rewrite Hheader, Hbody. change (encoding d) with (encoding o).
      destruct (encoding o); reflexivity.
    + rewrite Hbody. exact Hdecode.
    + subst c'. rewrite He, Hcb'. cbn [snd]. unfold callbackCalls in *.
      rewrite observe_invokeCallback by apply quiet_seesCallback.
      rewrite Hcalled, (Hc0 _ seesCallback eq_refl).
      unfold decodedResponse. rewrite Hbody.
      assert (Hdetect : _detectHtmlOnHeaders (raw_headers synthetic) = true)
        by reflexivity.
      unfold responseCharset. rewrite Hheader, Hdetect.
      change (isJson d) with (isJson o). change (jQuery d) with (jQuery o).
      destruct text; destruct (isTrue (jQuery o) && negb (isTrue (isJson o)));
        reflexivity.
Qed.

(** X10. A descriptor without a pre-request hook whose [retries] is absent
    or an integer up to [2^53] (where [retries--] is exact) is tried at
    least once and at most [retries + 1] times, whatever the transport
    answers, and then [_execute] is through with it. The retries left
    count down by one from attempt to attempt; each retry comes after one
    timer of [retryInterval]; each attempt is announced by one [request]
    event, unless [skipEventRequest] is [true]. *)
Theorem attempts_bounded_by_retries :
  forall (fuel : nat) (o : CrawlerOptions) (c : Crawler),
    preRequest o = None ->
    exactRetries o ->
    (retryBudget o < fuel)%nat ->
    exists out c' k,
      _execute env fuel o c = Some (out, c') /\
      (k <= retryBudget o)%nat /\
      attempts (history c') = attempts (history c) ++ countdown (retries o) 0 (S k) /\
      timers (history c') = timers (history c) ++ repeat (retryInterval o) k /\
      notifications "request" (history c')
      = notifications "request" (history c)
        ++ if isTrue (skipEventRequest o) then [] else repeat "request"%string (S k).
Proof.
  intros fuel o c Hnone _ Hfuel.
  destruct (execute_total env fuel o c Hnone Hfuel) as (out & c' & He).
  destruct (runs_attempts _ _ _ _ _ (execute_sound env fuel _ _ _ _ He) Hnone)
    as (k & Hk & H).
  exists out, c', k. auto.
Qed.

Lemma runs_completion ph o c out c' :
  Runs env ph o c out c' ->
  preRequest o = None ->
  forall cb,
    callback o = Some cb ->
    out = Normal None /\
    calls (_limiters c') = calls (_limiters c) ++ releasesOf cb (release o) /\
    exists error res,
      callbackCalls (history c')
      = callbackCalls (history c)
        ++ match cb with
           | UserCallback _ => [(error, res)]
           | ReleaseCallback _ => []
           end.
Proof.
  intros Hrun.
  induction Hrun as
    [ o c o1 c1 out c' Hp Hhook _ IH
    | o c o1 c1 hook o' out c' Hp Hhook _ _ _
    | o c o1 c1 hook o' err out c' Hp Hhook _ _ _
    | o c o1 c1 hook e Hp Hhook _
    | o c o1 c1 hook Hp Hhook _
    | o c response _
    | o c error out c' _ _ IH
    | error o c out c' Hleft _ IH
    | error o c cb' _ Hcb'
    | error o c _ Hcb' ];
    intros Hnone cb Hcb;
    try (exfalso; destruct (prepare_control _ _ _ _ Hp) as ((Hpre & _) & _); congruence).
  - destruct (prepare_control _ _ _ _ Hp)
      as ((_ & Hcb1 & Hrel1 & _) & Hlim & _ & Hobs).
    destruct (IH Hhook cb) as (-> & Hcalls & error & res & Hcalled); [congruence|].
    rewrite Hcalls, Hlim, Hrel1. unfold callbackCalls in *.
    rewrite (Hobs _ seesCallback quiet_seesCallback) in Hcalled. eauto.
  - destruct (handleResponse_delivers o response (record (GotCall o) (announce o c)) cb Hcb)
      as (res & c1 & -> & Hcalled & Hlim & _).
    cbn [fst snd].
    destruct (limiters_invokeCallback env cb None res (release o) c1) as [-> _].
    split; [reflexivity|]. split.
    + rewrite Hlim. unfold announce. destruct (isTrue _); reflexivity.
    + exists None, res. unfold callbackCalls in *.
      rewrite observe_invokeCallback by apply quiet_seesCallback.
      rewrite Hcalled, observe_record, app_nil_r.
      rewrite observe_announce by (left; reflexivity).
      destruct cb; reflexivity.
  - destruct (IH Hnone cb Hcb) as (-> & Hcalls & error' & res & Hcalled).
    split; [reflexivity|]. split.
    + rewrite Hcalls. unfold announce. destruct (isTrue _); reflexivity.
    + exists error', res. unfold callbackCalls in *. rewrite Hcalled.
      rewrite observe_log, observe_record, app_nil_r by apply quiet_seesCallback.
      rewrite observe_announce by (left; reflexivity). reflexivity.
  - destruct (IH Hnone cb Hcb) as (-> & Hcalls & error' & res & Hcalled).
    split; [reflexivity|]. cbn [unhandled]. split.
    + rewrite Hcalls. reflexivity.
    + exists error', res. unfold callbackCalls in *. rewrite Hcalled.
      rewrite observe_record, app_nil_r.
      rewrite observe_log by apply quiet_seesCallback. reflexivity.
  - assert (cb' = cb) as -> by congruence.
    split; [reflexivity|].
    destruct (limiters_invokeCallback env cb (Some error) (errorResponse o) (release o)
                (log LError c)) as [-> _].
    split; [reflexivity|].
    exists (Some error), (errorResponse o). unfold callbackCalls.
    rewrite observe_invokeCallback by apply quiet_seesCallback.
    rewrite observe_log by apply quiet_seesCallback. destruct cb; reflexivity.
  - congruence.
Qed.

Lemma count_done_app (a b : list ClusterCall) :
  length (List.filter isDone (a ++ b))
  = (length (List.filter isDone a) + length (List.filter isDone b))%nat.
Proof. rewrite List.filter_app. apply length_app. Qed.

Lemma count_done_repeat limiter n :
  length (List.filter isDone (repeat (Done limiter) n)) = n.
Proof. induction n as [|n IH]; simpl; congruence. Qed.

(** X11. A started task whose [retries] is absent or an integer up to
    [2^53] (where [retries--] is exact) completes exactly once, whatever
    the transport answers and whichever of its retries it takes, also for
    an inline body: a caller's callback is called once, and the slot is
    handed back as often as that callback calls [done]; without a callback
    the release capability is the callback, and the slot is handed back
    once. (No pre-request hook, and a [url] function that calls back.) *)
Theorem task_completes_exactly_once :
  forall (fuel : nat) (o : CrawlerOptions) (limiterId : option Z) (c : Crawler),
    preRequest o = None ->
    url o <> Some (UrlFunction None) ->
    exactRetries o ->
    (retryBudget o < fuel)%nat ->
    exists c',
      task env fuel o limiterId c = Some c' /\
      calls (_limiters c')
      = calls (_limiters c)
        ++ releasesOf (default (ReleaseCallback (mkRelease (rateLimiterId o))) (callback o))
             (Some (mkRelease (rateLimiterId o))) /\
      doneCount c'
      = (doneCount c
         + match callback o with
           | Some (UserCallback doneCalls) => doneCalls
           | _ => 1
           end)%nat /\
      exists error res,
        callbackCalls (history c')
        = callbackCalls (history c)
          ++ match callback o with
             | Some (UserCallback _) => [(error, res)]
             | _ => []
             end.
Proof.
  intros fuel o limiterId c Hnone Hurl _ Hfuel.
  set (cb := default (ReleaseCallback (mkRelease (rateLimiterId o))) (callback o)).
  set (rel := mkRelease (rateLimiterId o)).
  assert (Hdone : length (List.filter isDone (releasesOf cb (Some rel)))
                  = match callback o with
                    | Some (UserCallback doneCalls) => doneCalls
                    | _ => 1%nat
                    end).
  { unfold cb, rel. destruct (callback o) as [[n|[l]]|]; simpl; try reflexivity.
    apply count_done_repeat. }
  assert (Hcalled : forall (x : option JsError * CrawlerResponse),
             match cb with UserCallback _ => [x] | ReleaseCallback _ => [] end
             = match callback o with Some (UserCallback _) => [x] | _ => [] end).
  { intros x. unfold cb. destruct (callback o) as [[n|r]|]; reflexivity. }
  assert (Hgoal : forall c0 (out : Completion (option CrawlerResponse)) c1,
             calls (_limiters c0) = calls (_limiters c) ->
             callbackCalls (history c0) = callbackCalls (history c) ->
             out = Normal None /\
             calls (_limiters c1) = calls (_limiters c0) ++ releasesOf cb (Some rel) /\
             (exists error res,
                 callbackCalls (history c1)
                 = callbackCalls (history c0)
                   ++ match cb with
                      | UserCallback _ => [(error, res)]
                      | ReleaseCallback _ => []
                      end) ->
             exists c',
               Some (unhandled out c1) = Some c' /\
               calls (_limiters c') = calls (_limiters c) ++ releasesOf cb (Some rel) /\
               doneCount c'
               = (doneCount c
                  + match callback o with
                    | Some (UserCallback doneCalls) => doneCalls
                    | _ => 1
                    end)%nat /\
               exists error res,
                 callbackCalls (history c')
                 = callbackCalls (history c)
                   ++ match callback o with
                      | Some (UserCallback _) => [(error, res)]
                      | _ => []
                      end).
  { intros c0 out c1 Hc0 Hh0 (-> & Hcalls & error & res & Hcb).
    exists c1. split; [reflexivity|]. rewrite Hc0 in Hcalls. split; [exact Hcalls|].
    split.
    - unfold doneCount. rewrite Hcalls, count_done_app, Hdone. reflexivity.
    - exists error, res. rewrite Hcb, Hh0. f_equal. apply Hcalled. }
  assert (Hcb : orDefault (callback o) (Some (ReleaseCallback rel)) = Some cb).
  { unfold cb. destruct (callback o); reflexivity. }
  unfold task. cbn [release set_release callback set_callback fmap option_fmap option_map].
  fold rel. rewrite Hcb.
  set (c0 := if truthyNumber limiterId then emit "limiterChange" c else c).
  assert (Hc0 : calls (_limiters c0) = calls (_limiters c))
    by (unfold c0; destruct (truthyNumber limiterId); reflexivity).
  assert (Hh0 : callbackCalls (history c0) = callbackCalls (history c)).
  { unfold c0, callbackCalls, emit. destruct (truthyNumber limiterId); [|reflexivity].
    rewrite observe_record. apply app_nil_r. }
  destruct (truthyString _) eqn:Hhtml.
  - unfold _handler.
    match goal with
    | |- context [handleResponse env ?d ?r c0] =>
        destruct (handleResponse_delivers d r c0 cb eq_refl)
          as (res & c1 & -> & Hcalled1 & Hlim & _);
        apply (Hgoal c0); [exact Hc0 | exact Hh0 |]
    end.
    split; [reflexivity|].
    destruct (limiters_invokeCallback env cb None res (Some rel) c1) as [Hcalls _].
    split; [rewrite <- Hlim; exact Hcalls|].
    exists None, res. unfold callbackCalls in *.
    rewrite observe_invokeCallback by apply quiet_seesCallback.
    rewrite Hcalled1. destruct cb; reflexivity.
  - cbn [url set_url uri set_html html].
    assert (Hrun : forall d,
               preRequest d = None -> callback d = Some cb -> release d = Some rel ->
               retries d = retries o ->
               exists c',
                 match _execute env fuel d c0 with
                 | Some (out, c1) => Some (unhandled out c1)
                 | None => None
                 end = Some c' /\
                 calls (_limiters c') = calls (_limiters c) ++ releasesOf cb (Some rel) /\
                 doneCount c'
                 = (doneCount c
                    + match callback o with
                      | Some (UserCallback doneCalls) => doneCalls
                      | _ => 1
                      end)%nat /\
                 exists error res,
                   callbackCalls (history c')
                   = callbackCalls (history c)
                     ++ match callback o with
                        | Some (UserCallback _) => [(error, res)]
                        | _ => []
                        end).
    { intros d Hd Hdcb Hdrel Hdret.
      destruct (execute_total env fuel d c0 Hd) as (out & c1 & He).
      { unfold retryBudget in Hfuel. rewrite Hdret. exact Hfuel. }
      rewrite He. apply (Hgoal c0); [exact Hc0 | exact Hh0 |].
      pose proof (runs_completion _ _ _ _ _ (execute_sound env fuel _ _ _ _ He) Hd cb Hdcb)
        as Hdone'.
      rewrite Hdrel in Hdone'. exact Hdone'. }
    change (url (set_callback (Some cb) (set_release (Some rel) o))) with (url o).
    change (uri (set_callback (Some cb) (set_release (Some rel) o))) with (uri o).
    destruct (orDefault (url o) (UrlString <$> uri o)) as [[u|[u|]]|] eqn:Hu;
      try (apply Hrun; (exact Hnone || reflexivity)).
    exfalso. apply Hurl. destruct (url o); [exact Hu|].
    destruct (uri o); discriminate Hu.
Qed.

(** X12. A response always reaches the caller's callback, once and
    without an error: no failure of the decoder, of [JSON.parse] or of
    cheerio stops it. The response carries the headers as received and the
    declared charset; a document only for a non-JSON request with [jQuery]
    on a markup content type; and the body parsed (only with [isJson]), as
    text, or as the bytes received when they were not decoded. *)
Theorem response_always_reaches_callback :
  forall exec (o : CrawlerOptions) (response : RawResponse) (c : Crawler)
         (doneCalls : nat),
    callback o = Some (UserCallback doneCalls) ->
    exists res c',
      _handler env exec None o (Some response) c = Some (Normal None, c') /\
      callbackCalls (history c') = callbackCalls (history c) ++ [(None, res)] /\
      res_headers res = raw_headers response /\
      res_charset res
      = responseCharset (raw_headers response)
          (default (RawText "") (raw_body response)) /\
      (forall doc,
          res_dollar res = Some doc ->
          isTrue (jQuery o) = true /\ isTrue (isJson o) = false /\
          _detectHtmlOnHeaders (raw_headers response) = true /\
          exists text, cheerio_load env text = Some doc) /\
      match res_body res with
      | Some (BParsed json) => isTrue (isJson o) = true
      | Some (BBuffer bytes) =>
          bytes = rawText (default (RawText "") (raw_body response))
      | Some (BString text) => True
      | None => False
      end.
Proof.
  intros exec o response c doneCalls Hcb. unfold _handler.
  destruct (handleResponse_delivers o response c _ Hcb)
    as (res & c1 & -> & Hcalled & _ & Hres).
  eexists res, _. split; [reflexivity|]. split; [|exact Hres].
  unfold callbackCalls in *.
  rewrite observe_invokeCallback by apply quiet_seesCallback.
  rewrite Hcalled. reflexivity.
Qed.

Lemma prepare_encoding o c :
  encoding (fst (prepare env o c))
  = if isTrue (forceUTF8 o) || isTrue (isJson o) then EncName "utf8" else encoding o.
Proof.
  unfold prepare, assignUserAgent, assignProxy.
  cbn [forceUTF8 isJson set_headers].
  destruct (isTrue (forceUTF8 o) || isTrue (isJson o));
    repeat (break_inner; cbv beta iota zeta delta [snd fst]); reflexivity.
Qed.

Lemma request_got o c o1 c1 :
  prepare env o c = (o1, c1) -> gotCalls (announce o1 c1) = gotCalls c.
Proof. intros Hp. apply (failed_request env o c o1 c1 Hp). Qed.

Lemma prepare_flags o c :
  forceUTF8 (fst (prepare env o c)) = forceUTF8 o /\
  isJson (fst (prepare env o c)) = isJson o.
Proof.
  unfold prepare, assignUserAgent, assignProxy.
  cbn [forceUTF8 isJson set_headers].
  repeat (break_inner; cbv beta iota zeta delta [snd fst]); split; reflexivity.
Qed.

Lemma forced_first_response fuel o c response :
  preRequest o = None ->
  isTrue (forceUTF8 o) || isTrue (isJson o) = true ->
  got env (gotCalls c) (fst (prepare env o c)) = inr response ->
  exists out c',
    _execute env (S fuel) o c = Some (out, c') /\
    decodeCalls (history c') = decodeCalls (history c) ++ ["utf8"%string].
Proof.
  intros Hnone Hforce Hgot.
  pose proof (prepare_encoding o c) as Henc. rewrite Hforce in Henc.
  cbn [_execute]. destruct (prepare env o c) as [o1 c1] eqn:Hp.
  cbn [fst] in Hgot, Henc.
  destruct (prepare_control _ _ _ _ Hp) as ((Hpre & _) & _ & _ & Hobs).
  rewrite Hpre, Hnone. unfold request. rewrite (request_got _ _ _ _ Hp), Hgot.
  unfold _handler.
  pose proof (observe_handleResponse env seesDecode o1 response
                (record (GotCall o1) (announce o1 c1)) quiet_seesDecode
                (fun _ _ => eq_refl)) as Hdec.
  destruct (handleResponse env o1 response _) as [out c'].
  exists out, c'. split; [reflexivity|].
  cbn [snd] in Hdec. unfold decodeCalls. rewrite Hdec, Henc.
  rewrite observe_record, app_nil_r, observe_announce by (left; reflexivity).
  rewrite (Hobs _ seesDecode quiet_seesDecode).
  unfold forcedEncoding. rewrite Henc. reflexivity.
Qed.

Lemma runs_forced ph o c out c' :
  Runs env ph o c out c' ->
  preRequest o = None ->
  isTrue (forceUTF8 o) || isTrue (isJson o) = true ->
  match ph with AtRequest => encoding o = EncName "utf8" | _ => True end ->
  exists j,
    (j <= 1)%nat /\
    decodeCalls (history c') = decodeCalls (history c) ++ repeat "utf8"%string j.
Proof.
  intros Hrun.
  induction Hrun as
    [ o c o1 c1 out c' Hp Hhook _ IH
    | o c o1 c1 hook o' out c' Hp Hhook _ _ _
    | o c o1 c1 hook o' err out c' Hp Hhook _ _ _
    | o c o1 c1 hook e Hp Hhook _
    | o c o1 c1 hook Hp Hhook _
    | o c response _
    | o c error out c' _ _ IH
    | error o c out c' Hleft _ IH
    | error o c cb _ _
    | error o c _ _ ];
    intros Hnone Hforce Henc;
    try (exfalso; destruct (prepare_control _ _ _ _ Hp) as ((Hpre & _) & _); congruence).
  - destruct (prepare_control _ _ _ _ Hp) as (_ & _ & _ & Hobs).
    pose proof (prepare_encoding o c) as Henc1. rewrite Hforce, Hp in Henc1.
    destruct (prepare_flags o c) as [Hutf Hjson]. rewrite Hp in Hutf, Hjson.
    cbn [fst] in Henc1, Hutf, Hjson.
    destruct (IH Hhook) as (j & Hj & Hdec); [congruence | exact Henc1 |].
    exists j. split; [exact Hj|]. unfold decodeCalls in *.
    rewrite Hdec, (Hobs _ seesDecode quiet_seesDecode). reflexivity.
  - exists 1%nat. split; [lia|]. unfold decodeCalls.
    rewrite observe_handleResponse by (apply quiet_seesDecode || reflexivity).
    rewrite observe_record, app_nil_r, observe_announce by (left; reflexivity).
    unfold forcedEncoding. rewrite Henc. reflexivity.
  - destruct (IH Hnone Hforce I) as (j & Hj & Hdec).
    exists j. split; [exact Hj|]. unfold decodeCalls in *. rewrite Hdec.
    rewrite observe_log, observe_record, app_nil_r by apply quiet_seesDecode.
    rewrite observe_announce by (left; reflexivity). reflexivity.
  - destruct (IH Hnone Hforce I) as (j & Hj & Hdec).
    exists j. split; [exact Hj|]. unfold decodeCalls in *.
    rewrite observe_unhandled by apply quiet_seesDecode.
    rewrite Hdec, observe_record, app_nil_r.
    rewrite observe_log by apply quiet_seesDecode. reflexivity.
  - exists 0%nat. split; [lia|]. unfold decodeCalls.
    rewrite observe_invokeCallback_blind by (apply quiet_seesDecode || reflexivity).
    rewrite observe_log by apply quiet_seesDecode. symmetry. apply app_nil_r.
  - exists 0%nat. split; [lia|]. unfold decodeCalls.
    rewrite observe_log by apply quiet_seesDecode. symmetry. apply app_nil_r.
Qed.

(** X13. With [forceUTF8] or [isJson], and without a pre-request hook,
    the only charset a fetched body is ever decoded with is [utf8],
    whatever charset the response declares and whatever [encoding] the
    caller gave, [null] included: every attempt passes line 154, which
    overwrites it. A run decodes at most once, and when the transport
    answers the first attempt the body is decoded, as [utf8]. ([retries]
    absent or an integer up to [2^53].) *)
Theorem forceUTF8_overrides_every_charset :
  forall (fuel : nat) (o : CrawlerOptions) (c : Crawler),
    preRequest o = None ->
    isTrue (forceUTF8 o) || isTrue (isJson o) = true ->
    exactRetries o ->
    (retryBudget o < fuel)%nat ->
    exists out c',
      _execute env fuel o c = Some (out, c') /\
      (exists j,
          (j <= 1)%nat /\
          decodeCalls (history c')
          = decodeCalls (history c) ++ repeat "utf8"%string j) /\
      (forall response,
          got env (gotCalls c) (fst (prepare env o c)) = inr response ->
          decodeCalls (history c') = decodeCalls (history c) ++ ["utf8"%string]).
Proof.
  intros fuel o c Hnone Hforce _ Hfuel.
  destruct (execute_total env fuel o c Hnone Hfuel) as (out & c' & He).
  exists out, c'. split; [exact He|]. split.
  - apply (runs_forced _ _ _ _ _ (execute_sound env fuel _ _ _ _ He) Hnone Hforce I).
  - intros response Hgot. destruct fuel as [|fuel]; [lia|].
    destruct (forced_first_response fuel o c response Hnone Hforce Hgot)
      as (out2 & c2 & He2 & Hdec).
    rewrite He in He2. injection He2 as _ <-. exact Hdec.
Qed.

(** X14. How the promise of [send] settles when neither the request nor
    the crawler has a callback. [retries] is [0] unless the request gives
    it: the crawler's own default does not apply. When the transport
    answers the first call, the promise resolves with the response. When
    it fails and no retry is left, the promise rejects with the
    transport's error, after that one attempt. When it fails and retries
    are left, the promise resolves with [undefined], whatever the retries
    bring. *)
Theorem send_settles :
  forall (input valid : JsValue) (o : CrawlerOptions) (c : Crawler),
    getValidOptions env input = Normal valid ->
    asOptions valid = Normal o ->
    callback o = None ->
    callback (options c) = None ->
    exists d,
      sendOptions env input c = Normal d /\
      retries d = Some (default 0 (retries o)) /\
      match got env (gotCalls c) (fst (prepare env d c)) with
      | inr response =>
          forall fuel,
          exists res c',
            send env (S fuel) input c = Some (Normal (Some res), c') /\
            res_headers res = raw_headers response /\
            callbackCalls (history c') = callbackCalls (history c)
      | inl error =>
          if retriesLeft d then
            forall fuel,
              (retryBudget d < fuel)%nat ->
              exists c', send env fuel input c = Some (Normal None, c')
          else
            forall fuel,
            exists c',
              send env (S fuel) input c = Some (Throw error, c') /\
              attempts (history c') = attempts (history c) ++ [retries d] /\
              timers (history c') = timers (history c)
      end.
Proof.
  intros input valid o c Hvalid Has Hcb Hcbc.
  destruct (sendOptions_spec env input valid o c Hvalid Has)
    as (d & Hd & Hpre & Hret & _ & _ & Hcbd).
  rewrite Hcb, Hcbc in Hcbd. simpl in Hcbd.
  exists d. split; [exact Hd|]. split; [exact Hret|].
  destruct (prepare env d c) as [o1 c1] eqn:Hp. cbn [fst].
  destruct (prepare_control _ _ _ _ Hp)
    as ((Hpre1 & Hcb1 & _ & _ & Hret1 & _) & _ & _ & Hobs).
  assert (Hleft1 : retriesLeft o1 = retriesLeft d)
    by (unfold retriesLeft; rewrite Hret1; reflexivity).
  destruct (got env (gotCalls c) o1) as [error|response] eqn:Hgot.
  - destruct (retriesLeft d) eqn:Hleft.
    + intros fuel Hfuel. unfold send. rewrite Hd.
      destruct fuel as [|fuel]; [lia|].
      cbn [_execute]. rewrite Hp, Hpre1, Hpre. unfold request.
      rewrite (request_got _ _ _ _ Hp), Hgot. unfold _handler. rewrite Hleft1.
      match goal with
      | |- context [_execute env fuel ?o2 ?c2] =>
          destruct (execute_total env fuel o2 c2) as (out & c' & ->)
      end.
      * simpl. congruence.
      * pose proof (retryBudget_left d Hleft) as Hbudget.
        unfold retryBudget in *. cbn [retries set_retries] in *. rewrite Hret1. lia.
      * eauto.
    + intros fuel. unfold send. rewrite Hd.
      cbn [_execute]. rewrite Hp, Hpre1, Hpre. unfold request.
      rewrite (request_got _ _ _ _ Hp), Hgot. unfold _handler.
      rewrite Hleft1, Hcb1, Hcbd. eexists. split; [reflexivity|].
      unfold attempts, timers.
      rewrite !observe_log by (apply quiet_seesGot || apply quiet_seesTimer).
      rewrite !observe_record, !observe_announce by (left; reflexivity).
      rewrite (Hobs _ seesGot quiet_seesGot), (Hobs _ seesTimer quiet_seesTimer).
      simpl. rewrite Hret1, app_nil_r. split; reflexivity.
  - intros fuel. unfold send. rewrite Hd.
    cbn [_execute]. rewrite Hp, Hpre1, Hpre. unfold request.
    rewrite (request_got _ _ _ _ Hp), Hgot. unfold _handler.
    destruct (handleResponse_result o1 response (record (GotCall o1) (announce o1 c1)))
      as (res & c3 & -> & Hobs3 & _ & _ & _ & Hres).
    rewrite Hcb1, Hcbd. exists res, c3. split; [reflexivity|].
    split; [apply Hres|].
    destruct (callbackCalls_result _ _ _ _ Hobs3) as [-> _].
    unfold callbackCalls.
    rewrite observe_record, app_nil_r, observe_announce by (left; reflexivity).
    apply (Hobs _ seesCallback quiet_seesCallback).
Qed.

(** *** Rotation and retries *)

Lemma quiet_seesProxy : quiet seesProxy.
Proof. repeat split. Qed.



Lemma prepare_fixed_proxy o c :
  truthyString (proxy o) = true ->
  proxy (fst (prepare env o c)) = proxy o /\
  _proxyIndex (snd (prepare env o c)) = _proxyIndex c.
Proof.
  intros Hfixed. unfold prepare, assignUserAgent, assignProxy.
  cbn [forceUTF8 isJson set_headers proxy proxies set_encoding].
  rewrite Hfixed.
  repeat (break_inner; cbv beta iota zeta delta [snd fst]);
    repeat match goal with
           | H : (_, _) = (_, _) |- _ => injection H as <- <-
           end;
    cbn [proxy set_headers set_encoding] in *;
    try (split; reflexivity); congruence.
Qed.

Lemma indexes_unhandled {A} (out : Completion A) c :
  _UAIndex (unhandled out c) = _UAIndex c /\
  _proxyIndex (unhandled out c) = _proxyIndex c.
Proof. destruct out; split; reflexivity. Qed.

Lemma indexes_announce o c :
  _UAIndex (announce o c) = _UAIndex c /\ _proxyIndex (announce o c) = _proxyIndex c.
Proof. unfold announce. destruct (isTrue _); split; reflexivity. Qed.

Lemma repeat_snoc {A} (x : A) n : repeat x n ++ [x] = x :: repeat x n.
Proof. induction n as [|n IH]; simpl; congruence. Qed.

Lemma runs_proxy ph o c out c' :
  Runs env ph o c out c' ->
  preRequest o = None ->
  (truthyString (proxy o) = true ->
   exists k,
     proxiesUsed (history c')
     = proxiesUsed (history c)
       ++ repeat (proxy o) (match ph with AtFailure _ => k | _ => S k end) /\
     _proxyIndex c' = _proxyIndex c) /\
  (ph = AtExecute ->
   forall ps j p,
     truthyString (proxy o) = false ->
     proxies o = Some ps ->
     _proxyIndex c = Num j ->
     ps !! (j mod length ps)%nat = Some p ->
     p <> ""%string ->
     exists k,
       proxiesUsed (history c') = proxiesUsed (history c) ++ repeat (Some p) (S k) /\
       _proxyIndex c' = Num (S (j mod length ps))).
Proof.
  intros Hrun.
  induction Hrun as
    [ o c o1 c1 out c' Hp Hhook _ IH
    | o c o1 c1 hook o' out c' Hp Hhook _ _ _
    | o c o1 c1 hook o' err out c' Hp Hhook _ _ _
    | o c o1 c1 hook e Hp Hhook _
    | o c o1 c1 hook Hp Hhook _
    | o c response _
    | o c error out c' _ _ IH
    | error o c out c' Hleft _ IH
    | error o c cb _ _
    | error o c _ _ ];
    intros Hnone;
    try (exfalso; destruct (prepare_control _ _ _ _ Hp) as ((Hpre & _) & _); congruence);
    (split; [intros Hfixed | try discriminate]).
  - destruct (prepare_control _ _ _ _ Hp) as (_ & _ & _ & Hobs).
    destruct (prepare_fixed_proxy o c Hfixed) as [Hproxy Hindex].
    rewrite Hp in Hproxy, Hindex. cbn [fst snd] in Hproxy, Hindex.
    destruct (IH Hhook) as [IH1 _].
    destruct IH1 as (k & Hused & Hidx); [congruence|].
    exists k. unfold proxiesUsed in *.
    rewrite Hused, Hidx, Hproxy, (Hobs _ seesProxy quiet_seesProxy). auto.
  - intros _ ps j p Hfree Hps Hj Hp' Hne.
    destruct (prepare_control _ _ _ _ Hp) as (_ & _ & _ & Hobs).
    assert (Hlen : (0 < length ps)%nat).
    { apply lookup_lt_Some in Hp'. lia. }
    destruct (prepare_proxy env o c ps j Hps Hlen Hfree Hj) as [Hproxy Hindex].
    rewrite Hp in Hproxy, Hindex. cbn [fst snd] in Hproxy, Hindex.
    destruct (IH Hhook) as [IH1 _].
    destruct IH1 as (k & Hused & Hidx).
    { rewrite Hproxy, Hp'. simpl. destruct (String.eqb_spec p ""); [contradiction|].
      reflexivity. }
    exists k. unfold proxiesUsed in *.
    rewrite Hused, Hidx, Hproxy, Hp', (Hobs _ seesProxy quiet_seesProxy). auto.
  - exists 0%nat. unfold proxiesUsed.
    rewrite observe_handleResponse by (apply quiet_seesProxy || reflexivity).
    rewrite observe_record, observe_announce by (left; reflexivity).
    destruct (indexes_handleResponse env o response (record (GotCall o) (announce o c)))
      as [_ ->].
    split; [|apply indexes_announce].
    destruct (encoding o); simpl; rewrite ?app_nil_r; reflexivity.
  - destruct (IH Hnone) as [IH1 _]. destruct (IH1 Hfixed) as (k & Hused & Hidx).
    exists k. unfold proxiesUsed in *. rewrite Hused, Hidx.
    rewrite observe_log, observe_record by apply quiet_seesProxy.
    rewrite observe_announce by (left; reflexivity).
    split; [|apply indexes_announce].
    rewrite <- app_assoc. reflexivity.
  - destruct IH as [IH1 _]; [exact Hnone|].
    destruct (IH1 Hfixed) as (k & Hused & Hidx).
    exists (S k). unfold proxiesUsed in *.
    rewrite observe_unhandled by apply quiet_seesProxy.
    destruct (indexes_unhandled out c') as [_ ->].
    rewrite Hused, Hidx. rewrite observe_record, app_nil_r.
    rewrite observe_log by apply quiet_seesProxy. auto.
  - exists 0%nat. unfold proxiesUsed.
    rewrite observe_invokeCallback_blind by (apply quiet_seesProxy || reflexivity).
    rewrite observe_log by apply quiet_seesProxy.
    split; [symmetry; apply app_nil_r|].
    apply (indexes_invokeCallback env cb (Some error) (errorResponse o) (release o)
             (log LError c)).
  - exists 0%nat. unfold proxiesUsed.
    rewrite observe_log by apply quiet_seesProxy.
    split; [symmetry; apply app_nil_r | reflexivity].
Qed.

(** X15. A retry keeps the proxy of the first attempt. A descriptor with
    its own [proxy] uses it at every attempt and leaves the rotation
    alone; a descriptor without one takes the next proxy of [proxies]
    once, at its first attempt, and the rotation moves on by one, however
    many attempts follow. *)
Theorem retries_keep_the_proxy :
  forall (fuel : nat) (o : CrawlerOptions) (c : Crawler),
    preRequest o = None ->
    (retryBudget o < fuel)%nat ->
    exists out c',
      _execute env fuel o c = Some (out, c') /\
      (truthyString (proxy o) = true ->
       exists k,
         proxiesUsed (history c') = proxiesUsed (history c) ++ repeat (proxy o) (S k) /\
         _proxyIndex c' = _proxyIndex c) /\
      (forall ps j p,
          truthyString (proxy o) = false ->
          proxies o = Some ps ->
          _proxyIndex c = Num j ->
          ps !! (j mod length ps)%nat = Some p ->
          p <> ""%string ->
          exists k,
            proxiesUsed (history c') = proxiesUsed (history c) ++ repeat (Some p) (S k) /\
            _proxyIndex c' = Num (S (j mod length ps))).
Proof.
  intros fuel o c Hnone Hfuel.
  destruct (execute_total env fuel o c Hnone Hfuel) as (out & c' & He).
  destruct (runs_proxy _ _ _ _ _ (execute_sound env fuel _ _ _ _ He) Hnone)
    as [Hfixed Hrotating].
  exists out, c'. split; [exact He|]. split; [exact Hfixed|].
  apply Hrotating. reflexivity.
Qed.





Lemma prepare_NaN o c :
  (_UAIndex c = NaN -> _UAIndex (snd (prepare env o c)) = NaN) /\
  (_proxyIndex c = NaN -> _proxyIndex (snd (prepare env o c)) = NaN).
Proof.
  unfold prepare, assignUserAgent, assignProxy.
  cbn [forceUTF8 isJson set_headers].
  repeat (break_inner; cbv beta iota zeta delta [snd fst]);
    repeat match goal with
           | H : (_, _) = (_, _) |- _ => injection H as <- <-
           end;
    split; intros Hnan; simpl in *; rewrite ?Hnan; reflexivity.
Qed.

Lemma dispatchAll_NaN os :
  forall c,
    (_UAIndex c = NaN -> _UAIndex (dispatchAll env os c) = NaN) /\
    (_proxyIndex c = NaN -> _proxyIndex (dispatchAll env os c) = NaN).
Proof.
  induction os as [|o os IH]; intros c; [split; auto|].
  cbn [dispatchAll]. destruct (prepare_NaN o c) as [Hua Hproxy].
  destruct (IH (snd (prepare env o c))) as [IHua IHproxy]. split; auto.
Qed.

Lemma prepare_at_NaN o c :
  (forall uas,
      userAgents o = Some (UaList uas) ->
      jsRem (_UAIndex c) (length uas) = NaN ->
      userAgentHeader (fst (prepare env o c)) = None /\
      _UAIndex (snd (prepare env o c)) = NaN) /\
  (forall ps,
      proxies o = Some ps ->
      truthyString (proxy o) = false ->
      jsRem (_proxyIndex c) (length ps) = NaN ->
      proxy (fst (prepare env o c)) = None /\
      _proxyIndex (snd (prepare env o c)) = NaN).
Proof.
  split.
  - intros uas Huas Hnan. unfold prepare, assignUserAgent.
    cbn [forceUTF8 isJson set_headers userAgents set_encoding headers].
    assert (Hua : forall o', userAgents o' = userAgents o ->
                             headers o' = Some (lowerObjectKeys env (default ∅ (headers o))) ->
                             forall c', _UAIndex c' = _UAIndex c ->
               userAgentHeader
                 (fst (let '(o2, c2) := assignUserAgent o' c' in assignProxy o2 c2)) = None /\
               _UAIndex (snd (let '(o2, c2) := assignUserAgent o' c' in assignProxy o2 c2))
               = NaN).
    { intros o' Ho' Hh c' Hc'. unfold assignUserAgent. rewrite Ho', Huas, Hc', Hnan.
      cbv beta iota zeta.
      match goal with
      | |- context [assignProxy ?o2 ?c2] =>
          destruct (assignProxy_keeps o2 c2) as (_ & Hheaders & Hidx)
      end.
      unfold userAgentHeader. rewrite Hheaders, Hidx. cbn [headers set_headers default].
      split; [apply lookup_setHeader | reflexivity]. }
    destruct (isTrue (forceUTF8 o) || isTrue (isJson o));
      destruct (truthyString (proxy o)); try destruct (proxies o);
      apply Hua; reflexivity.
  - intros ps Hps Hfree Hnan. unfold prepare.
    cbn [forceUTF8 isJson set_headers].
    assert (Hproxy : forall o' c',
               proxies o' = proxies o -> proxy o' = proxy o ->
               _proxyIndex c' = _proxyIndex c ->
               proxy (fst (let '(o2, c2) := assignUserAgent o' c' in assignProxy o2 c2))
               = None /\
               _proxyIndex (snd (let '(o2, c2) := assignUserAgent o' c' in assignProxy o2 c2))
               = NaN).
    { intros o' c' Ho' Hp' Hc'. unfold assignUserAgent, assignProxy.
      destruct (userAgents o') as [[ua|uas]|];
        cbn [proxies proxy set_headers set_UAIndex _proxyIndex];
        rewrite Ho', Hps, Hp', Hfree, Hc', Hnan; split; reflexivity. }
    rewrite Hfree, Hps.
    destruct (isTrue (forceUTF8 o) || isTrue (isJson o)); apply Hproxy; reflexivity.
Qed.

(** X17. One descriptor with an empty list stops the rotation for good.
    With [userAgents: []] the index becomes [NaN] ([i % 0]) and stays
    [NaN] ([NaN++], [NaN % n]): that descriptor and every later one with a
    list of user agents, whatever its length, is sent without a
    [user-agent] header. The same holds for [proxies: []] and the proxy of
    later descriptors that take theirs from a list. *)
Theorem empty_rotation_list_is_absorbing :
  forall (o : CrawlerOptions) (c : Crawler),
    (userAgents o = Some (UaList []) ->
     userAgentHeader (fst (prepare env o c)) = None /\
     forall os o' uas,
       userAgents o' = Some (UaList uas) ->
       userAgentHeader (fst (prepare env o' (dispatchAll env os (snd (prepare env o c)))))
       = None) /\
    (proxies o = Some [] ->
     truthyString (proxy o) = false ->
     proxy (fst (prepare env o c)) = None /\
     forall os o' ps,
       proxies o' = Some ps ->
       truthyString (proxy o') = false ->
       proxy (fst (prepare env o' (dispatchAll env os (snd (prepare env o c))))) = None).
Proof.
  intros o c. destruct (prepare_at_NaN o c) as [Hua Hproxy]. split.
  - intros Hempty. destruct (Hua [] Hempty) as [Hheader Hnan].
    { destruct (_UAIndex c); reflexivity. }
    split; [exact Hheader|]. intros os o' uas Huas.
    destruct (dispatchAll_NaN os (snd (prepare env o c))) as [Hall _].
    destruct (prepare_at_NaN o' (dispatchAll env os (snd (prepare env o c)))) as [Hua' _].
    apply (Hua' uas Huas). rewrite (Hall Hnan). reflexivity.
  - intros Hempty Hfree. destruct (Hproxy [] Hempty Hfree) as [Hnone Hnan].
    { destruct (_proxyIndex c); reflexivity. }
    split; [exact Hnone|]. intros os o' ps Hps Hfree'.
    destruct (dispatchAll_NaN os (snd (prepare env o c))) as [_ Hall].
    destruct (prepare_at_NaN o' (dispatchAll env os (snd (prepare env o c)))) as [_ Hproxy'].
    apply (Hproxy' ps Hps Hfree'). rewrite (Hall Hnan). reflexivity.
Qed.

Lemma prepare_Num o c :
  (forall i,
      _UAIndex c = Num i -> userAgents o <> Some (UaList []) ->
      exists k, _UAIndex (snd (prepare env o c)) = Num k) /\
  (forall j,
      _proxyIndex c = Num j -> proxies o <> Some [] ->
      exists k, _proxyIndex (snd (prepare env o c)) = Num k).
Proof.
  unfold prepare, assignUserAgent, assignProxy.
  cbn [forceUTF8 isJson set_headers].
  repeat (break_inner; cbv beta iota zeta delta [snd fst]);
    repeat match goal with
           | H : (_, _) = (_, _) |- _ => injection H as <- <-
           end;
    split; intros i Hi Hne; simpl in *; rewrite ?Hi;
    repeat match goal with
           | H : _ = Some (UaList ?l) |- _ => destruct l; [congruence|]; clear H
           | H : _ = Some ?l |- context [length ?l] => destruct l; [congruence|]; clear H
           end;
    simpl; eauto.
Qed.

Lemma dispatchAll_Num os :
  forall c,
    (forall i,
        _UAIndex c = Num i ->
        Forall (fun o => userAgents o <> Some (UaList [])) os ->
        exists k, _UAIndex (dispatchAll env os c) = Num k) /\
    (forall j,
        _proxyIndex c = Num j ->
        Forall (fun o => proxies o <> Some []) os ->
        exists k, _proxyIndex (dispatchAll env os c) = Num k).
Proof.
  induction os as [|o os IH]; intros c; [split; eauto|].
  cbn [dispatchAll]. destruct (prepare_Num o c) as [Hua Hproxy].
  destruct (IH (snd (prepare env o c))) as [IHua IHproxy]. split.
  - intros i Hi Hall. apply Forall_cons in Hall as [Ho Hall].
    destruct (Hua i Hi Ho) as [k Hk]. apply (IHua k Hk Hall).
  - intros j Hj Hall. apply Forall_cons in Hall as [Ho Hall].
    destruct (Hproxy j Hj Ho) as [k Hk]. apply (IHproxy k Hk Hall).
Qed.

(** C8 (amended). While the rotation index is a number, a dispatch with a
    user-agent list of length N > 0 takes the entry at the index modulo N
    for the [user-agent] header and leaves the index one above that
    position, so that the dispatch that follows [k] earlier ones with the
    same list takes entry [(i + k) mod N]: the list is walked in order.
    The proxy list is walked the same way when no fixed proxy is set.
    [_execute] starts with these steps and hands the descriptor they
    produce on. The index is a number from the construction of the
    crawler on, through any dispatches, as long as none of them carries
    an empty list. *)
Theorem rotation_is_round_robin :
  forall (o : CrawlerOptions) (c : Crawler),
    (forall uas i,
        userAgents o = Some (UaList uas) -> (0 < length uas)%nat ->
        _UAIndex c = Num i ->
        userAgentHeader (fst (prepare env o c)) = uas !! (i mod length uas)%nat /\
        _UAIndex (snd (prepare env o c)) = Num (S (i mod length uas))) /\
    (forall uas i os,
        userAgents o = Some (UaList uas) -> (0 < length uas)%nat ->
        _UAIndex c = Num i ->
        Forall (fun o' => userAgents o' = Some (UaList uas)) os ->
        userAgentHeader (fst (prepare env o (dispatchAll env os c)))
        = uas !! ((i + length os) mod length uas)%nat) /\
    (forall uas userOptions os,
        userAgents o = Some (UaList uas) -> (0 < length uas)%nat ->
        Forall (fun o' => userAgents o' = Some (UaList uas)) os ->
        userAgentHeader
          (fst (prepare env o (dispatchAll env os (constructor env userOptions))))
        = uas !! (length os mod length uas)%nat) /\
    (forall ps j,
        proxies o = Some ps -> (0 < length ps)%nat ->
        truthyString (proxy o) = false ->
        _proxyIndex c = Num j ->
        proxy (fst (prepare env o c)) = ps !! (j mod length ps)%nat /\
        _proxyIndex (snd (prepare env o c)) = Num (S (j mod length ps))) /\
    (forall fuel,
        preRequest (fst (prepare env o c)) = None ->
        _execute env (S fuel) o c
        = request env (_execute env fuel) (fst (prepare env o c)) (snd (prepare env o c))) /\
    (forall uas userOptions os,
        userAgents o = Some (UaList uas) -> (0 < length uas)%nat ->
        Forall (fun o' => userAgents o' <> Some (UaList [])) os ->
        exists i,
          _UAIndex (dispatchAll env os (constructor env userOptions)) = Num i /\
          userAgentHeader
            (fst (prepare env o (dispatchAll env os (constructor env userOptions))))
          = uas !! (i mod length uas)%nat /\
          _UAIndex (snd (prepare env o (dispatchAll env os (constructor env userOptions))))
          = Num (S (i mod length uas))) /\
    (forall ps userOptions os,
        proxies o = Some ps -> (0 < length ps)%nat ->
        truthyString (proxy o) = false ->
        Forall (fun o' => proxies o' <> Some []) os ->
        exists j,
          _proxyIndex (dispatchAll env os (constructor env userOptions)) = Num j /\
          proxy (fst (prepare env o (dispatchAll env os (constructor env userOptions))))
          = ps !! (j mod length ps)%nat /\
          _proxyIndex (snd (prepare env o (dispatchAll env os (constructor env userOptions))))
          = Num (S (j mod length ps))).
Proof.
  intros o c.
  assert (Hcycle : forall uas i os c0,
             userAgents o = Some (UaList uas) -> (0 < length uas)%nat ->
             _UAIndex c0 = Num i ->
             Forall (fun o' => userAgents o' = Some (UaList uas)) os ->
             userAgentHeader (fst (prepare env o (dispatchAll env os c0)))
             = uas !! ((i + length os) mod length uas)%nat).
  { intros uas i os c0 Hua Hne Hi Hall.
    destruct (dispatchAll_UAIndex env uas os Hne Hall c0 i Hi) as (k & Hk & Hmod).
    destruct (prepare_userAgent env o _ uas k Hua Hne Hk) as [Hh _].
    rewrite Hh, Hmod. reflexivity. }
  repeat apply conj.
  - intros uas i. apply prepare_userAgent.
  - intros uas i os Hua Hne Hi Hall. apply Hcycle; assumption.
  - intros uas userOptions os Hua Hne Hall.
    apply (Hcycle uas 0%nat os (constructor env userOptions)); auto.
  - intros ps j. apply prepare_proxy.
  - intros fuel Hhook. cbn [_execute]. destruct (prepare env o c) as [o' c'].
    simpl in Hhook. rewrite Hhook. reflexivity.
  - intros uas userOptions os Hua Hne Hall.
    destruct (dispatchAll_Num os (constructor env userOptions)) as [Hnum _].
    destruct (Hnum 0%nat eq_refl Hall) as [i Hi]. exists i. split; [exact Hi|].
    apply prepare_userAgent; assumption.
  - intros ps userOptions os Hps Hne Hfree Hall.
    destruct (dispatchAll_Num os (constructor env userOptions)) as [_ Hnum].
    destruct (Hnum 0%nat eq_refl Hall) as [j Hj]. exists j. split; [exact Hj|].
    apply prepare_proxy; assumption.
Qed.

(** *** [add] on a batch *)

Lemma add_flattens input c : add env input c = forEach env (flattenDeep input) c.
Proof.
  unfold add. destruct input; cbn [List.flat_map flattenDeep]; rewrite ?app_nil_r;
    reflexivity.
Qed.

Lemma descriptor_options o c c0 : options c0 = options c -> descriptor o c0 = descriptor o c.
Proof. unfold descriptor. intros ->. reflexivity. Qed.

Lemma forEach_submits c inputs :
  isTrue (skipDuplicates (options c)) = false ->
  forallb (objectOrRejected env) inputs = true ->
  forall c0,
    options c0 = options c ->
    exists c',
      forEach env inputs c0 = (Normal tt, c') /\
      options c' = options c /\
      calls (_limiters c') = calls (_limiters c0) ++ List.flat_map (submitted env c) inputs /\
      notifications "schedule" (history c')
      = notifications "schedule" (history c0)
        ++ repeat "schedule"%string (length (List.flat_map (submitted env c) inputs)) /\
      logged (history c')
      = logged (history c0) ++ repeat LWarn (length (List.filter (isRejected env) inputs)).
Proof.
  intros Hskip. induction inputs as [|v inputs IH]; intros Hall c0 Hc0.
  - exists c0. cbn. rewrite !app_nil_r. auto.
  - cbn [forallb] in Hall. apply andb_prop in Hall as [Hv Hall].
    cbn [forEach List.flat_map List.filter]. unfold addOne, submitted, objectOrRejected, isRejected in *.
    destruct (getValidOptions env v) as [valid|err].
    + destruct valid as [| | | | | | |p o]; try discriminate Hv.
      cbn [asOptions]. rewrite Hc0, Hskip. cbn [negb].
      rewrite (descriptor_options o c c0 Hc0).
      destruct (IH Hall (_schedule (descriptor o c) c0) Hc0)
        as (c' & -> & Hopt & Hcalls & Hsched & Hlog).
      exists c'. split; [reflexivity|]. split; [exact Hopt|].
      rewrite Hcalls, Hsched, Hlog. unfold _schedule, notifications, logged, emit.
      cbn [call _limiters calls history record].
      rewrite !List.flat_map_app. cbn. rewrite <- !app_assoc, ?app_nil_r. auto.
    + destruct (IH Hall (log LWarn c0) Hc0) as (c' & -> & Hopt & Hcalls & Hsched & Hlog).
      exists c'. split; [reflexivity|]. split; [exact Hopt|].
      rewrite Hcalls, Hsched, Hlog. unfold notifications, logged, log.
      rewrite !observe_record. cbn. rewrite <- ?app_assoc, ?app_nil_r. auto.
Qed.

(** X18. [add] on a batch: the input is flattened, and each entry is
    handled on its own. An entry that validation rejects costs one warning
    and stops nothing; each valid option object is submitted, in the order
    of the input, as the descriptor completed with the crawler's options,
    under its own limiter id and priority, with one [schedule] event.
    (Without duplicate detection.) *)
Theorem add_submits_each_valid_entry :
  forall (input : JsValue) (c : Crawler),
    isTrue (skipDuplicates (options c)) = false ->
    forallb (objectOrRejected env) (flattenDeep input) = true ->
    exists c',
      add env input c = (Normal tt, c') /\
      calls (_limiters c')
      = calls (_limiters c) ++ List.flat_map (submitted env c) (flattenDeep input) /\
      notifications "schedule" (history c')
      = notifications "schedule" (history c)
        ++ repeat "schedule"%string
             (length (List.flat_map (submitted env c) (flattenDeep input))) /\
      logged (history c')
      = logged (history c)
        ++ repeat LWarn (length (List.filter (isRejected env) (flattenDeep input))).
Proof.
  intros input c Hskip Hall. rewrite add_flattens.
  destruct (forEach_submits c (flattenDeep input) Hskip Hall c eq_refl)
    as (c' & He & _ & H).
  exists c'. auto.
Qed.

(** *** A hook that does not call back *)

(** X19. A pre-request hook that throws, or that never calls [done],
    ends the life of the descriptor: the transport is not called, the
    callback is not called, and nothing is handed back to the limiter, so
    the slot of the task stays taken. *)
Theorem hook_without_done_keeps_the_slot :
  forall (fuel : nat) (o : CrawlerOptions) (limiterId : option Z) (c : Crawler)
         (hook : nat),
    preRequest o = Some hook ->
    truthyString (html o) = false ->
    url o <> Some (UrlFunction None) ->
    (forall o', preRequestFn env hook o' = HookSilent \/
                exists e, preRequestFn env hook o' = HookThrows e) ->
    exists c',
      task env (S fuel) o limiterId c = Some c' /\
      _limiters c' = _limiters c /\
      hookCalls (history c') = hookCalls (history c) ++ [hook] /\
      attempts (history c') = attempts (history c) /\
      callbackCalls (history c') = callbackCalls (history c).
Proof.
  intros fuel o limiterId c hook Hhook Hhtml Hurl Hsilent.
  unfold task.
  cbn [html set_url set_callback set_release url uri].
  rewrite Hhtml.
  set (c0 := if truthyNumber limiterId then emit "limiterChange" c else c).
  assert (Hc0 : _limiters c0 = _limiters c /\
                forall A (f : Event -> list A),
                  f (Emit "limiterChange") = [] ->
                  List.flat_map f (history c0) = List.flat_map f (history c)).
  { unfold c0. destruct (truthyNumber limiterId); split; try reflexivity.
    intros A f Hf. unfold emit. rewrite observe_record, Hf. apply app_nil_r. }
  destruct Hc0 as [Hlim0 Hobs0].
  assert (Hrun : forall d,
             preRequest d = Some hook ->
             exists c',
               match _execute env (S fuel) d c0 with
               | Some (out, c1) => Some (unhandled out c1)
               | None => None
               end = Some c' /\
               _limiters c' = _limiters c /\
               hookCalls (history c') = hookCalls (history c) ++ [hook] /\
               attempts (history c') = attempts (history c) /\
               callbackCalls (history c') = callbackCalls (history c)).
  { intros d Hd. cbn [_execute].
    destruct (prepare env d c0) as [o1 c1] eqn:Hp.
    destruct (prepare_control _ _ _ _ Hp) as ((Hpre & _) & Hlim & _ & Hobs).
    rewrite Hpre, Hd.
    destruct (Hsilent o1) as [-> | [e ->]]; eexists; (split; [reflexivity|]);
      cbn [unhandled]; unfold hookCalls, attempts, callbackCalls;
      rewrite ?observe_record;
      rewrite ?observe_log
        by (apply quiet_seesHook || apply quiet_seesGot || apply quiet_seesCallback);
      rewrite ?observe_record;
      rewrite !Hobs
        by (apply quiet_seesHook || apply quiet_seesGot || apply quiet_seesCallback);
      rewrite !Hobs0 by reflexivity;
      cbn [record log _limiters]; rewrite Hlim, Hlim0;
      cbn; rewrite ?app_nil_r; auto. }
  destruct (orDefault (url o) (UrlString <$> uri o)) as [[u|[u|]]|] eqn:Hu;
    try (apply Hrun; exact Hhook).
  exfalso. apply Hurl. destruct (url o); [exact Hu|].
  destruct (uri o); discriminate Hu.
Qed.

End CrawlerProperties.

(** * Further properties: the markup test *)

Section MarkupDetection.

Lemma stripPrefixCI_sound p :
  forall s rest,
    Regex.stripPrefixCI p s = Some rest ->
    exists m, s = m +:+ rest /\ Regex.lowerString m = Regex.lowerString p.
Proof.
  induction p as [|a p IH]; intros s rest H.
  - injection H as <-. exists ""%string. split; reflexivity.
  - destruct s as [|b s]; [discriminate|]. cbn [Regex.stripPrefixCI] in H.
    destruct (Ascii.eqb _ _) eqn:Heq; [|discriminate].
    apply Ascii.eqb_eq in Heq.
    destruct (IH s rest H) as (m & -> & Hm).
    exists (String b m). split; [reflexivity|].
    rewrite !lowerString_cons. congruence.
Qed.

Lemma stripPrefixCI_complete p :
  forall m rest,
    Regex.lowerString m = Regex.lowerString p ->
    Regex.stripPrefixCI p (m +:+ rest) = Some rest.
Proof.
  induction p as [|a p IH]; intros m rest H.
  - destruct m as [|b m]; [reflexivity|]. rewrite lowerString_cons in H. discriminate.
  - destruct m as [|b m]; rewrite !lowerString_cons in H; [discriminate|].
    injection H as Hhead Htail.
    change (String b m +:+ rest) with (String b (m +:+ rest)).
    cbn [Regex.stripPrefixCI]. rewrite Hhead, Ascii.eqb_refl. apply IH, Htail.
Qed.

Lemma testCI_unfold p s :
  Regex.testCI p s
  = match Regex.stripPrefixCI p s with
    | Some _ => true
    | None =>
        match s with
        | EmptyString => false
        | String _ s' => Regex.testCI p s'
        end
    end.
Proof. destruct s; reflexivity. Qed.

Lemma testCI_spec p s :
  Regex.testCI p s = true <->
  exists pre m post, s = pre +:+ m +:+ post /\ Regex.lowerString m = Regex.lowerString p.
Proof.
  split.
  - induction s as [|a s IH]; rewrite testCI_unfold;
      destruct (Regex.stripPrefixCI p _) as [rest|] eqn:Hstrip; intros H;
      try discriminate;
      try (destruct (stripPrefixCI_sound _ _ _ Hstrip) as (m & Hs & Hm);
           exists ""%string, m, rest; split; [exact Hs | exact Hm]).
    destruct (IH H) as (pre & m & post & -> & Hm).
    exists (String a pre), m, post. split; [reflexivity | exact Hm].
  - intros (pre & m & post & -> & Hm).
    induction pre as [|a pre IH]; rewrite testCI_unfold.
    + change (""%string +:+ m +:+ post) with (m +:+ post).
      rewrite (stripPrefixCI_complete p m post Hm). reflexivity.
    + destruct (Regex.stripPrefixCI p _); [reflexivity|].
      change (String a pre +:+ m +:+ post) with (String a (pre +:+ m +:+ post)).
      exact IH.
Qed.

(** X20. [_detectHtmlOnHeaders] holds exactly when the response has a
    content type in which [xml] or [html] occurs somewhere, in any mix of
    upper and lower case; without a content type it does not hold. *)
Theorem detectHtmlOnHeaders_spec :
  forall (headers : gmap string string),
    _detectHtmlOnHeaders headers = true <->
    exists contentType pre m post,
      headers !! "content-type"%string = Some contentType /\
      contentType = (pre +:+ m +:+ post)%string /\
      (Regex.lowerString m = "xml"%string \/ Regex.lowerString m = "html"%string).
Proof.
  intros headers. unfold _detectHtmlOnHeaders. split.
  - destruct (headers !! "content-type"%string) as [contentType|]; [|discriminate].
    intros H. apply orb_prop in H as [H | H]; apply testCI_spec in H;
      destruct H as (pre & m & post & Hct & Hm); exists contentType, pre, m, post; auto.
  - intros (contentType & pre & m & post & -> & Hct & [Hm | Hm]).
    + apply orb_true_intro. left. apply testCI_spec. exists pre, m, post. auto.
    + apply orb_true_intro. right. apply testCI_spec. exists pre, m, post. auto.
Qed.

End MarkupDetection.

(** * The theorems at concrete inputs *)

Module Witness.

Import Example.

(** C6 at [{ maxConnections: 10, rateLimit: 1000 }]. *)
Lemma rateLimit_1000 :
  let o := set_rateLimit (Some 1000) (set_maxConnections (Some 10) emptyOptions) in
  rateLimit o = Some 1000 /\ 0 < 1000 /\
  maxConnections (options (constructor online (Some o))) = Some 1 /\
  cl_maxConnections (clusterOptions (_limiters (constructor online (Some o)))) = Some 1.
Proof.
  intros o.
  destruct (constructor_rateLimit_forces_maxConnections_1 online o 1000)
    as (_ & H1 & H2 & _); [reflexivity | lia |].
  split; [reflexivity|]. split; [lia|]. split; [exact H1 | exact H2].
Defined.

(** C8 at a list of three user agents and the rotation index 1. *)
Lemma rotation_from_index_1 :
  let c := set_UAIndex (Num 1) (constructor online None) in
  userAgents rotating = Some (UaList ["agent-a"; "agent-b"; "agent-c"]%string) /\
  (0 < 3)%nat /\ _UAIndex c = Num 1 /\
  userAgentHeader (fst (prepare online rotating c)) = Some "agent-b"%string /\
  _UAIndex (snd (prepare online rotating c)) = Num 2.
Proof.
  intros c.
  destruct (rotation_is_round_robin online rotating c) as (H & _).
  destruct (H ["agent-a"; "agent-b"; "agent-c"]%string 1%nat) as [H1 H2];
    [reflexivity | simpl; lia | reflexivity |].
  split; [reflexivity|]. split; [lia|]. split; [reflexivity|].
  split; [exact H1 | exact H2].
Defined.

(** C4 at a refused request with 2 retries left. *)
Lemma retry_of_refused_request :
  let o := set_retries (Some 2) target in
  let c := constructor offline None in
  retries o = Some 2 /\ 0 < 2 /\
  _handler offline (_execute offline 3) (Some refused) o None c
  = match _execute offline 3 (set_retries (Some 1) o)
            (record (SetTimeout (retryInterval o)) (log LWarn c)) with
    | Some (out, c') => Some (Normal None, unhandled out c')
    | None => None
    end /\
  _limiters (record (SetTimeout (retryInterval o)) (log LWarn c)) = _limiters c.
Proof.
  intros o c.
  destruct (retry_resubmits_directly_to_executor offline 3 refused o c 2)
    as (H1 & H2 & _); [reflexivity | lia |].
  split; [reflexivity|]. split; [lia|]. split; [exact H1 | exact H2].
Defined.

(** C10 at [send("http://example.com/")] on a fresh crawler. *)
Lemma send_of_a_url :
  let c := constructor online None in
  capabilityFree (options c) /\
  forall fuel out c',
    send online fuel (VString "http://example.com/") c = Some (out, c') ->
    _limiters c' = _limiters c.
Proof.
  intros c.
  assert (Hbase : capabilityFree (options c)).
  { split; [reflexivity|]. intros r. simpl. discriminate. }
  destruct (send_bypasses_limiter online (VString "http://example.com/") c)
    as (_ & H & _).
  split; [exact Hbase|]. apply H; [exact Hbase|].
  intros valid o Hvalid Hopts. vm_compute in Hvalid. injection Hvalid as <-.
  simpl in Hopts. injection Hopts as <-.
  split; [reflexivity|]. intros r. simpl. discriminate.
Defined.


(** C7 (amended) at [{ html: "<p>charset=iso-8859-1</p>", callback }]. *)
Lemma inline_markup :
  let o := set_callback (Some (UserCallback 1)) inline in
  let c := constructor online None in
  html o = Some "<p>charset=iso-8859-1</p>"%string /\
  truthyString (html o) = true /\
  exists c',
    task online 0 o None c = Some c' /\
    attempts (history c') = attempts (history c) /\
    decodeCalls (history c') = decodeCalls (history c) ++ ["iso-8859-1"%string] /\
    map (fun call => (fst call, res_body (snd call))) (callbackCalls (history c'))
    = [(None, Some (BString "<p>charset=iso-8859-1</p>"))] /\
    doneCount c' = 1%nat.
Proof.
  intros o c.
  destruct (inline_body_skips_executor online 0 o None c
              "<p>charset=iso-8859-1</p>"%string)
    as (H1 & _ & _ & _ & _ & H6 & _ & _ & _ & _ & H11 & _ & H13 & H14);
    [reflexivity | reflexivity |].
  split; [reflexivity|]. split; [reflexivity|].
  eexists. split; [exact H1|]. split; [exact H6|]. split.
  - rewrite H11 by discriminate. vm_compute. reflexivity.
  - split.
    + rewrite (H14 1%nat "<p>charset=iso-8859-1</p>"%string eq_refl);
        [vm_compute; reflexivity | discriminate | vm_compute; reflexivity].
    + unfold doneCount. rewrite H13. vm_compute. reflexivity.
Defined.

(** C2 (amended) at the number 42 and at a URL. *)
Lemma number_rejected_url_admitted :
  passesValidation online (VNumber 42) = false /\
  getValidOptions online (VNumber 42) = Throw (invalidOptions online (VNumber 42)) /\
  (forall c, addOne online (VNumber 42) c = (Normal tt, log LWarn c)) /\
  (forall fuel c,
      send online fuel (VNumber 42) c = Some (Throw (invalidOptions online (VNumber 42)), c)) /\
  specShape online (VString "http://example.com/") = true /\
  getValidOptions online (VString "http://example.com/")
  = Normal (VObject ObjectPrototype target).
Proof.
  destruct (validation_error_goes_to_add_or_send online (VNumber 42)) as [Hno _].
  destruct (Hno eq_refl) as (H1 & _ & H3 & _ & H5).
  destruct (validation_error_goes_to_add_or_send online (VString "http://example.com/"))
    as (_ & Hyes & _).
  destruct (Hyes eq_refl) as (_ & proto & o & Hvalid & Hproto & Ho).
  split; [reflexivity|]. split; [exact H1|]. split; [intros c; apply H3|].
  split; [exact H5|]. split; [reflexivity|].
  rewrite Hvalid, Hproto, Ho. reflexivity.
Defined.

(** C3 (amended) at a URL added while the dedup store is down. *)
Lemma dedup_store_down :
  let c := constructor dedupDown (Some (set_skipDuplicates (Some true) emptyOptions)) in
  isTrue (skipDuplicates (options c)) = true /\
  seen_exists dedupDown (descriptor target c) = inl storeDown /\
  addOne dedupDown (VString "http://example.com/") c = (Normal tt, log LError c).
Proof.
  intros c.
  destruct (dedup_failure_drops_descriptor dedupDown (VString "http://example.com/")
              (VObject ObjectPrototype target) target c)
    as (H & _); [reflexivity | reflexivity | reflexivity |].
  destruct (H storeDown eq_refl) as (H1 & _).
  split; [reflexivity|]. split; [reflexivity | exact H1].
Defined.

(** C1 (amended) at a descriptor as [_schedule] leaves it when the caller
    gave no callback. *)
Lemma refused_three_times :
  let o :=
    set_callback (Some (ReleaseCallback (mkRelease None)))
      (set_release (Some (mkRelease None)) (set_retries (Some 2) target)) in
  let c := constructor offline None in
  (forall k o', exists e, got offline k o' = inl e) /\
  exists c',
    _execute offline 3 o c = Some (Normal None, c') /\
    attempts (history c') = attempts (history c) ++ [Some 2; Some 1; Some 0] /\
    doneCount c' = S (doneCount c).
Proof.
  intros o c.
  assert (Hfail : forall k o', exists e, got offline k o' = inl e).
  { intros k o'. exists refused. reflexivity. }
  destruct (exhausted_retries_reach_callback offline Hfail 3 o c
              (ReleaseCallback (mkRelease None)))
    as (c' & o' & err & H1 & H2 & _ & _ & _ & _ & _ & _ & _ & _ & H3);
    [reflexivity | reflexivity | reflexivity | lia |].
  destruct (H3 None) as [H4 _]; [reflexivity | left; reflexivity |].
  split; [exact Hfail|]. exists c'. split; [exact H1|]. split; [exact H2 | exact H4].
Defined.

(** C9 (amended) at a hook that fails on a descriptor without retries. *)
Lemma failing_hook_without_retries :
  let o := set_preRequest (Some 0%nat) (set_retries (Some 0) target) in
  let c := constructor hookFails None in
  let o1 := fst (prepare hookFails o c) in
  let c1 := snd (prepare hookFails o c) in
  preRequest o1 = Some 0%nat /\
  preRequestFn hookFails 0 o1 = HookNext o1 (Some hookFailure) /\
  attempts (history (log LDebug (record (PreRequestCall 0) c1))) = attempts (history c) /\
  hookCalls (history (log LDebug (record (PreRequestCall 0) c1)))
  = hookCalls (history c) ++ [0%nat].
Proof.
  intros o c o1 c1.
  destruct (hook_error_goes_to_handler hookFails 1 o c o1 c1 0%nat o1 hookFailure)
    as (_ & H1 & H2 & _); [vm_compute; reflexivity | reflexivity | reflexivity |].
  split; [reflexivity|]. split; [reflexivity|]. split; [exact H1 | exact H2].
Defined.

End Witness.

(** * Where the code parts from the specification *)

Module Counterexample.

Import Example.

(** C1. A caller's callback that never calls [done]: the transport is
    tried three times and the callback is called once, but the release
    capability is not invoked. *)
Lemma release_is_left_to_the_callback :
  exists c',
    forgetful = Some c' /\
    attempts (history c') = [Some 2; Some 1; Some 0] /\
    length (callbackCalls (history c')) = 1%nat /\
    doneCount c' = 0%nat /\
    doneCount c' <> 1%nat.
Proof.
  eexists. split; [vm_compute; reflexivity|].
  vm_compute. repeat split; discriminate.
Qed.

(** C2. [add] of the number 42: the TypeError of the validation is caught
    inside [add], which returns to its caller with one more warning in the
    log. And the string [42] is none of the three shapes, yet it passes
    the validation: no TypeError is thrown for it. *)
Lemma validation_error_stays_inside_add :
  let c := constructor Sample.parsing None in
  getValidOptions Sample.parsing (VNumber 42)
  = Throw (invalidOptions Sample.parsing (VNumber 42)) /\
  add Sample.parsing (VNumber 42) c = (Normal tt, log LWarn c) /\
  specShape Sample.parsing (VString "42") = false /\
  getValidOptions Sample.parsing (VString "42") = Normal (VNumber 42).
Proof. vm_compute. repeat split. Qed.

(** C7. With [html: ""] the option is set, but the descriptor is fetched:
    the transport is called. And with [forceUTF8] an inline body that
    declares iso-8859-1 is decoded as iso-8859-1, where the same body
    fetched is decoded as utf8: line 154 is passed only on the way to the
    transport. *)
Lemma inline_body_is_not_always_handled_as_fetched :
  let c := constructor online None in
  (exists c',
      task online 1 (set_html (Some ""%string) target) None c = Some c' /\
      attempts (history c') = [None]) /\
  (exists c',
      task online 1
        (set_html (Some "<html><head><meta charset=ISO-8859-1></head></html>"%string)
           Sample.forcedUTF8) None c = Some c' /\
      attempts (history c') = [] /\
      decodeCalls (history c') = ["iso-8859-1"%string]) /\
  (exists c',
      task online 1 Sample.forcedUTF8 None c = Some c' /\
      raw_body page
      = Some (RawBuffer "<html><head><meta charset=ISO-8859-1></head></html>") /\
      decodeCalls (history c') = ["utf8"%string]).
Proof.
  intros c. split; [|split]; eexists; (split; [vm_compute; reflexivity|]);
    vm_compute; repeat split.
Qed.

(** C8. After one dispatch with [userAgents: []] the rotation index is
    [NaN]: a descriptor with a list of three user agents that is
    dispatched next gets no user agent, and the index stays [NaN]. *)
Lemma empty_list_ends_the_rotation :
  let c :=
    snd (prepare online (set_userAgents (Some (UaList [])) target)
           (constructor online None)) in
  userAgents rotating = Some (UaList ["agent-a"; "agent-b"; "agent-c"]%string) /\
  _UAIndex c = NaN /\
  userAgentHeader (fst (prepare online rotating c)) = None /\
  _UAIndex (snd (prepare online rotating c)) = NaN.
Proof. vm_compute. repeat split. Qed.

(** C10. [send] of an option object that was scheduled before and so
    holds the release capability of its task and, for want of a callback,
    has it as its callback: when the response is there the capability is
    invoked, and the cluster gets a [done] that no [submit] of this call
    stands against. *)
Lemma send_of_a_scheduled_object_calls_done :
  let c := constructor online None in
  let o :=
    set_callback (Some (ReleaseCallback (mkRelease None)))
      (set_release (Some (mkRelease None)) target) in
  exists out c',
    send online 1 (VObject ObjectPrototype o) c = Some (out, c') /\
    calls (_limiters c) = [] /\
    calls (_limiters c') = [Done None] /\
    _limiters c' <> _limiters c.
Proof.
  intros c o. eexists _, _. split; [vm_compute; reflexivity|].
  split; [reflexivity|]. split; [vm_compute; reflexivity|].
  intros H. apply (f_equal calls) in H. vm_compute in H. discriminate H.
Qed.

(** C3. With the dedup store down the descriptor is not admitted: nothing
    is scheduled, nothing is submitted, the error is logged. *)
Lemma dedup_failure_is_not_admitted :
  calls (_limiters unchecked) = [] /\
  submitCount unchecked = 0%nat /\
  notifications "schedule" (history unchecked) = [] /\
  logged (history unchecked) = [LDebug; LError].
Proof. vm_compute. repeat split. Qed.

(** C9. With the default 2 retries the error of the hook is not terminal:
    the hook is called three times, two retry timers apart, before the
    failure is final; the transport is never called. *)
Lemma hook_error_is_retried :
  exists c',
    hooked = Some c' /\
    hookCalls (history c') = [0; 0; 0]%nat /\
    timers (history c') = [Some 3000; Some 3000] /\
    attempts (history c') = [].
Proof.
  eexists. split; [vm_compute; reflexivity|].
  vm_compute. repeat split.
Qed.

End Counterexample.

(** * The further theorems at concrete inputs *)

Module Further.

Import Example Sample.

(** X2 at [text/html; charset=UTF-8]. *)
Lemma charset_of_a_content_type :
  let headers : gmap string string :=
    {[ "content-type"%string := "text/html; charset=UTF-8"%string ]} in
  getCharset headers = Some "utf-8"%string /\
  "utf-8"%string <> ""%string /\
  forallb isLowerCharsetChar (list_ascii_of_string "utf-8") = true.
Proof.
  intros headers.
  split; [vm_compute; reflexivity|].
  apply (getCharset_shape headers "utf-8"). vm_compute. reflexivity.
Defined.

(** X4 at [{ uri, retries: 1 }]. *)
Lemma uri_becomes_url :
  exists renamed,
    renameOptionParams (Some deprecated) = Some renamed /\
    renamed !! "retries"%string = Some (JNum 1) /\
    get renamed "url" = JStr "http://example.com/".
Proof.
  destruct (renameOptionParams_frame deprecated) as (renamed & H1 & H2 & H3 & _).
  exists renamed. split; [exact H1|]. split.
  - rewrite H2; [vm_compute; reflexivity|].
    apply (bool_decide_unpack _). vm_compute. exact I.
  - unfold renames in H3. apply Forall_cons in H3 as [Huri _].
    rewrite Huri; vm_compute; reflexivity.
Defined.

Lemma exactRetries_2 o : retries o = Some 2 -> exactRetries o.
Proof.
  intros H n Hn. rewrite H in Hn. injection Hn as <-.
  apply Z.leb_le. vm_compute. reflexivity.
Defined.

Lemma exactRetries_absent o : retries o = None -> exactRetries o.
Proof. intros H n Hn. rewrite H in Hn. discriminate Hn. Defined.

Lemma onlyRemoves_plain : onlyRemoves (cleanObject plain).
Proof.
  intros o key H. apply map_lookup_filter_None. left. exact H.
Defined.

Lemma keepsUrl_plain : keepsUrl (cleanObject plain).
Proof.
  intros o url H. apply map_lookup_filter_Some. split; [exact H | reflexivity].
Defined.

(** X5 at [request]. *)
Lemma retries_do_not_reach_got :
  onlyRemoves (cleanObject plain) /\
  exists g,
    alignOptions plain request = Normal g /\
    g !! "retries"%string = None /\
    g !! "jQuery"%string = None /\
    g !! "retry"%string = Some (JObject {[ "limit"%string := JNum 0 ]}).
Proof.
  split; [exact onlyRemoves_plain|].
  destruct (alignOptions plain request) as [g|e] eqn:H;
    [|vm_compute in H; discriminate H].
  destruct (alignOptions_strips_crawler_options plain request g onlyRemoves_plain H)
    as [Hstrip Hretry].
  exists g. split; [reflexivity|].
  split; [|split; [|exact Hretry]];
    apply Hstrip; apply (bool_decide_unpack _); vm_compute; exact I.
Defined.

(** X6 at [request]: no referer anywhere, so the origin of the url. *)
Lemma referer_is_the_origin :
  request !! "headers"%string = Some (JObject ∅) /\
  keepsUrl (cleanObject plain) /\
  exists g,
    alignOptions plain request = Normal g /\
    g !! "headers"%string
    = Some (JObject {[ "referer"%string := JStr "http://example.com" ]}).
Proof.
  split; [vm_compute; reflexivity|]. split; [exact keepsUrl_plain|].
  destruct (alignOptions plain request) as [g|e] eqn:H;
    [|vm_compute in H; discriminate H].
  destruct (alignOptions_referer_precedence plain request ∅ g) as (_ & _ & Horigin);
    [vm_compute; reflexivity | exact H |].
  exists g. split; [reflexivity|].
  rewrite (Horigin eq_refl eq_refl keepsUrl_plain "http://example.com/a/b"%string);
    vm_compute; reflexivity.
Defined.

(** X7 at [{}]. *)
Lemma no_headers :
  isNullish (get (∅ : gmap string Value) "headers") = true /\
  exists error, alignOptions plain ∅ = Throw error.
Proof.
  split; [reflexivity|]. apply alignOptions_needs_headers. reflexivity.
Defined.

(** X8 at [{ headers: {} }]. *)
Lemma no_url_no_referer :
  let options : gmap string Value := {[ "headers"%string := JObject ∅ ]} in
  options !! "url"%string = None /\
  exists error, alignOptions plain options = Throw error.
Proof.
  intros options. split; [vm_compute; reflexivity|].
  apply (alignOptions_needs_url_or_referer plain options ∅ onlyRemoves_plain);
    vm_compute; reflexivity.
Defined.

(** X9 at a url with a port, a path and a query. *)
Lemma origin_of_a_url :
  Origin.matchOrigin "https://example.com:8080/a/b?c=d"
  = Some "https://example.com:8080"%string.
Proof.
  apply (matchOrigin_is_the_origin "https" "example.com:8080" "/a/b?c=d");
    try discriminate; try reflexivity.
  right. eexists. reflexivity.
Defined.

(** X10 at a refused request with 2 retries. *)
Lemma three_attempts_at_most :
  let o := set_retries (Some 2) target in
  let c := constructor offline None in
  preRequest o = None /\ exactRetries o /\ (retryBudget o < 3)%nat /\
  exists out c' k,
    _execute offline 3 o c = Some (out, c') /\
    (k <= 2)%nat /\
    timers (history c') = timers (history c) ++ repeat (retryInterval o) k.
Proof.
  intros o c.
  destruct (attempts_bounded_by_retries offline 3 o c)
    as (out & c' & k & H1 & H2 & _ & H3 & _);
    [reflexivity | exact (exactRetries_2 o eq_refl) | vm_compute; lia |].
  split; [reflexivity|]. split; [exact (exactRetries_2 o eq_refl)|].
  split; [vm_compute; lia|].
  exists out, c', k. split; [exact H1|]. split; [exact H2 | exact H3].
Defined.

(** X11 at a refused request whose callback calls [done] once. *)
Lemma slot_handed_back_once :
  let o := set_callback (Some (UserCallback 1)) (set_retries (Some 2) target) in
  let c := constructor offline None in
  preRequest o = None /\ url o <> Some (UrlFunction None) /\
  exactRetries o /\ (retryBudget o < 3)%nat /\
  exists c',
    task offline 3 o None c = Some c' /\
    doneCount c' = (doneCount c + 1)%nat.
Proof.
  intros o c.
  assert (Hurl : url o <> Some (UrlFunction None)) by discriminate.
  destruct (task_completes_exactly_once offline 3 o None c)
    as (c' & H1 & _ & H2 & _);
    [reflexivity | exact Hurl | exact (exactRetries_2 o eq_refl) | vm_compute; lia |].
  split; [reflexivity|]. split; [exact Hurl|].
  split; [exact (exactRetries_2 o eq_refl)|]. split; [vm_compute; lia|].
  exists c'. split; [exact H1 | exact H2].
Defined.

(** X12 at [page]. *)
Lemma page_reaches_the_callback :
  let o := set_callback (Some (UserCallback 1)) target in
  let c := constructor online None in
  callback o = Some (UserCallback 1) /\
  exists res c',
    _handler online (_execute online 0) None o (Some page) c = Some (Normal None, c') /\
    callbackCalls (history c') = callbackCalls (history c) ++ [(None, res)] /\
    res_headers res = raw_headers page.
Proof.
  intros o c.
  destruct (response_always_reaches_callback online (_execute online 0) o page c 1)
    as (res & c' & H1 & H2 & H3 & _); [reflexivity|].
  split; [reflexivity|]. exists res, c'. split; [exact H1|]. split; [exact H2 | exact H3].
Defined.

(** X13 at [{ forceUTF8: true, encoding: null }] and a page that declares
    ISO-8859-1. *)
Lemma utf8_although_null :
  let c := constructor online None in
  preRequest forced = None /\
  isTrue (forceUTF8 forced) || isTrue (isJson forced) = true /\
  exactRetries forced /\ (retryBudget forced < 1)%nat /\
  encoding forced = EncNull /\
  got online (gotCalls c) (fst (prepare online forced c)) = inr page /\
  exists out c',
    _execute online 1 forced c = Some (out, c') /\
    decodeCalls (history c') = decodeCalls (history c) ++ ["utf8"%string].
Proof.
  intros c.
  destruct (forceUTF8_overrides_every_charset online 1 forced c)
    as (out & c' & H1 & _ & H2);
    [reflexivity | reflexivity | exact (exactRetries_absent forced eq_refl)
    | vm_compute; lia |].
  split; [reflexivity|]. split; [reflexivity|].
  split; [exact (exactRetries_absent forced eq_refl)|]. split; [vm_compute; lia|].
  split; [reflexivity|]. split; [reflexivity|].
  exists out, c'. split; [exact H1|]. apply (H2 page). reflexivity.
Defined.

(** X14 at [send("http://example.com/")] while the transport refuses. *)
Lemma send_rejects_after_one_attempt :
  let c := constructor offline None in
  getValidOptions offline (VString "http://example.com/")
  = Normal (VObject ObjectPrototype target) /\
  callback target = None /\ callback (options c) = None /\
  forall fuel,
  exists c',
    send offline (S fuel) (VString "http://example.com/") c = Some (Throw refused, c').
Proof.
  intros c.
  destruct (send_settles offline (VString "http://example.com/")
              (VObject ObjectPrototype target) target c)
    as (d & _ & Hret & H); try reflexivity.
  split; [reflexivity|]. split; [reflexivity|]. split; [reflexivity|].
  cbn [got offline collaborators] in H.
  unfold retriesLeft in H. rewrite Hret in H. cbn in H.
  intros fuel. destruct (H fuel) as (c' & Hsend & _). exists c'. exact Hsend.
Defined.

(** X15 at a refused request that takes its proxy from a list of two. *)
Lemma one_proxy_for_all_attempts :
  let o := set_retries (Some 1) rotating in
  let c := constructor offline None in
  preRequest o = None /\ (retryBudget o < 2)%nat /\
  truthyString (proxy o) = false /\
  exists out c' k,
    _execute offline 2 o c = Some (out, c') /\
    proxiesUsed (history c')
    = proxiesUsed (history c) ++ repeat (Some "http://proxy-1"%string) (S k) /\
    _proxyIndex c' = Num 1.
Proof.
  intros o c.
  destruct (retries_keep_the_proxy offline 2 o c) as (out & c' & H1 & _ & H2);
    [reflexivity | vm_compute; lia |].
  destruct (H2 ["http://proxy-1"; "http://proxy-2"]%string 0%nat "http://proxy-1"%string)
    as (k & H3 & H4); try reflexivity; try discriminate.
  split; [reflexivity|]. split; [vm_compute; lia|]. split; [reflexivity|].
  exists out, c', k. split; [exact H1|]. split; [exact H3 | exact H4].
Defined.


(** X17 at [{ userAgents: [] }], followed by a descriptor with three
    user agents. *)
Lemma no_agent_after_an_empty_list :
  let o := set_userAgents (Some (UaList [])) target in
  let c := constructor online None in
  userAgents o = Some (UaList []) /\
  userAgents rotating = Some (UaList ["agent-a"; "agent-b"; "agent-c"]%string) /\
  userAgentHeader (fst (prepare online rotating (snd (prepare online o c)))) = None.
Proof.
  intros o c.
  destruct (empty_rotation_list_is_absorbing online o c) as [H _].
  destruct (H eq_refl) as [_ Hlater].
  split; [reflexivity|]. split; [reflexivity|].
  apply (Hlater [] rotating ["agent-a"; "agent-b"; "agent-c"]%string). reflexivity.
Defined.

(** X18 at [batch]: a number, an option object and a nested url. *)
Lemma two_of_three_are_submitted :
  let c := constructor online None in
  isTrue (skipDuplicates (options c)) = false /\
  forallb (objectOrRejected online) (flattenDeep batch) = true /\
  exists c',
    add online batch c = (Normal tt, c') /\
    notifications "schedule" (history c')
    = notifications "schedule" (history c) ++ ["schedule"; "schedule"]%string /\
    logged (history c') = logged (history c) ++ [LWarn].
Proof.
  intros c.
  destruct (add_submits_each_valid_entry online batch c)
    as (c' & H1 & _ & H2 & H3); [reflexivity | vm_compute; reflexivity |].
  split; [reflexivity|]. split; [vm_compute; reflexivity|].
  exists c'. split; [exact H1|]. split; [exact H2 | exact H3].
Defined.

(** X19 at a hook that never calls [done]. *)
Lemma silent_hook :
  let o := set_preRequest (Some 0%nat) target in
  let c := constructor hookSilent None in
  preRequest o = Some 0%nat /\ truthyString (html o) = false /\
  url o <> Some (UrlFunction None) /\
  exists c',
    task hookSilent 1 o None c = Some c' /\
    _limiters c' = _limiters c /\
    attempts (history c') = attempts (history c).
Proof.
  intros o c.
  assert (Hurl : url o <> Some (UrlFunction None)) by discriminate.
  destruct (hook_without_done_keeps_the_slot hookSilent 0 o None c 0)
    as (c' & H1 & H2 & _ & H3 & _);
    [reflexivity | reflexivity | exact Hurl | intros o'; left; reflexivity |].
  split; [reflexivity|]. split; [reflexivity|]. split; [exact Hurl|].
  exists c'. split; [exact H1|]. split; [exact H2 | exact H3].
Defined.

End Further.
